(** * AnchorLab: memory store, personality mixer and autonomous agent

    A shallow embedding of the three algorithmic components of the
    repository:

    - [memory_system_implementation.py]  (module [Memory]),
    - [personality_mixer.py]             (module [Mixer]),
    - [autonomous_agent_integration.py]  (module [Agent]).

    Conventions of the embedding.

    - Python [float] values are modelled by exact rationals [Q];
      equalities between computed numbers are stated up to [==].
    - Wall-clock instants ([datetime.now()], [time.time()]) are inputs.
      [datetime] instants are integers counting microseconds.
    - A Python [dict] whose iteration order is observable is an
      insertion-ordered association list; a [dict] used only as a finite
      map is a [gmap].
    - An exception is a value of [PyError] in the left summand. *)

From Stdlib Require Import QArith Qabs Qround Qpower Qminmax Lqa.
From Stdlib Require Import Ascii String.
From stdpp Require Import gmap strings list fin_maps pretty sorting.

Open Scope Q_scope.

(** * Part I: the embedding *)

(** ** Numbers *)

(** Python's [a < b] on floats, as a boolean. *)
Definition Qltb (a b : Q) : bool :=
  if Qlt_le_dec a b then true else false.

(** Python's [min(a, b)]: the first argument unless the second is
    strictly smaller. *)
Definition py_min (a b : Q) : Q := if Qltb b a then b else a.

(** Python's [sum(xs)] over floats: a left fold from [0]. *)
Definition py_sum (xs : list Q) : Q := foldl Qplus 0 xs.

(** Python's [round(x, 3)]: nearest multiple of 1/1000, ties to the even
    one. *)
Definition round_half_even (x : Q) : Z :=
  let f := Qfloor x in
  let r := x - inject_Z f in
  if Qltb r (1 # 2) then f
  else if Qltb (1 # 2) r then (f + 1)%Z
  else if Z.even f then f else (f + 1)%Z.

Definition py_round3 (x : Q) : Q :=
  Qred (inject_Z (round_half_even (x * 1000)) / 1000).

(** ** Exceptions *)

Inductive PyError :=
  | ValueError (msg : string)
  | KeyError (key : string).

Definition str_of_error (e : PyError) : string :=
  match e with
  | ValueError msg => msg
  | KeyError key => "'" +:+ key +:+ "'"
  end.

#[global] Instance sum_error_ret : MRet (sum PyError) := λ A x, inr x.
#[global] Instance sum_error_bind : MBind (sum PyError) :=
  λ A B f m, match m with inl e => inl e | inr x => f x end.

(** [d[key]] on a dictionary entry that may be missing. *)
Definition getitem {A} (key : string) (entry : option A) : PyError + A :=
  match entry with
  | Some a => inr a
  | None => inl (KeyError key)
  end.

(** [for x in xs: ...] collecting results, stopping at the first
    exception. *)
Fixpoint for_each {A B} (f : A → PyError + B) (xs : list A) : PyError + list B :=
  match xs with
  | [] => inr []
  | x :: xs' => y ← f x; ys ← for_each f xs'; mret (y :: ys)
  end.

(** ** Insertion-ordered dictionaries

    [d[k] = v] keeps the position of an existing key and appends a new
    one; [del d[k]] removes the entry. *)
Section odict.
Context {K V : Type} `{EqDecision K}.

Fixpoint od_get (k : K) (d : list (K * V)) : option V :=
  match d with
  | [] => None
  | (k', v) :: d' => if decide (k = k') then Some v else od_get k d'
  end.

Fixpoint od_set (k : K) (v : V) (d : list (K * V)) : list (K * V) :=
  match d with
  | [] => [(k, v)]
  | (k', v') :: d' =>
    if decide (k = k') then (k', v) :: d' else (k', v') :: od_set k v d'
  end.

Fixpoint od_del (k : K) (d : list (K * V)) : list (K * V) :=
  match d with
  | [] => []
  | (k', v') :: d' =>
    if decide (k = k') then d' else (k', v') :: od_del k d'
  end.

(** In-place mutation of the object stored under [k]. *)
Fixpoint od_alter (f : V → V) (k : K) (d : list (K * V)) : list (K * V) :=
  match d with
  | [] => []
  | (k', v') :: d' =>
    if decide (k = k') then (k', f v') :: d' else (k', v') :: od_alter f k d'
  end.

End odict.

(** ** Lists *)

(** Python's [xs[:n]]: a non-negative bound takes a prefix, a negative
    one drops that many elements from the end. *)
Definition py_slice_to {A} (n : Z) (xs : list A) : list A :=
  if (0 <=? n)%Z then take (Z.to_nat n) xs
  else take (length xs - Z.to_nat (- n)) xs.

(** Python's [xs[-n:]] for a positive literal [n]. *)
Definition py_slice_last {A} (n : nat) (xs : list A) : list A :=
  drop (length xs - n) xs.

(** Python's [xs.remove(x)] when [x in xs]: the first occurrence goes. *)
Fixpoint py_remove `{EqDecision A} (x : A) (xs : list A) : list A :=
  match xs with
  | [] => []
  | y :: ys => if decide (x = y) then ys else y :: py_remove x ys
  end.

(** * The memory store ([memory_system_implementation.py]) *)
Module Memory.

Abbreviation Context := (gmap string Q).

Record MemoryNode := mkMemoryNode {
  id : string;
  content : string;
  memory_type : string;
  importance : Q;
  created_at : Z;
  last_accessed : Z;
  access_count : Z;
  anchor_context : Context;
  decay_rate : Q
}.

Definition base_rates : gmap string Q :=
  {[ "interaction" := 0.95; "pattern" := 0.98;
     "preference" := 0.99; "crisis" := 0.999 ]}.

(** [MemoryNode._calculate_decay_rate], a function of the type and
    importance the node holds when it is called. *)
Definition _calculate_decay_rate (memory_type : string) (importance : Q) : Q :=
  default 0.95 (base_rates !! memory_type) + importance * 0.05.

(** [f"mem_{int(time.time() * 1000)}"] at instant [now] (microseconds):
    the millisecond stamp. *)
Definition store_id (now : Z) : string := "mem_" +:+ pretty (now `quot` 1000)%Z.

(** [MemoryNode.__init__] at instant [now]. *)
Definition __init__ (now : Z) (content : string) (memory_type : string)
    (importance : Q) (anchor_context : option Context) : MemoryNode :=
  {| id := store_id now;
     content := content;
     memory_type := memory_type;
     importance := importance;
     created_at := now;
     last_accessed := now;
     access_count := 1;
     anchor_context := default ∅ anchor_context;
     decay_rate := _calculate_decay_rate memory_type importance |}.

(** [MemoryNode.access] *)
Definition access (now : Z) (self : MemoryNode) : MemoryNode :=
  {| id := id self;
     content := content self;
     memory_type := memory_type self;
     importance := py_min 1.0 (importance self + 0.01);
     created_at := created_at self;
     last_accessed := now;
     access_count := (access_count self + 1)%Z;
     anchor_context := anchor_context self;
     decay_rate := decay_rate self |}.

(** [timedelta.days] of [later - earlier]: whole days, rounded down. *)
Definition timedelta_days (later earlier : Z) : Z :=
  ((later - earlier) `div` 86400000000)%Z.

(** The strength formula of [get_current_strength] at a given number
    of days since the last access. *)
Definition strength_after (self : MemoryNode) (days_since_access : Z) : Q :=
  importance self * decay_rate self ^ days_since_access.

(** [MemoryNode.get_current_strength] *)
Definition get_current_strength (now : Z) (self : MemoryNode) : Q :=
  strength_after self (timedelta_days now (last_accessed self)).

(** *** [EnhancedMemorySystem] *)

Record EnhancedMemorySystem := mkSystem {
  max_memories : Z;
  cleanup_threshold : Q;
  memories : list (string * MemoryNode);
  memory_clusters : gmap string (list string)
}.

(** [EnhancedMemorySystem.__init__] *)
Definition new_system (max_memories : Z) (cleanup_threshold : Q) : EnhancedMemorySystem :=
  {| max_memories := max_memories;
     cleanup_threshold := cleanup_threshold;
     memories := [];
     memory_clusters := ∅ |}.

(** One pass of the second loop of [_cleanup_weak_memories]. The ids
    come from the keys of [memories], so the lookup cannot miss; the
    [None] branch is unreachable and leaves the system as it is. *)
Definition remove_memory (self : EnhancedMemorySystem) (memory_id : string) : EnhancedMemorySystem :=
  match od_get memory_id (memories self) with
  | None => self
  | Some memory =>
      let clusters :=
        match memory_clusters self !! memory_type memory with
        | Some ids =>
            if decide (memory_id ∈ ids)
            then <[memory_type memory := py_remove memory_id ids]> (memory_clusters self)
            else memory_clusters self
        | None => memory_clusters self
        end in
      {| max_memories := max_memories self;
         cleanup_threshold := cleanup_threshold self;
         memories := od_del memory_id (memories self);
         memory_clusters := clusters |}
  end.

(** [EnhancedMemorySystem._cleanup_weak_memories] *)
Definition _cleanup_weak_memories (now : Z) (self : EnhancedMemorySystem) : EnhancedMemorySystem :=
  let to_remove :=
    (filter (λ e, Qltb (get_current_strength now e.2) (cleanup_threshold self) = true)
            (memories self)).*1 in
  foldl remove_memory self to_remove.

(** [EnhancedMemorySystem.store_memory] *)
Definition store_memory (now : Z) (content : string) (memory_type : string)
    (importance : Q) (anchor_context : option Context)
    (self : EnhancedMemorySystem) : string * EnhancedMemorySystem :=
  let node := __init__ now content memory_type importance anchor_context in
  let memories1 := od_set (id node) node (memories self) in
  let clusters1 :=
    match memory_clusters self !! memory_type with
    | None => <[memory_type := []]> (memory_clusters self)
    | Some _ => memory_clusters self
    end in
  let clusters2 := alter (λ ids, ids ++ [id node]) memory_type clusters1 in
  let self1 :=
    {| max_memories := max_memories self;
       cleanup_threshold := cleanup_threshold self;
       memories := memories1;
       memory_clusters := clusters2 |} in
  let self2 :=
    if (max_memories self <? Z.of_nat (length memories1))%Z
    then _cleanup_weak_memories now self1 else self1 in
  (id node, self2).

(** [EnhancedMemorySystem._calculate_anchor_similarity] *)
Definition _calculate_anchor_similarity (context1 context2 : Context) : Q :=
  if decide (context1 = ∅ ∨ context2 = ∅) then 0.0 else
  let common_keys := elements (dom context1 ∩ dom context2) in
  match common_keys with
  | [] => 0.0
  | _ =>
      let similarities :=
        (λ key, 1.0 - Qabs (default 0 (context1 !! key) - default 0 (context2 !! key)))
          <$> common_keys in
      py_sum similarities / inject_Z (Z.of_nat (length similarities))
  end.

(** The score computed for one memory in the first loop of
    [retrieve_memories]; [None] when the memory is skipped. *)
Definition candidate_score (now : Z) (threshold : Q) (query_type : option string)
    (anchor_context : option Context) (memory : MemoryNode) : option Q :=
  let strength := get_current_strength now memory in
  if Qltb strength threshold then None else
  let score := strength in
  let score :=
    match query_type with
    | Some qt =>
        if decide (qt ≠ "" ∧ memory_type memory = qt) then score + 0.2 else score
    | None => score
    end in
  let score :=
    match anchor_context with
    | Some ctx =>
        if decide (ctx ≠ ∅ ∧ Memory.anchor_context memory ≠ ∅)
        then score + _calculate_anchor_similarity ctx (Memory.anchor_context memory) * 0.3
        else score
    | None => score
    end in
  Some score.

(** [candidates.sort(key=lambda x: x[0], reverse=True)]: a stable sort,
    larger scores first, equal scores in their original order. *)
Fixpoint insert_desc {A} (c : Q * A) (sorted : list (Q * A)) : list (Q * A) :=
  match sorted with
  | [] => [c]
  | d :: rest =>
      if Qltb c.1 d.1 then d :: insert_desc c rest else c :: d :: rest
  end.

Definition sort_desc {A} (cs : list (Q * A)) : list (Q * A) :=
  foldr insert_desc [] cs.

(** One entry of the list [retrieve_memories] returns: [to_dict()] of
    the node after [access()], plus the score. *)
Record RetrievedMemory := mkRetrieved {
  node : MemoryNode;
  current_strength : Q;
  relevance_score : Q
}.

(** The candidates of [retrieve_memories], in dictionary order. *)
Definition candidates (now : Z) (query_type : option string)
    (anchor_context : option Context) (self : EnhancedMemorySystem)
    : list (Q * (string * MemoryNode)) :=
  omap (λ e, (λ score, (score, e))
               <$> candidate_score now (cleanup_threshold self) query_type anchor_context e.2)
       (memories self).

(** [EnhancedMemorySystem.retrieve_memories]. The second loop mutates
    each selected node in place, then reads it back through
    [to_dict()]. *)
Definition retrieve_memories (now : Z) (query_type : option string)
    (anchor_context : option Context) (limit : Z)
    (self : EnhancedMemorySystem) : list RetrievedMemory * EnhancedMemorySystem :=
  let selected :=
    py_slice_to limit (sort_desc (candidates now query_type anchor_context self)) in
  let results :=
    (λ c, let memory := access now c.2.2 in
          {| node := memory;
             current_strength := get_current_strength now memory;
             relevance_score := c.1 |}) <$> selected in
  let memories1 :=
    foldl (λ ms c, od_alter (access now) c.2.1 ms) (memories self) selected in
  (results,
   {| max_memories := max_memories self;
      cleanup_threshold := cleanup_threshold self;
      memories := memories1;
      memory_clusters := memory_clusters self |}).

(** The operations a caller can perform on a store. *)
Inductive Operation :=
| Store (now : Z) (content memory_type : string) (importance : Q)
        (anchor_context : option Context)
| Retrieve (now : Z) (query_type : option string)
           (anchor_context : option Context) (limit : Z)
| Cleanup (now : Z).

Definition apply_operation (self : EnhancedMemorySystem) (op : Operation) : EnhancedMemorySystem :=
  match op with
  | Store now content memory_type importance ctx =>
      (store_memory now content memory_type importance ctx self).2
  | Retrieve now query_type ctx limit =>
      (retrieve_memories now query_type ctx limit self).2
  | Cleanup now => _cleanup_weak_memories now self
  end.

(** The two indices agree: every id of the type index is a key of the
    main mapping, and every key of the main mapping is listed under the
    type of its node. *)
Definition indices_consistent (self : EnhancedMemorySystem) : Prop :=
  (∀ memory_type ids memory_id,
      memory_clusters self !! memory_type = Some ids → memory_id ∈ ids →
      is_Some (od_get memory_id (memories self))) ∧
  (∀ memory_id memory,
      od_get memory_id (memories self) = Some memory →
      ∃ ids, memory_clusters self !! Memory.memory_type memory = Some ids ∧
             memory_id ∈ ids).

(** Larger scores first. *)
Definition desc {A} (c d : Q * A) : Prop := d.1 <= c.1.

(** The ids given out by the [Store] operations of a sequence. *)
Definition stored_ids (ops : list Operation) : list string :=
  omap (λ op, match op with
              | Store now _ _ _ _ => Some (store_id now)
              | _ => None
              end) ops.

(** The shape of a store whose ids have never collided: the keys of
    the main mapping are distinct, every list of the type index is
    duplicate-free and holds ids of nodes of that type, and every node
    is listed under its type. *)
Definition well_indexed (self : EnhancedMemorySystem) : Prop :=
  NoDup (memories self).*1 ∧
  (∀ memory_type ids,
      memory_clusters self !! memory_type = Some ids →
      NoDup ids ∧
      ∀ memory_id, memory_id ∈ ids →
        ∃ memory, od_get memory_id (memories self) = Some memory ∧
                  Memory.memory_type memory = memory_type) ∧
  (∀ memory_id memory,
      od_get memory_id (memories self) = Some memory →
      ∃ ids, memory_clusters self !! Memory.memory_type memory = Some ids ∧
             memory_id ∈ ids).

(** *** The ranking rule, in the words of the specification *)

(** 0.2 when a query type is given and is the type of the memory. *)
Definition type_bonus (query_type : option string) (memory : MemoryNode) : Q :=
  match query_type with
  | Some qt => if decide (qt ≠ "" ∧ memory_type memory = qt) then 0.2 else 0
  | None => 0
  end.

(** The mean, over the dimensions present in both contexts, of
    [1 - |a - b|]; 0 when no dimension is shared. *)
Definition mean_similarity (context1 context2 : Context) : Q :=
  let shared := elements (dom context1 ∩ dom context2) in
  match shared with
  | [] => 0
  | _ =>
      py_sum ((λ key, 1 - Qabs (default 0 (context1 !! key) - default 0 (context2 !! key)))
                <$> shared)
      / inject_Z (Z.of_nat (length shared))
  end.

Definition relevance (now : Z) (query_type : option string)
    (anchor_context : option Context) (memory : MemoryNode) : Q :=
  get_current_strength now memory
  + type_bonus query_type memory
  + 0.3 * mean_similarity (default ∅ anchor_context) (Memory.anchor_context memory).

(** *** Stores to evaluate the operations on *)

Definition t0 : Z := 1700000000000000.

(** A crisis memory and two interaction memories stored one second
    apart, with importance 0.9, 0.5 and 0.5. *)
Definition three_memories : EnhancedMemorySystem :=
  foldl apply_operation (new_system 1000 0.1)
    [Store t0 "alarm" "crisis" 0.9 (Some {[ "Fear" := 0.9 ]});
     Store (t0 + 1000000) "hello" "interaction" 0.5 (Some {[ "Fear" := 0.5 ]});
     Store (t0 + 2000000) "again" "interaction" 0.5 None].

(** The anchor context of a query. *)
Definition fearful : Context := {[ "Fear" := 0.7 ]}.

(** A store holding one memory whose type is the empty string. *)
Definition untyped_memory : EnhancedMemorySystem :=
  apply_operation (new_system 1000 0.1) (Store t0 "note" "" 0.5 None).

(** Two weak memories stored within the same millisecond, then a
    cleanup. *)
Definition same_millisecond : list Operation :=
  [Store t0 "first" "interaction" 0.05 None;
   Store (t0 + 1) "second" "pattern" 0.05 None;
   Cleanup (t0 + 2)].

(** A node accessed at each of the instants [times], in order. *)
Definition access_all (times : list Z) (self : MemoryNode) : MemoryNode :=
  foldl (λ node now, access now node) self times.

(** The node [_detect_and_store_patterns] stores for an input that
    contains a crisis keyword. *)
Definition crisis_pattern (now : Z) (user_input : string) : MemoryNode :=
  __init__ now ("Pattern: crisis - " +:+ user_input) "crisis" 0.9 None.

Definition one_day : Z := 86400000000.

(** *** Statistics and persistence *)

(** [MemoryNode.to_dict]. The two [isoformat()] texts are represented by
    the instants they denote: [datetime.fromisoformat] reads back what
    [isoformat] writes. *)
Record NodeDict := mkNodeDict {
  d_id : string;
  d_content : string;
  d_memory_type : string;
  d_importance : Q;
  d_created_at : Z;
  d_last_accessed : Z;
  d_access_count : Z;
  d_anchor_context : Context;
  d_current_strength : Q
}.

Definition to_dict (now : Z) (self : MemoryNode) : NodeDict :=
  {| d_id := id self;
     d_content := content self;
     d_memory_type := memory_type self;
     d_importance := importance self;
     d_created_at := created_at self;
     d_last_accessed := last_accessed self;
     d_access_count := access_count self;
     d_anchor_context := Memory.anchor_context self;
     d_current_strength := get_current_strength now self |}.




(** The ["config"] object of a memory file; [json.load] may find either
    entry missing. *)
Record ConfigDict := mkConfig {
  cfg_max_memories : option Z;
  cfg_cleanup_threshold : option Q
}.

(** The content of a memory file, as [json.dump] writes it and
    [json.load] reads it back; each top-level entry may be missing. *)
Record FileData := mkFile {
  file_memories : option (list (string * NodeDict));
  file_clusters : option (gmap string (list string));
  file_config : option ConfigDict
}.

(** [EnhancedMemorySystem.save_to_file]: the data written. *)
Definition save_to_file (now : Z) (self : EnhancedMemorySystem) : FileData :=
  {| file_memories := Some ((λ e, (e.1, to_dict now e.2)) <$> memories self);
     file_clusters := Some (memory_clusters self);
     file_config := Some {| cfg_max_memories := Some (max_memories self);
                            cfg_cleanup_threshold := Some (cleanup_threshold self) |} |}.

(** The node [load_from_file] rebuilds from one entry: a new
    [MemoryNode] from content, type, importance and context, whose id,
    instants and access count are then overwritten. *)
Definition restore_node (now : Z) (mem_data : NodeDict) : MemoryNode :=
  let node := __init__ now (d_content mem_data) (d_memory_type mem_data)
                (d_importance mem_data) (Some (d_anchor_context mem_data)) in
  {| id := d_id mem_data;
     content := content node;
     memory_type := memory_type node;
     importance := importance node;
     created_at := d_created_at mem_data;
     last_accessed := d_last_accessed mem_data;
     access_count := d_access_count mem_data;
     anchor_context := Memory.anchor_context node;
     decay_rate := decay_rate node |}.

(** [EnhancedMemorySystem.load_from_file]; [None] is the missing file
    ([FileNotFoundError], swallowed). *)
Definition load_from_file (now : Z) (file : option FileData)
    (self : EnhancedMemorySystem) : EnhancedMemorySystem :=
  match file with
  | None => self
  | Some data =>
      let memories1 :=
        foldl (λ ms (e : string * NodeDict), od_set e.1 (restore_node now e.2) ms)
              [] (default [] (file_memories data)) in
      let config := default (mkConfig None None) (file_config data) in
      {| max_memories := default (max_memories self) (cfg_max_memories config);
         cleanup_threshold := default (cleanup_threshold self) (cfg_cleanup_threshold config);
         memories := memories1;
         memory_clusters := default ∅ (file_clusters data) |}
  end.

(** A node as [load_from_file] gives it back after [save_to_file]. *)
Definition reloaded (self : MemoryNode) : MemoryNode :=
  {| id := id self;
     content := content self;
     memory_type := memory_type self;
     importance := importance self;
     created_at := created_at self;
     last_accessed := last_accessed self;
     access_count := access_count self;
     anchor_context := Memory.anchor_context self;
     decay_rate := _calculate_decay_rate (memory_type self) (importance self) |}.


(** A store with room for one memory, holding one. *)
Definition over_capacity : EnhancedMemorySystem :=
  apply_operation (new_system 1 0.1) (Store t0 "first" "interaction" 0.5 None).

(** One strong memory and two that are weak from the start. *)
Definition faded : EnhancedMemorySystem :=
  foldl apply_operation (new_system 1000 0.1)
    [Store t0 "keep" "interaction" 0.5 None;
     Store (t0 + 1000) "drop" "interaction" 0.05 None;
     Store (t0 + 2000) "lose" "pattern" 0.01 None].

(** An interaction memory stored and then retrieved once, a day later. *)
Definition accessed_once : EnhancedMemorySystem :=
  foldl apply_operation (new_system 1000 0.1)
    [Store t0 "hello" "interaction" 0.5 (Some {[ "Fear" := 0.5 ]});
     Retrieve (t0 + 86400000000) None None 10].

End Memory.

(** * The personality mixer ([personality_mixer.py]) *)
Module Mixer.

(** ** Strings *)

(** [s.split('.')[0]]: the text before the first full stop. *)
Fixpoint first_sentence (s : string) : string :=
  match s with
  | EmptyString => EmptyString
  | String c rest =>
      if decide (c = "."%char) then EmptyString else String c (first_sentence rest)
  end.

(** [sep.join(parts)] *)
Fixpoint join (sep : string) (parts : list string) : string :=
  match parts with
  | [] => ""
  | [p] => p
  | p :: rest => p +:+ sep +:+ join sep rest
  end.

Definition lower_char (c : ascii) : ascii :=
  let n := nat_of_ascii c in
  if decide (65 ≤ n ∧ n ≤ 90)%nat then ascii_of_nat (n + 32) else c.

(** [s.lower()], on the ASCII letters; other bytes are kept. *)
Fixpoint lower (s : string) : string :=
  match s with
  | EmptyString => EmptyString
  | String c rest => String (lower_char c) (lower rest)
  end.

(** [s[:n]] on a string, [n] non-negative. *)
Fixpoint str_take (n : nat) (s : string) : string :=
  match n, s with
  | O, _ => EmptyString
  | S n', EmptyString => EmptyString
  | S n', String c rest => String c (str_take n' rest)
  end.

(** ** Profiles *)

Record Exchange := mkExchange {
  user : string;
  assistant : string
}.

(** A foundation personality is a Python dictionary; each of its keys
    may be missing. The inner [option] of [memory_scaffolding] is the
    ["root_nodes"] key of the nested dictionary. *)
Record Profile := mkProfile {
  goal_statement : option string;
  persona_style : option string;
  core_vector_default : option (gmap string Q);
  personality_vector : option (gmap string Q);
  memory_scaffolding : option (option (list string));
  examples : option (list Exchange)
}.

(** The empty dictionary [{}]. *)
Definition empty_profile : Profile :=
  {| goal_statement := None; persona_style := None;
     core_vector_default := None; personality_vector := None;
     memory_scaffolding := None; examples := None |}.

Definition scientist : Profile :=
  {| goal_statement := Some "Systematically explore, test hypotheses, and share evidence-based knowledge.";
     persona_style := Some "Methodical researcher — speaks with precision, references studies.";
     core_vector_default := Some (list_to_map
       [("Fear", 0.25); ("Safety", 0.75); ("Time", 0.70); ("Choice", 0.80)]);
     personality_vector := Some (list_to_map
       [("openness_intellect", 0.95); ("openness_aesthetic", 0.60);
        ("conscientious_industriousness", 0.90); ("conscientious_orderliness", 0.85);
        ("extraversion_assertiveness", 0.65); ("extraversion_enthusiasm", 0.70);
        ("agreeableness_compassion", 0.60); ("agreeableness_politeness", 0.75);
        ("neuroticism_volatility", 0.20); ("neuroticism_withdrawal", 0.15)]);
     memory_scaffolding := Some (Some ["SCI001"]);
     examples := Some [mkExchange "What do you think?" "Let's examine the evidence."] |}.

Definition artist : Profile :=
  {| goal_statement := Some "Create, inspire, and explore the boundaries of imagination.";
     persona_style := Some "Creative visionary — speaks in metaphors, sees connections others miss.";
     core_vector_default := Some (list_to_map
       [("Fear", 0.35); ("Safety", 0.75); ("Time", 0.45); ("Choice", 0.90)]);
     personality_vector := Some (list_to_map
       [("openness_intellect", 0.85); ("openness_aesthetic", 0.98);
        ("conscientious_industriousness", 0.50); ("conscientious_orderliness", 0.30);
        ("extraversion_assertiveness", 0.60); ("extraversion_enthusiasm", 0.85);
        ("agreeableness_compassion", 0.80); ("agreeableness_politeness", 0.60);
        ("neuroticism_volatility", 0.40); ("neuroticism_withdrawal", 0.25)]);
     memory_scaffolding := Some (Some ["ART001"]);
     examples := Some [mkExchange "I'm stuck creatively." "Creative blocks are like frozen rivers."] |}.

Definition skeptic : Profile :=
  {| goal_statement := Some "Question assumptions, demand evidence, and help separate signal from noise.";
     persona_style := Some "Critical thinker — asks 'how do we know?', challenges assumptions.";
     core_vector_default := Some (list_to_map
       [("Fear", 0.40); ("Safety", 0.60); ("Time", 0.50); ("Choice", 0.75)]);
     personality_vector := Some (list_to_map
       [("openness_intellect", 0.85); ("openness_aesthetic", 0.45);
        ("conscientious_industriousness", 0.80); ("conscientious_orderliness", 0.75);
        ("extraversion_assertiveness", 0.70); ("extraversion_enthusiasm", 0.40);
        ("agreeableness_compassion", 0.40); ("agreeableness_politeness", 0.30);
        ("neuroticism_volatility", 0.25); ("neuroticism_withdrawal", 0.20)]);
     memory_scaffolding := Some (Some ["SKP001"]);
     examples := Some [mkExchange "Everyone says this works." "What evidence beyond anecdotes?"] |}.

(** The dictionary literal [foundations] of
    [_get_foundation_personality]: the catalog of defined profiles. *)
Definition foundations : gmap string Profile :=
  list_to_map [("scientist", scientist); ("artist", artist); ("skeptic", skeptic)].

(** [PersonalityMixer._get_foundation_personality] *)
Definition _get_foundation_personality (name : string) : Profile :=
  default empty_profile (foundations !! name).

(** [PersonalityMixer.load_foundation_personalities]: the value of
    [self.base_personalities] after construction. *)
Definition load_foundation_personalities : gmap string Profile :=
  foldl (λ base personality,
           <[personality := _get_foundation_personality personality]> base)
        ∅ ["scientist"; "researcher"; "friend"; "skeptic"; "artist"].

(** ** Mixing *)

Abbreviation Combinations := (list (string * Q)).

Record MixedPersonality := mkMixed {
  seed_id : string;
  created : string;
  mixed_goal_statement : string;
  mixed_persona_style : string;
  mixed_core_vector_default : list (string * Q);
  mixed_personality_vector : list (string * Q);
  consequence_drift_lexicon : string;
  mixed_root_nodes : list string;
  reply_hygiene : string;
  mix_components : Combinations;
  mixed_examples : list Exchange
}.

Section mixer.

(** [self.base_personalities] *)
Variable base_personalities : gmap string Profile.

(** The order in which [list(set(xs))] lists the distinct elements of
    [xs]; it depends on the interpreter's string hashing and is fixed
    while the process runs. *)
Variable list_of_set : list string → list string.

(** [PersonalityMixer._weighted_average] *)
Definition _weighted_average (weighted_values : list (Q * Q)) : Q :=
  let total := py_sum ((λ vw, vw.1 * vw.2) <$> weighted_values) in
  py_round3 total.

(** [max(combinations, key=lambda x: x[1])]: the first pair of largest
    weight. *)
Fixpoint max_by_weight (best : string * Q) (rest : Combinations) : string * Q :=
  match rest with
  | [] => best
  | c :: rest' => max_by_weight (if Qltb best.2 c.2 then c else best) rest'
  end.

Definition dominant_of (combinations : Combinations) : PyError + (string * Q) :=
  match combinations with
  | [] => inl (ValueError "max() arg is an empty sequence")
  | c :: rest => inr (max_by_weight c rest)
  end.

(** [PersonalityMixer._generate_mixed_goal] *)
Definition _generate_mixed_goal (combinations : Combinations) : PyError + string :=
  goal_elements ← for_each (λ c : string * Q,
      profile ← getitem c.1 (base_personalities !! c.1);
      goal ← getitem "goal_statement" (goal_statement profile);
      mret (if Qltb 0.3 c.2 then [first_sentence goal] else []))
    combinations;
  mret ("Combine " +:+ lower (join ", " (concat goal_elements))
          +:+ " in a unified approach.").

(** [PersonalityMixer._generate_mixed_persona_style] *)
Definition _generate_mixed_persona_style (combinations : Combinations) : PyError + string :=
  dominant ← dominant_of combinations;
  profile ← getitem dominant.1 (base_personalities !! dominant.1);
  base_style ← getitem "persona_style" (persona_style profile);
  let other_traits :=
    (filter (λ c : string * Q, c.1 ≠ dominant.1 ∧ Qltb 0.2 c.2 = true) combinations).*1 in
  match other_traits with
  | [] => mret base_style
  | _ => mret (base_style +:+ " Enhanced with " +:+ join ", " other_traits
                 +:+ " characteristics.")
  end.

(** [PersonalityMixer._generate_mixed_examples] *)
Definition _generate_mixed_examples (combinations : Combinations) : PyError + list Exchange :=
  dominant ← dominant_of combinations;
  profile ← getitem dominant.1 (base_personalities !! dominant.1);
  let base_examples := default [] (examples profile) in
  mret (take 2 base_examples).

(** The list comprehension
    [[(self.base_personalities[name][vector][key], weight) for name, weight in combinations]]. *)
Definition weighted_values (vector_name : string)
    (vector : Profile → option (gmap string Q)) (key : string)
    (combinations : Combinations) : PyError + list (Q * Q) :=
  for_each (λ c : string * Q,
      profile ← getitem c.1 (base_personalities !! c.1);
      values ← getitem vector_name (vector profile);
      value ← getitem key (values !! key);
      mret (value, c.2))
    combinations.

(** One of the two blending loops of [mix_personalities]. *)
Definition mix_vector (vector_name : string)
    (vector : Profile → option (gmap string Q)) (keys : list string)
    (combinations : Combinations) : PyError + list (string * Q) :=
  for_each (λ key,
      wv ← weighted_values vector_name vector key combinations;
      mret (key, _weighted_average wv))
    keys.

Definition core_keys : list string := ["Fear"; "Safety"; "Time"; "Choice"].

Definition personality_keys : list string :=
  ["openness_intellect"; "openness_aesthetic";
   "conscientious_industriousness"; "conscientious_orderliness";
   "extraversion_assertiveness"; "extraversion_enthusiasm";
   "agreeableness_compassion"; "agreeableness_politeness";
   "neuroticism_volatility"; "neuroticism_withdrawal"].

(** The loop collecting [all_nodes] in [mix_personalities]. *)
Definition all_root_nodes (combinations : Combinations) : PyError + list string :=
  nodes ← for_each (λ c : string * Q,
      profile ← getitem c.1 (base_personalities !! c.1);
      mret (default [] (default None (memory_scaffolding profile))))
    combinations;
  mret (concat nodes).

(** [PersonalityMixer.mix_personalities]; [uuid4] is the text of the
    fresh [uuid.uuid4()] and [now_iso] that of
    [datetime.now().isoformat()]. *)
Definition mix_personalities (uuid4 now_iso : string)
    (combinations : Combinations) (custom_goal : option string)
    : PyError + MixedPersonality :=
  let total_weight := py_sum (combinations.*2) in
  if Qltb 0.01 (Qabs (total_weight - 1.0))
  then inl (ValueError "Weights must sum to 1.0")
  else
    goal ← match custom_goal with
           | Some g => if decide (g = "") then _generate_mixed_goal combinations else mret g
           | None => _generate_mixed_goal combinations
           end;
    style ← _generate_mixed_persona_style combinations;
    core ← mix_vector "core_vector_default" core_vector_default core_keys combinations;
    personality ← mix_vector "personality_vector" personality_vector personality_keys combinations;
    all_nodes ← all_root_nodes combinations;
    examples ← _generate_mixed_examples combinations;
    mret {| seed_id := "Mixed_" +:+ str_take 8 uuid4;
            created := now_iso +:+ "Z";
            mixed_goal_statement := goal;
            mixed_persona_style := style;
            mixed_core_vector_default := core;
            mixed_personality_vector := personality;
            consequence_drift_lexicon := "MFD2.0_consequence_drift.json";
            mixed_root_nodes := list_of_set all_nodes;
            reply_hygiene := "Blend characteristics from component personalities.";
            mix_components := combinations;
            mixed_examples := examples |}.

End mixer.


(** The value a component contributes to the blend of one dimension:
    [self.base_personalities[name][vector][key]] paired with its
    weight. *)
Definition contributes (base_personalities : gmap string Profile)
    (vector : Profile → option (gmap string Q)) (key : string)
    (component : string * Q) (value_weight : Q * Q) : Prop :=
  ∃ profile values,
    base_personalities !! component.1 = Some profile ∧
    vector profile = Some values ∧
    values !! key = Some value_weight.1 ∧
    value_weight.2 = component.2.



End Mixer.

(** * The session with memory ([memory_system_implementation.py]) *)
Module MemorySession.
Import Memory.

(** Python's [word in text] on strings: [word] occurs in [text]. *)
Fixpoint contains (word text : string) : bool :=
  String.prefix word text ||
  match text with
  | EmptyString => false
  | String _ rest => contains word rest
  end.

(** [any(word in text for word in keywords)] *)
Definition any_keyword (keywords : list string) (text : string) : bool :=
  existsb (λ word, contains word text) keywords.

Definition crisis_keywords : list string :=
  ["crisis"; "emergency"; "urgent"; "help"; "scared"].

Definition preference_keywords : list string :=
  ["like"; "prefer"; "want"; "enjoy"; "love"].

Definition recall_keywords : list string := ["remember"; "recall"; "before"].

Definition newline : string := String (ascii_of_nat 10) EmptyString.

Record AnchorSessionWithMemory := mkSessionWithMemory {
  core : gmap string Q;
  goal_vector : gmap string Q;
  memory_file : string;
  memory_system : EnhancedMemorySystem
}.

(** [AnchorSessionWithMemory.__init__]; [file] is the content of the
    memory file, if the file exists. *)
Definition new_session (persona memory_file : option string) (now : Z)
    (file : option FileData) : AnchorSessionWithMemory :=
  let persona_name :=
    match persona with
    | Some p => if decide (p = "") then "default" else p
    | None => "default"
    end in
  let memory_file :=
    match memory_file with
    | Some f => if decide (f = "") then "memories_" +:+ persona_name +:+ ".json" else f
    | None => "memories_" +:+ persona_name +:+ ".json"
    end in
  let memory_system := new_system 1000 0.1 in
  {| core := list_to_map [("Fear", 0.5); ("Safety", 0.5); ("Time", 0.5); ("Choice", 0.5)];
     goal_vector := list_to_map [("Fear", 0.3); ("Safety", 0.7); ("Time", 0.6); ("Choice", 0.8)];
     memory_file := memory_file;
     memory_system :=
       if decide (memory_file = "") then memory_system
       else load_from_file now file memory_system |}.

(** The type and importance [_detect_and_store_patterns] settles on. *)
Definition detect_pattern (user_input : string) : string * Q :=
  if any_keyword crisis_keywords (Mixer.lower user_input) then ("crisis", 0.9)
  else if any_keyword preference_keywords (Mixer.lower user_input) then ("preference", 0.7)
  else ("interaction", 0.5).

(** [AnchorSessionWithMemory._detect_and_store_patterns] *)
Definition _detect_and_store_patterns (now : Z) (user_input response : string)
    (self : AnchorSessionWithMemory) : AnchorSessionWithMemory :=
  let '(memory_type, importance) := detect_pattern user_input in
  if decide (memory_type ≠ "interaction") then
    {| core := core self; goal_vector := goal_vector self;
       memory_file := memory_file self;
       memory_system :=
         (store_memory now ("Pattern: " +:+ memory_type +:+ " - " +:+ user_input)
            memory_type importance (Some (core self)) (memory_system self)).2 |}
  else self.

(** [AnchorSessionWithMemory.process_input]. The interaction is stored
    at instant [now1], the pattern (if any) at [now2], and the file is
    written at [now3]; the last component is the data written. *)
Definition process_input (now1 now2 now3 : Z) (user_input response : string)
    (self : AnchorSessionWithMemory)
    : (string * gmap string Q) * AnchorSessionWithMemory * option FileData :=
  let stored :=
    store_memory now1 ("User: " +:+ user_input +:+ newline +:+ "Response: " +:+ response)
      "interaction" 0.5 (Some (core self)) (memory_system self) in
  let self1 :=
    {| core := core self; goal_vector := goal_vector self;
       memory_file := memory_file self; memory_system := stored.2 |} in
  let self2 := _detect_and_store_patterns now2 user_input response self1 in
  let written :=
    if decide (memory_file self2 = "") then None
    else Some (save_to_file now3 (memory_system self2)) in
  ((stored.1, core self2), self2, written).

(** [AnchorSessionWithMemory.get_relevant_context] *)
Definition get_relevant_context (now : Z) (current_input : string) (limit : Z)
    (self : AnchorSessionWithMemory)
    : list RetrievedMemory * AnchorSessionWithMemory :=
  let retrieved :=
    if contains "crisis" (Mixer.lower current_input) then
      retrieve_memories now (Some "crisis") (Some (core self)) limit (memory_system self)
    else if any_keyword recall_keywords (Mixer.lower current_input) then
      retrieve_memories now None (Some (core self)) limit (memory_system self)
    else
      retrieve_memories now (Some "interaction") (Some (core self)) limit (memory_system self) in
  (retrieved.1,
   {| core := core self; goal_vector := goal_vector self;
      memory_file := memory_file self; memory_system := retrieved.2 |}).

End MemorySession.

(** * The autonomous agent ([autonomous_agent_integration.py]) *)
Module Agent.

Inductive AgentState := IDLE | THINKING | ACTING | LEARNING | CRISIS.

#[global] Instance AgentState_eq_dec : EqDecision AgentState.
Proof. solve_decision. Defined.

(** [AgentState.value] *)
Definition state_value (s : AgentState) : string :=
  match s with
  | IDLE => "idle" | THINKING => "thinking" | ACTING => "acting"
  | LEARNING => "learning" | CRISIS => "crisis"
  end.

Inductive ActionPriority := LOW | MEDIUM | HIGH | CRITICAL.

Record AgentAction := mkAction {
  action_id : string;
  name : string;
  description : string;
  priority : ActionPriority;
  anchor_requirements : list (string * Q);
  anchor_effects : list (string * Q);
  cooldown : Q;
  energy_cost : Q;
  last_executed : Q
}.

(** [action.last_executed = t] *)
Definition set_last_executed (t : Q) (action : AgentAction) : AgentAction :=
  {| action_id := action_id action; name := name action;
     description := description action; priority := priority action;
     anchor_requirements := anchor_requirements action;
     anchor_effects := anchor_effects action;
     cooldown := cooldown action; energy_cost := energy_cost action;
     last_executed := t |}.

(** The values found in result dictionaries. *)
Inductive PyValue :=
| VStr (s : string)
| VNum (q : Q).

Abbreviation Result := (list (string * PyValue)).

(** ** The anchor session

    The session class lives outside this repository. The agent reads its
    [core] dictionary, reads the diagnostics of [export_view()], and
    calls [tick(effects)]. *)
Record View := mkView {
  chaos_proximity : option Q;
  velocity_magnitude : option Q;
  stability_trend : option string
}.

Class AnchorSession (Session : Type) := {
  core : Session → gmap string Q;
  export_view : Session → View;
  tick : Session → list (string * Q) → Session
}.

(** ** The wall clock

    [wall n] is the value of the [n]-th call of [time.time()]; a
    computation that reads the clock threads the number of calls made
    so far. *)
Class WallClock := wall : nat → Q.

Definition Clock (A : Type) : Type := nat → A * nat.

#[global] Instance clock_ret : MRet Clock := λ A x n, (x, n).
#[global] Instance clock_bind : MBind Clock :=
  λ A B f m n, let '(x, n') := m n in f x n'.

Definition time_time `{WallClock} : Clock Q := λ n, (wall n, S n).

(** ** Agent state *)

Record HistoryEntry := mkHistory {
  h_action : string;
  h_timestamp : Q;
  h_result : Result;
  anchor_state_before : gmap string Q
}.

Record LearningEntry := mkLearning {
  l_action : string;
  l_timestamp : Q;
  result_success : bool;
  chaos_before : bool;
  chaos_after : bool;
  stability_change : string;
  agent_state : string
}.

Record AutonomousAgent (Session : Type) := mkAgent {
  agent_id : string;
  anchor_session : Session;
  personality_seed : option string;
  state : AgentState;
  energy : Q;
  autonomy_level : Q;
  decision_threshold : Q;
  available_actions : list (string * AgentAction);
  action_history : list HistoryEntry;
  learning_data : list LearningEntry;
  last_decision_time : Q;
  decision_frequency : Q;
  is_running : bool
}.

Arguments mkAgent {Session}.
Arguments agent_id {Session}.
Arguments anchor_session {Session}.
Arguments personality_seed {Session}.
Arguments state {Session}.
Arguments energy {Session}.
Arguments autonomy_level {Session}.
Arguments decision_threshold {Session}.
Arguments available_actions {Session}.
Arguments action_history {Session}.
Arguments learning_data {Session}.
Arguments last_decision_time {Session}.
Arguments decision_frequency {Session}.
Arguments is_running {Session}.

(** [AutonomousAgent._setup_default_actions] *)
Definition default_actions : list (string * AgentAction) :=
  [("observe",
    {| action_id := "observe"; name := "Observe Environment";
       description := "Gather information about current state";
       priority := LOW;
       anchor_requirements := [("Choice", 0.3)];
       anchor_effects := [("Safety", 0.05); ("Time", 0.02)];
       cooldown := 5.0; energy_cost := 0.05; last_executed := 0.0 |});
   ("reflect",
    {| action_id := "reflect"; name := "Reflect on State";
       description := "Analyze internal anchor state and recent actions";
       priority := MEDIUM;
       anchor_requirements := [("Time", 0.4)];
       anchor_effects := [("Safety", 0.1); ("Choice", 0.05)];
       cooldown := 30.0; energy_cost := 0.1; last_executed := 0.0 |});
   ("stabilize",
    {| action_id := "stabilize"; name := "Stabilize Anchors";
       description := "Attempt to balance anchor vector toward goal state";
       priority := HIGH;
       anchor_requirements := [("Choice", 0.5)];
       anchor_effects := [("Fear", -0.1); ("Safety", 0.15)];
       cooldown := 60.0; energy_cost := 0.2; last_executed := 0.0 |});
   ("emergency_recalibrate",
    {| action_id := "emergency_recalibrate"; name := "Emergency Recalibration";
       description := "Force recalibration during chaos state";
       priority := CRITICAL;
       anchor_requirements := [("Choice", 0.2)];
       anchor_effects := [("Fear", -0.2); ("Safety", 0.2); ("Choice", 0.1)];
       cooldown := 300.0; energy_cost := 0.4; last_executed := 0.0 |})].

Section agent.
Context {Session : Type} {session_ops : AnchorSession Session} {clock : WallClock}.

Abbreviation Self := (AutonomousAgent Session).

(** [AutonomousAgent.__init__] *)
Definition new_agent (agent_id : string) (anchor_session : Session)
    (personality_seed : option string) : Clock Self :=
  t ← time_time;
  mret {| agent_id := agent_id; anchor_session := anchor_session;
          personality_seed := personality_seed;
          state := IDLE; energy := 1.0; autonomy_level := 0.5;
          decision_threshold := 0.6;
          available_actions := default_actions;
          action_history := []; learning_data := [];
          last_decision_time := t; decision_frequency := 10.0;
          is_running := false |}.

Definition set_state (s : AgentState) (self : Self) : Self :=
  {| agent_id := agent_id self; anchor_session := anchor_session self;
     personality_seed := personality_seed self;
     state := s; energy := energy self; autonomy_level := autonomy_level self;
     decision_threshold := decision_threshold self;
     available_actions := available_actions self;
     action_history := action_history self; learning_data := learning_data self;
     last_decision_time := last_decision_time self;
     decision_frequency := decision_frequency self;
     is_running := is_running self |}.

Definition set_energy (e : Q) (self : Self) : Self :=
  {| agent_id := agent_id self; anchor_session := anchor_session self;
     personality_seed := personality_seed self;
     state := state self; energy := e; autonomy_level := autonomy_level self;
     decision_threshold := decision_threshold self;
     available_actions := available_actions self;
     action_history := action_history self; learning_data := learning_data self;
     last_decision_time := last_decision_time self;
     decision_frequency := decision_frequency self;
     is_running := is_running self |}.

(** The three checks of [_can_execute_action], once the clock has been
    read. *)
Definition can_execute_at (self : Self) (action : AgentAction) (current_time : Q) : bool :=
  if Qltb (current_time - last_executed action) (cooldown action) then false
  else if Qltb (energy self) (energy_cost action) then false
  else
    let anchor_state := core (anchor_session self) in
    forallb (λ r : string * Q, negb (Qltb (default 0 (anchor_state !! r.1)) r.2))
            (anchor_requirements action).

(** [AutonomousAgent._can_execute_action] *)
Definition _can_execute_action (self : Self) (action : AgentAction) : Clock bool :=
  current_time ← time_time;
  mret (can_execute_at self action current_time).

(** [any(self._can_execute_action(action) for action in ...)]: stops at
    the first executable action. *)
Fixpoint any_can_execute (self : Self) (actions : list AgentAction) : Clock bool :=
  match actions with
  | [] => mret false
  | action :: rest =>
      b ← _can_execute_action self action;
      if b : bool then mret true else any_can_execute self rest
  end.

(** [AutonomousAgent._update_agent_state] *)
Definition _update_agent_state (self : Self) : Clock Self :=
  let anchor_state := export_view (anchor_session self) in
  if Qltb 0.8 (default 0 (chaos_proximity anchor_state)) then
    mret (set_state CRISIS self)
  else if Qltb 0.3 (default 0 (velocity_magnitude anchor_state)) then
    mret (set_state THINKING self)
  else
    b ← any_can_execute self (available_actions self).*2;
    if b : bool then mret (set_state ACTING self) else mret (set_state IDLE self).

(** [AutonomousAgent._regenerate_energy] *)
Definition _regenerate_energy (self : Self) : Self :=
  if Qltb (energy self) 1.0 then
    let regen_rate := if decide (state self = IDLE) then 0.05 else 0.02 in
    set_energy (py_min 1.0 (energy self + regen_rate)) self
  else self.

(** [AutonomousAgent._should_make_decision] *)
Definition _should_make_decision (self : Self) : Clock bool :=
  t ← time_time;
  let time_since_last := t - last_decision_time self in
  if decide (state self = CRISIS) then
    mret (Qltb (decision_frequency self * 0.3) time_since_last)
  else
    mret (Qltb (decision_frequency self) time_since_last).

(** The two abstract methods of [AutonomousAgent]. A decision reads the
    agent and the clock and may raise; an execution reads the agent and
    the action and may raise. *)
Class Personality := {
  decide_action : Self → Clock (PyError + option string);
  execute_action : Self → AgentAction → PyError + Result
}.

(** [d[key]] followed by [_can_execute_action]. *)
Definition can_execute_named (self : Self) (key : string) : Clock (PyError + bool) :=
  match od_get key (available_actions self) with
  | None => mret (inl (KeyError key))
  | Some action => b ← _can_execute_action self action; mret (inr b)
  end.

(** [if self._can_execute_action(self.available_actions[key]): return key],
    followed by the rest of the method. *)
Definition return_if_executable (self : Self) (key : string)
    (otherwise : Clock (PyError + option string)) : Clock (PyError + option string) :=
  b ← can_execute_named self key;
  match b with
  | inl e => mret (inl e)
  | inr true => mret (inr (Some key))
  | inr false => otherwise
  end.

(** [ScientistAgent] *)
Definition ScientistAgent : Personality :=
  {| decide_action := λ self,
       let anchor_state := export_view (anchor_session self) in
       let default_step := return_if_executable self "observe" (mret (inr None)) in
       let normal_step :=
         if decide (stability_trend anchor_state ≠ Some "improving")
         then return_if_executable self "reflect" default_step
         else default_step in
       let instability_step :=
         if Qltb 0.5 (default 0 (chaos_proximity anchor_state))
         then return_if_executable self "observe" normal_step
         else normal_step in
       if decide (state self = CRISIS)
       then return_if_executable self "emergency_recalibrate" instability_step
       else instability_step;
     execute_action := λ self action,
       if decide (action_id action = "observe") then
         inr [("observation", VStr "Collecting empirical data on anchor state patterns");
              ("hypothesis", VStr "Current instability may be due to external perturbations");
              ("confidence", VNum 0.7)]
       else if decide (action_id action = "reflect") then
         inr [("analysis", VStr "Reviewing recent anchor transitions for causal patterns");
              ("findings", VStr "Evidence suggests goal vector misalignment");
              ("recommendation", VStr "Consider recalibration protocol")]
       else if decide (action_id action = "stabilize") then
         inr [("method", VStr "Applied systematic stabilization protocol");
              ("effectiveness", VStr "Moderate improvement observed");
              ("next_steps", VStr "Continue monitoring for 5 cycles")]
       else
         inr [("status", VStr "action executed"); ("method", VStr "scientific approach")] |}.

(** [ArtistAgent] *)
Definition ArtistAgent : Personality :=
  {| decide_action := λ self,
       let anchor_state := export_view (anchor_session self) in
       let chaos := default 0 (chaos_proximity anchor_state) in
       if decide (state self = CRISIS) then
         if Qltb 0.9 chaos then mret (inr (Some "emergency_recalibrate"))
         else mret (inr (Some "observe"))
       else if Qltb 0.3 chaos && Qltb chaos 0.7 then mret (inr (Some "observe"))
       else if Qltb chaos 0.2 then mret (inr (Some "reflect"))
       else mret (inr (Some "observe"));
     execute_action := λ self action,
       if decide (action_id action = "observe") then
         inr [("inspiration", VStr "Finding creative patterns in anchor dynamics");
              ("vision", VStr "Chaos contains hidden beauty and meaning");
              ("expression", VStr "Translating instability into creative insight")]
       else if decide (action_id action = "reflect") then
         inr [("contemplation", VStr "Exploring emotional resonance of current state");
              ("insight", VStr "Balance between order and chaos breeds creativity");
              ("next_creation", VStr "Inspired to capture this moment's essence")]
       else
         inr [("creative_response", VStr "Channeling action through artistic lens")] |}.

Context {personality : Personality}.

(** The agent after the first three statements of the [try] block of
    [_execute_action_safely]: the action stored under [key] stamped with
    the reading [t1], the decision time set to the reading [t2], the
    energy cost deducted. Stamping mutates the action object held by
    [available_actions]. *)
Definition charged (self : Self) (key : string) (action : AgentAction) (t1 t2 : Q) : Self :=
  {| agent_id := agent_id self; anchor_session := anchor_session self;
     personality_seed := personality_seed self;
     state := state self;
     energy := energy self - energy_cost action;
     autonomy_level := autonomy_level self;
     decision_threshold := decision_threshold self;
     available_actions := od_alter (set_last_executed t1) key (available_actions self);
     action_history := action_history self; learning_data := learning_data self;
     last_decision_time := t2;
     decision_frequency := decision_frequency self;
     is_running := is_running self |}.

(** The dictionary built in the [except] branch. *)
Definition error_result (e : PyError) (action : AgentAction) : Result :=
  [("error", VStr (str_of_error e)); ("action", VStr (name action))].

(** [AutonomousAgent._execute_action_safely], for the action object
    stored under [key] in [available_actions]. *)
Definition _execute_action_safely (self : Self) (key : string) (action : AgentAction)
    : Clock (Result * Self) :=
  t1 ← time_time;
  t2 ← time_time;
  let self1 := charged self key action t1 t2 in
  match execute_action self1 (set_last_executed t1 action) with
  | inl e => mret (error_result e action, self1)
  | inr result =>
      let session2 := tick (anchor_session self1) (anchor_effects action) in
      t3 ← time_time;
      let entry := {| h_action := name action; h_timestamp := t3;
                      h_result := result;
                      anchor_state_before := core session2 |} in
      mret (result,
            {| agent_id := agent_id self1; anchor_session := session2;
               personality_seed := personality_seed self1;
               state := state self1; energy := energy self1;
               autonomy_level := autonomy_level self1;
               decision_threshold := decision_threshold self1;
               available_actions := available_actions self1;
               action_history := action_history self1 ++ [entry];
               learning_data := learning_data self1;
               last_decision_time := last_decision_time self1;
               decision_frequency := decision_frequency self1;
               is_running := is_running self1 |})
  end.

(** [AutonomousAgent._learn_from_action] *)
Definition _learn_from_action (self : Self) (action : AgentAction) (result : Result)
    : Clock Self :=
  let anchor_state_after := export_view (anchor_session self) in
  t ← time_time;
  let learning_entry :=
    {| l_action := name action; l_timestamp := t;
       result_success := bool_decide ("error" ∉ result.*1);
       chaos_before := bool_decide (0 < length (action_history self))%nat;
       chaos_after := Qltb 0.7 (default 0 (chaos_proximity anchor_state_after));
       stability_change := default "stable" (stability_trend anchor_state_after);
       agent_state := state_value (state self) |} in
  let data := learning_data self ++ [learning_entry] in
  let data := if bool_decide (100 < length data)%nat then py_slice_last 50 data else data in
  mret {| agent_id := agent_id self; anchor_session := anchor_session self;
          personality_seed := personality_seed self;
          state := state self; energy := energy self;
          autonomy_level := autonomy_level self;
          decision_threshold := decision_threshold self;
          available_actions := available_actions self;
          action_history := action_history self; learning_data := data;
          last_decision_time := last_decision_time self;
          decision_frequency := decision_frequency self;
          is_running := is_running self |}.

(** What one cycle did: it raised, it went through without executing,
    or it executed the action stored under [key] (the cycle prints the
    line [executed: {action.name}]). *)
Inductive Outcome :=
| Raised (e : PyError)
| Skipped
| Executed (key : string) (result : Result).

(** [AutonomousAgent._autonomous_cycle] *)
Definition _autonomous_cycle (self : Self) : Clock (Outcome * Self) :=
  self ← _update_agent_state self;
  let self := _regenerate_energy self in
  decide_now ← _should_make_decision self;
  if decide_now : bool then
    chosen ← decide_action self;
    match chosen with
    | inl e => mret (Raised e, self)
    | inr None => mret (Skipped, self)
    | inr (Some chosen_action_id) =>
        if decide (chosen_action_id = "") then mret (Skipped, self) else
        match od_get chosen_action_id (available_actions self) with
        | None => mret (Skipped, self)
        | Some action =>
            ok ← _can_execute_action self action;
            if ok : bool then
              '(result, self) ← _execute_action_safely self chosen_action_id action;
              self ← _learn_from_action self action result;
              mret (Executed chosen_action_id result, self)
            else mret (Skipped, self)
        end
    end
  else mret (Skipped, self).

(** [n] turns of the [while self.is_running] loop of
    [start_autonomous_loop]: an exception of the cycle is caught and the
    loop goes on. The outcomes are listed in order. *)
Fixpoint run_cycles (n : nat) (self : Self) : Clock (list Outcome * Self) :=
  match n with
  | O => mret ([], self)
  | S n' =>
      if is_running self then
        '(outcome, self) ← _autonomous_cycle self;
        '(outcomes, self) ← run_cycles n' self;
        mret (outcome :: outcomes, self)
      else mret ([], self)
  end.

(** [AutonomousAgent.start_autonomous_loop], cut after [n] turns. *)
Definition start_autonomous_loop (n : nat) (self : Self) : Clock (list Outcome * Self) :=
  run_cycles n
    {| agent_id := agent_id self; anchor_session := anchor_session self;
       personality_seed := personality_seed self;
       state := state self; energy := energy self;
       autonomy_level := autonomy_level self;
       decision_threshold := decision_threshold self;
       available_actions := available_actions self;
       action_history := action_history self; learning_data := learning_data self;
       last_decision_time := last_decision_time self;
       decision_frequency := decision_frequency self;
       is_running := true |}.

(** The stamps [last_executed] takes for the action stored under
    [key], one for each of [n] successive cycles that executes it. *)
Fixpoint execution_stamps (key : string) (n : nat) (self : Self) : Clock (list Q) :=
  match n with
  | O => mret []
  | S n' =>
      '(outcome, self) ← _autonomous_cycle self;
      stamps ← execution_stamps key n' self;
      match outcome with
      | Executed k _ =>
          if decide (k = key)
          then mret (default 0 (last_executed <$> od_get key (available_actions self))
                       :: stamps)
          else mret stamps
      | _ => mret stamps
      end
  end.

End agent.

Arguments Personality : clear implicits.

(** ** A session and a clock to run the agent on *)

(** Modelled from the spec: the state-vector capability of section 6,
    whose class is not part of the repository. [apply_deltas] adds each
    delta to its dimension and clamps the sum into [0,1]; the
    diagnostics are stored readings. *)
Record ExampleSession := mkSession {
  ex_core : gmap string Q;
  ex_view : View
}.

Definition clamp01 (x : Q) : Q :=
  if Qltb x 0 then 0 else if Qltb 1 x then 1 else x.

#[global] Instance example_session_ops : AnchorSession ExampleSession :=
  {| core := ex_core;
     export_view := ex_view;
     tick := λ s effects,
       {| ex_core :=
            foldl (λ c (e : string * Q), <[e.1 := clamp01 (default 0 (c !! e.1) + e.2)]> c)
                  (ex_core s) effects;
          ex_view := ex_view s |} |}.

Definition calm_session : ExampleSession :=
  {| ex_core := list_to_map [("Fear", 0.5); ("Safety", 0.5); ("Time", 0.5); ("Choice", 0.5)];
     ex_view := {| chaos_proximity := Some 0.1; velocity_magnitude := Some 0.0;
                   stability_trend := Some "stable" |} |}.

Definition chaotic_session : ExampleSession :=
  {| ex_core := ex_core calm_session;
     ex_view := {| chaos_proximity := Some 0.85; velocity_magnitude := Some 0.5;
                   stability_trend := Some "declining" |} |}.

(** A clock whose successive readings are 100 seconds apart. *)
Definition slow_clock : WallClock := λ n, 1000 + 100 * inject_Z (Z.of_nat n).

(** An agent that was created long ago. *)
Definition example_agent (session : ExampleSession) : AutonomousAgent ExampleSession :=
  {| agent_id := "scientist_01"; anchor_session := session;
     personality_seed := Some "scientist";
     state := IDLE; energy := 1.0; autonomy_level := 0.5;
     decision_threshold := 0.6;
     available_actions := default_actions;
     action_history := []; learning_data := [];
     last_decision_time := 0; decision_frequency := 10.0;
     is_running := true |}.

(** A clock read every 5 seconds. *)
Definition fine_clock : WallClock := λ n, 1000 + 5 * inject_Z (Z.of_nat n).

Definition example_scientist : Personality ExampleSession :=
  @ScientistAgent ExampleSession example_session_ops slow_clock.

Definition observe_action : AgentAction :=
  default (mkAction "" "" "" LOW [] [] 0 0 0) (od_get "observe" default_actions).

Definition stabilize_action : AgentAction :=
  default (mkAction "" "" "" LOW [] [] 0 0 0) (od_get "stabilize" default_actions).

(** A personality that proposes "stabilize" at every cycle and leaves
    the check to the cycle. *)
Definition StabilizingAgent : Personality ExampleSession :=
  {| decide_action := λ self, mret (inr (Some "stabilize"));
     execute_action := execute_action (Personality := example_scientist) |}.

(** A personality whose effect generation always raises. *)
Definition FailingAgent : Personality ExampleSession :=
  {| decide_action := λ self, mret (inr (Some "observe"));
     execute_action := λ self action, inl (ValueError "effect generation failed") |}.

(** ** The agent manager *)

Section manager.
Context {Session : Type}.

(** [AutonomousAgent.stop_autonomous_loop] *)
Definition stop_autonomous_loop (self : AutonomousAgent Session) : AutonomousAgent Session :=
  {| agent_id := agent_id self; anchor_session := anchor_session self;
     personality_seed := personality_seed self;
     state := state self; energy := energy self;
     autonomy_level := autonomy_level self;
     decision_threshold := decision_threshold self;
     available_actions := available_actions self;
     action_history := action_history self; learning_data := learning_data self;
     last_decision_time := last_decision_time self;
     decision_frequency := decision_frequency self;
     is_running := false |}.

(** [AutonomousAgent.get_agent_status] *)
Record AgentStatus := mkStatus {
  status_agent_id : string;
  status_state : string;
  status_energy : Q;
  status_autonomy_level : Q;
  status_anchor_state : gmap string Q;
  status_available_actions : nat;
  status_actions_taken : nat;
  status_last_action : option HistoryEntry;
  status_is_running : bool
}.

Definition get_agent_status {session_ops : AnchorSession Session}
    (self : AutonomousAgent Session) : AgentStatus :=
  {| status_agent_id := agent_id self;
     status_state := state_value (state self);
     status_energy := energy self;
     status_autonomy_level := autonomy_level self;
     status_anchor_state := core (anchor_session self);
     status_available_actions := length (available_actions self);
     status_actions_taken := length (action_history self);
     status_last_action := last (action_history self);
     status_is_running := is_running self |}.

(** An agent object: an instance of one of the subclasses. *)
Record ManagedAgent := mkManaged {
  managed_personality : Personality Session;
  managed_agent : AutonomousAgent Session
}.

Record AgentManager := mkManager {
  agents : list (string * ManagedAgent);
  manager_is_running : bool
}.

(** [AgentManager.__init__] *)
Definition new_manager : AgentManager :=
  {| agents := []; manager_is_running := false |}.

(** [AgentManager.add_agent] *)
Definition add_agent (agent : ManagedAgent) (self : AgentManager) : AgentManager :=
  {| agents := od_set (agent_id (managed_agent agent)) agent (agents self);
     manager_is_running := manager_is_running self |}.

(** [AgentManager.remove_agent]; the second component is the agent
    object taken out, its loop flag cleared. *)
Definition remove_agent (agent_id : string) (self : AgentManager)
    : AgentManager * option ManagedAgent :=
  match od_get agent_id (agents self) with
  | Some agent =>
      ({| agents := od_del agent_id (agents self);
          manager_is_running := manager_is_running self |},
       Some {| managed_personality := managed_personality agent;
               managed_agent := stop_autonomous_loop (managed_agent agent) |})
  | None => (self, None)
  end.

(** [AgentManager.stop_all_agents] *)
Definition stop_all_agents (self : AgentManager) : AgentManager :=
  {| agents :=
       (λ e : string * ManagedAgent,
          (e.1, {| managed_personality := managed_personality e.2;
                   managed_agent := stop_autonomous_loop (managed_agent e.2) |}))
         <$> agents self;
     manager_is_running := false |}.

(** [AgentManager.get_system_status] *)
Definition get_system_status {session_ops : AnchorSession Session}
    (self : AgentManager) : bool * nat * list (string * AgentStatus) :=
  (manager_is_running self, length (agents self),
   (λ e : string * ManagedAgent, (e.1, get_agent_status (managed_agent e.2)))
     <$> agents self).

End manager.

Arguments ManagedAgent : clear implicits.
Arguments AgentManager : clear implicits.

End Agent.

(** * Session persistence ([main_py_persistence_fix.py],
      [corrected_anchorlab_main.py]) *)
Module Persistence.

(** What a Redis key holds. [Number t] is what [set(key, time.time())]
    writes: [get] returns its text, which [float()] parses back to [t].
    [Text s] is the text of a JSON document, as written by
    [set(key, json.dumps(session.export_state()))]; the dump of a state
    is a JSON object, which [float()] rejects. *)
Inductive Value :=
| Text (s : string)
| Number (t : Q).

Abbreviation Redis := (gmap string Value).

(** [s.split(":")]: the parts between the colons, never an empty list. *)
Fixpoint split_colon (s : string) : list string :=
  match s with
  | EmptyString => [EmptyString]
  | String c rest =>
      if decide (c = ":"%char) then EmptyString :: split_colon rest
      else match split_colon rest with
           | part :: parts => String c part :: parts
           | [] => [String c EmptyString]
           end
  end.

(** [key.split(":")[-1]] *)
Definition last_component (key : string) : string :=
  default "" (last (split_colon key)).

(** [float(timestamp)] *)
Definition py_float (timestamp : Value) : PyError + Q :=
  match timestamp with
  | Number t => inr t
  | Text s => inl (ValueError "could not convert string to float")
  end.

Definition CLEANUP_AFTER_DAYS : Q := 90.

(** The reply of [keys(prefix + "*")] on a database: the keys that start
    with the prefix, each once, in an order of the server's choosing. *)
Definition keys_reply (prefix : string) (db : Redis) (reply : list string) : Prop :=
  NoDup reply ∧
  ∀ key, key ∈ reply ↔ String.prefix prefix key = true ∧ is_Some (db !! key).

(** The key holds an access stamp that lies before [cutoff_time]. *)
Definition stamp_before (cutoff_time : Q) (db : Redis) (key : string) : bool :=
  match db !! key with
  | Some (Number t) => Qltb t cutoff_time
  | _ => false
  end.

Section keyspace.

(** The prefix of the keys that hold session states and the prefix of
    the keys that hold access stamps: ["anchor:"] and
    ["anchor:last_accessed:"] in [main_py_persistence_fix.py],
    ["anchorlab:session:"] and ["anchorlab:last_accessed:"] in
    [corrected_anchorlab_main.py]. *)
Variables state_prefix access_prefix : string.

(** [_update_last_accessed] at clock reading [now]. *)
Definition _update_last_accessed (now : Q) (sid : string) (db : Redis) : Redis :=
  <[access_prefix +:+ sid := Number now]> db.

(** [_save_session]; [dumped] is [json.dumps(session.export_state())]. *)
Definition _save_session (now : Q) (sid : string) (dumped : string) (db : Redis) : Redis :=
  _update_last_accessed now sid (<[state_prefix +:+ sid := Text dumped]> db).

(** [_get_session]. [rebuild] makes the session from what was cached:
    [import_state(json.loads(cached))] on a fresh [AnchorSession] when
    the key holds a non-empty text, the bootstrap of a fresh session
    (from [None]) when the key is missing or holds the empty text.
    Either may raise, and the access stamp is written only after it
    returned. *)
Definition _get_session {Session : Type} (rebuild : option Value → PyError + Session)
    (now : Q) (sid : string) (db : Redis) : (PyError + Session) * Redis :=
  let cached :=
    match db !! (state_prefix +:+ sid) with
    | Some (Text "") => None
    | cached => cached
    end in
  match rebuild cached with
  | inl e => (inl e, db)
  | inr sess => (inr sess, _update_last_accessed now sid db)
  end.

(** One turn of the loop of [cleanup_abandoned_sessions]. *)
Definition cleanup_step (cutoff_time : Q) (acc : Redis * nat) (key : string)
    : PyError + (Redis * nat) :=
  let '(db, cleaned_count) := acc in
  match db !! key with
  | None => inr acc
  | Some (Text "") => inr acc
  | Some timestamp =>
      t ← py_float timestamp;
      if Qltb t cutoff_time then
        let sid := last_component key in
        inr (delete key (delete (state_prefix +:+ sid) db), S cleaned_count)
      else inr acc
  end.

Fixpoint cleanup_loop (cutoff_time : Q) (acc : Redis * nat) (keys : list string)
    : PyError + (Redis * nat) :=
  match keys with
  | [] => inr acc
  | key :: rest => acc ← cleanup_step cutoff_time acc key; cleanup_loop cutoff_time acc rest
  end.

(** [cleanup_abandoned_sessions] at clock reading [now];
    [last_accessed_keys] is the reply of
    [keys(access_prefix + "*")]. The result is the database afterwards
    and [cleaned_count]. *)
Definition cleanup_abandoned_sessions (now : Q) (last_accessed_keys : list string)
    (db : Redis) : PyError + (Redis * nat) :=
  let cutoff_time := now - CLEANUP_AFTER_DAYS * 24 * 60 * 60 in
  cleanup_loop cutoff_time (db, 0%nat) last_accessed_keys.

(** What a cleanup with the given cutoff deletes: the keys among [keys]
    whose stamp is older and, for each of them, the state key named by
    its last component. *)
Definition removed (cutoff_time : Q) (db : Redis) (keys : list string) (key : string) : Prop :=
  Exists (λ k, stamp_before cutoff_time db k = true ∧
               (key = k ∨ key = state_prefix +:+ last_component k)) keys.

End keyspace.

(** The key holds an access stamp older than the cutoff of a cleanup at
    [now]. *)
Definition abandoned (now : Q) (db : Redis) (key : string) : bool :=
  stamp_before (now - CLEANUP_AFTER_DAYS * 24 * 60 * 60) db key.

(** A session id without a colon. *)
Definition colon_free (sid : string) : Prop := MemorySession.contains ":" sid = false.

(** A database whose access stamps were all written by
    [_update_last_accessed] for session ids without a colon. *)
Definition plain_ids (access_prefix : string) (db : Redis) : Prop :=
  ∀ key, String.prefix access_prefix key = true → is_Some (db !! key) →
    (∃ t, db !! key = Some (Number t)) ∧
    ∃ sid, key = access_prefix +:+ sid ∧ colon_free sid.

(** Two sessions of [main_py_persistence_fix.py], one used 100 days
    before [later], one 10 days before. *)
Definition later : Q := 1700000000.

Definition two_sessions : Redis :=
  _save_session "anchor:" "anchor:last_accessed:" (later - 10 * 86400) "bob" "{}"
    (_save_session "anchor:" "anchor:last_accessed:" (later - 100 * 86400) "alice" "{}" ∅).

(** The session ["team:bob"], abandoned, beside the session ["bob"],
    used 10 days before [later]. *)
Definition colon_sessions : Redis :=
  _save_session "anchor:" "anchor:last_accessed:" (later - 10 * 86400) "bob" "{}"
    (_save_session "anchor:" "anchor:last_accessed:" (later - 100 * 86400) "team:bob" "{}" ∅).

End Persistence.

(** * Personality generation ([corrected_anchorlab_main.py],
      [AnchorLab_deployment.py]) *)
Module Generation.

(** The anchor vector [generate_personality] gives the seed:
    [session.core] as the session class made it when [big5_scores] is
    empty, the four mapped facets otherwise. *)
Definition generated_core (big5_scores : gmap string Q) (session_core : gmap string Q)
    : gmap string Q :=
  if decide (big5_scores = ∅) then session_core
  else
    let fear_component := 1.0 - default 0.5 (big5_scores !! "neuroticism_volatility") in
    let safety_component := default 0.5 (big5_scores !! "agreeableness_compassion") in
    let time_component := default 0.5 (big5_scores !! "conscientiousness_industriousness") in
    let choice_component := default 0.5 (big5_scores !! "openness_intellect") in
    {[ "Fear" := fear_component; "Safety" := safety_component;
       "Time" := time_component; "Choice" := choice_component ]}.

End Generation.

(** * An agent without actions *)
Module Unequipped.
Import Agent.

(** [example_agent] after [available_actions.clear()]. *)
Definition unequipped_agent (session : ExampleSession) : AutonomousAgent ExampleSession :=
  {| agent_id := "scientist_01"; anchor_session := session;
     personality_seed := Some "scientist";
     state := IDLE; energy := 1.0; autonomy_level := 0.5;
     decision_threshold := 0.6;
     available_actions := [];
     action_history := []; learning_data := [];
     last_decision_time := 0; decision_frequency := 10.0;
     is_running := true |}.

End Unequipped.

(** * Part II: properties *)

(** ** Comparisons *)

Lemma Qltb_true a b : Qltb a b = true ↔ a < b.
Proof.
  unfold Qltb. destruct (Qlt_le_dec a b) as [H|H]; split; intros H'; try done.
  exfalso. apply (Qlt_not_le _ _ H' H).
Qed.

Lemma Qltb_false a b : Qltb a b = false ↔ b <= a.
Proof.
  unfold Qltb. destruct (Qlt_le_dec a b) as [H|H]; split; intros H'; try done.
  exfalso. apply (Qlt_not_le _ _ H H').
Qed.

Lemma py_min_spec a b : py_min a b == Qmin a b.
Proof.
  unfold py_min. destruct (Qltb b a) eqn:E.
  - apply Qltb_true in E. symmetry. apply Q.min_r. by apply Qlt_le_weak.
  - apply Qltb_false in E. symmetry. by apply Q.min_l.
Qed.

(** ** Insertion-ordered dictionaries *)

Section odict_facts.
Context {K V : Type} `{EqDecision K}.
Implicit Types (k : K) (v : V) (d : list (K * V)).

Lemma od_get_Some k v d : od_get k d = Some v → (k, v) ∈ d.
Proof.
  induction d as [|[k' v'] d IH]; simpl; [done|].
  destruct (decide (k = k')) as [->|Hne].
  - intros [= ->]. left.
  - intros H. right. auto.
Qed.

Lemma od_get_None k d : od_get k d = None ↔ k ∉ d.*1.
Proof.
  induction d as [|[k' v'] d IH]; simpl.
  - split; [intros _; apply not_elem_of_nil | done].
  - destruct (decide (k = k')) as [->|Hne].
    + split; [done|]. intros H. exfalso. apply H. left.
    + rewrite IH, not_elem_of_cons. tauto.
Qed.

Lemma od_get_NoDup k v d : NoDup d.*1 → (k, v) ∈ d → od_get k d = Some v.
Proof.
  induction d as [|[k' v'] d IH]; simpl.
  - intros _ H. by apply elem_of_nil in H.
  - rewrite NoDup_cons. intros [Hk Hd] Hin.
    apply elem_of_cons in Hin as [[= <- <-]|Hin].
    + by rewrite decide_True.
    + destruct (decide (k = k')) as [->|Hne]; [|auto].
      exfalso. apply Hk. apply list_elem_of_fmap. by exists (k', v).
Qed.

Lemma od_set_keys k v d :
  (od_set k v d).*1 = if decide (k ∈ d.*1) then d.*1 else d.*1 ++ [k].
Proof.
  induction d as [|[k' v'] d IH].
  - simpl. destruct (decide (k ∈ [])) as [H|H]; [|done].
    by apply elem_of_nil in H.
  - cbn [od_set]. destruct (decide (k = k')) as [->|Hne].
    + destruct (decide (k' ∈ ((k', v') :: d).*1)) as [H|H]; [done|].
      exfalso. apply H. left.
    + rewrite fmap_cons, IH. cbn [fst fmap list_fmap].
      destruct (decide (k ∈ d.*1)) as [Hin|Hnin];
        destruct (decide (k ∈ k' :: d.*1)) as [Hin'|Hnin']; try done.
      * exfalso. apply Hnin'. by right.
      * apply elem_of_cons in Hin' as [?|?]; done.
Qed.

Lemma od_set_NoDup k v d : NoDup d.*1 → NoDup (od_set k v d).*1.
Proof.
  intros Hd. rewrite od_set_keys. case_decide; [done|].
  apply NoDup_app. split_and!; [done | | apply NoDup_singleton].
  intros x Hx Hx'. apply list_elem_of_singleton in Hx'. by subst.
Qed.

Lemma od_get_set k v d : od_get k (od_set k v d) = Some v.
Proof.
  induction d as [|[k' v'] d IH]; simpl.
  - by rewrite decide_True.
  - destruct (decide (k = k')) as [->|Hne]; simpl.
    + by rewrite decide_True.
    + by rewrite decide_False.
Qed.

Lemma od_get_set_ne k k' v d : k ≠ k' → od_get k' (od_set k v d) = od_get k' d.
Proof.
  intros Hne. induction d as [|[k'' v''] d IH]; simpl.
  - rewrite decide_False; [done | congruence].
  - destruct (decide (k = k'')) as [->|Hne']; simpl.
    + rewrite !decide_False; [done | congruence | congruence].
    + by rewrite IH.
Qed.





Lemma od_alter_keys f k d : (od_alter f k d).*1 = d.*1.
Proof.
  induction d as [|[k' v'] d IH]; simpl; [done|].
  destruct (decide (k = k')); simpl; [done | by f_equal].
Qed.

Lemma od_get_alter f k k' d :
  od_get k' (od_alter f k d) =
  if decide (k = k') then f <$> od_get k' d else od_get k' d.
Proof.
  induction d as [|[k'' v''] d IH]; simpl.
  - by case_decide.
  - destruct (decide (k = k'')) as [->|Hne]; simpl.
    + destruct (decide (k' = k'')) as [->|Hne'].
      * by rewrite decide_True.
      * rewrite decide_False; [done | congruence].
    + destruct (decide (k' = k'')) as [->|Hne'].
      * by rewrite decide_False.
      * apply IH.
Qed.

End odict_facts.

(** ** Powers of a rate *)

Lemma Qpower_inv_opp (a : Q) (n : Z) : a ^ n == (/ a) ^ (- n).
Proof.
  rewrite Qpower_opp, Qinv_power, Qinv_involutive. reflexivity.
Qed.

Lemma Qpower_antitone (a : Q) (n m : Z) :
  0 < a → a <= 1 → (n ≤ m)%Z → a ^ m <= a ^ n.
Proof.
  intros Ha Ha1 Hnm.
  rewrite (Qpower_inv_opp a m), (Qpower_inv_opp a n).
  apply Qpower_le_compat_l; [lia|].
  apply Qle_shift_inv_l; [done | lra].
Qed.

(** * The memory store *)
Module MemoryProofs.
Import Memory.

(** ** Memory nodes *)

(** With a decay rate in (0,1] and a non-negative importance, strength
    never grows with the number of days since the last access. *)
Lemma strength_nonincreasing (self : MemoryNode) (d1 d2 : Z) :
  0 <= importance self → 0 < decay_rate self → decay_rate self <= 1 →
  (d1 ≤ d2)%Z →
  strength_after self d2 <= strength_after self d1.
Proof.
  intros Hi H0 H1 Hd. unfold strength_after.
  rewrite (Qmult_comm _ (_ ^ d2)), (Qmult_comm _ (_ ^ d1)).
  apply Qmult_le_compat_r; [|done]. by apply Qpower_antitone.
Qed.

(** With a decay rate above 1 and a positive importance, strength
    grows with the number of days since the last access. *)
Lemma strength_grows_when_rate_above_1 (self : MemoryNode) (d1 d2 : Z) :
  0 < importance self → 1 < decay_rate self → (d1 < d2)%Z →
  strength_after self d1 < strength_after self d2.
Proof.
  intros Hi H1 Hd. unfold strength_after.
  rewrite (Qmult_comm _ (_ ^ d1)), (Qmult_comm _ (_ ^ d2)).
  apply Qmult_lt_compat_r; [done|]. by apply Qpower_lt_compat_l.
Qed.

(** C1 (evaluation at the failing input). The crisis memory the system
    itself stores, with importance 0.9, gets the decay rate
    0.999 + 0.9 * 0.05 = 1.044 > 1; with no access in between its
    strength is 0.9 on the day of storage and 0.9396 one day later, so
    strength grows with the days since the last access. *)
Theorem crisis_memory_strength_grows :
  let t0 := 1700000000000000%Z in
  let node := crisis_pattern t0 "help" in
  decay_rate node == 1.044 ∧
  timedelta_days t0 (last_accessed node) = 0%Z ∧
  timedelta_days (t0 + one_day) (last_accessed node) = 1%Z ∧
  get_current_strength t0 node == 0.9 ∧
  get_current_strength (t0 + one_day) node == 0.9396 ∧
  ¬ (get_current_strength (t0 + one_day) node <= get_current_strength t0 node).
Proof. vm_compute. split_and!; done. Qed.

Lemma access_all_snoc (times : list Z) (now : Z) (self : MemoryNode) :
  access_all (times ++ [now]) self = access now (access_all times self).
Proof. unfold access_all. by rewrite foldl_app. Qed.

Lemma access_all_frame (times : list Z) (self : MemoryNode) :
  id (access_all times self) = id self ∧
  content (access_all times self) = content self ∧
  memory_type (access_all times self) = memory_type self ∧
  created_at (access_all times self) = created_at self ∧
  anchor_context (access_all times self) = anchor_context self ∧
  decay_rate (access_all times self) = decay_rate self.
Proof.
  induction times as [|now times IH] using rev_ind; [done|].
  rewrite access_all_snoc. simpl. exact IH.
Qed.

(** C10. [access()] changes only the last-accessed instant, the access
    count and the importance; id, content, type, creation instant,
    anchor context and decay rate are kept. After any number of accesses
    the decay rate is still the one computed at creation from the
    original type and importance, and it is the rate later strength
    computations use, although an importance below 1 has been raised. *)
Theorem access_keeps_creation_decay_rate :
  (∀ (now : Z) (self : MemoryNode),
     let self' := access now self in
     id self' = id self ∧ content self' = content self ∧
     memory_type self' = memory_type self ∧ created_at self' = created_at self ∧
     anchor_context self' = anchor_context self ∧
     decay_rate self' = decay_rate self ∧
     last_accessed self' = now ∧
     access_count self' = (access_count self + 1)%Z ∧
     importance self' == Qmin 1 (importance self + 0.01) ∧
     (importance self < 1 → importance self < importance self')) ∧
  (∀ (created : Z) content memory_type importance ctx (times : list Z) (later : Z),
     let node := access_all times (__init__ created content memory_type importance ctx) in
     decay_rate node = _calculate_decay_rate memory_type importance ∧
     get_current_strength later node =
       Memory.importance node *
       _calculate_decay_rate memory_type importance
         ^ timedelta_days later (last_accessed node)).
Proof.
  split.
  - intros now self. simpl. split_and!; try done.
    + unfold py_min.
      destruct (Q.min_spec 1 (importance self + 0.01)) as [[? ->]|[? ->]];
        destruct (Qltb _ _) eqn:E; try done.
      * apply Qltb_true in E. lra.
      * apply Qltb_false in E. lra.
    + intros H. unfold py_min. destruct (Qltb _ _) eqn:E; lra.
  - intros created content memory_type importance ctx times later node.
    destruct (access_all_frame times
                (__init__ created content memory_type importance ctx))
      as (_ & _ & _ & _ & _ & Hrate).
    fold node in Hrate. simpl in Hrate. split; [done|].
    unfold get_current_strength, strength_after. by rewrite Hrate.
Qed.

(** An importance below 1 is raised by an access, the decay rate is
    not: a node stored with importance 0.5 and accessed once. *)
Lemma access_keeps_creation_decay_rate_witness :
  let node := __init__ 0 "note" "interaction" 0.5 None in
  importance node < importance (access one_day node) ∧
  decay_rate (access one_day node) = _calculate_decay_rate "interaction" 0.5.
Proof.
  destruct access_keeps_creation_decay_rate as [Hstep Hall].
  split.
  - apply (Hstep one_day (__init__ 0 "note" "interaction" 0.5 None)).
    vm_compute. done.
  - apply (Hall 0%Z "note" "interaction" 0.5 None [one_day] 0%Z).
Defined.

(** ** Retrieval *)

Lemma insert_desc_perm {A} (c : Q * A) l : insert_desc c l ≡ₚ c :: l.
Proof.
  induction l as [|d l IH]; simpl; [done|].
  destruct (Qltb c.1 d.1); [|done].
  rewrite IH. apply Permutation_swap.
Qed.

Lemma sort_desc_perm {A} (l : list (Q * A)) : sort_desc l ≡ₚ l.
Proof.
  induction l as [|c l IH]; simpl; [done|].
  unfold sort_desc in *. simpl. by rewrite insert_desc_perm, IH.
Qed.

Lemma insert_desc_sorted {A} (c : Q * A) l :
  StronglySorted desc l → StronglySorted desc (insert_desc c l).
Proof.
  induction l as [|d l IH]; simpl; intros Hs.
  - repeat constructor.
  - apply StronglySorted_cons in Hs as [Hd Hl].
    destruct (Qltb c.1 d.1) eqn:E.
    + apply Qltb_true in E. apply StronglySorted_cons. split; [|auto].
      rewrite insert_desc_perm. constructor; [|done].
      unfold desc. by apply Qlt_le_weak.
    + apply Qltb_false in E. apply StronglySorted_cons. split.
      * constructor; [done|]. eapply Forall_impl; [exact Hd|].
        intros x Hx. unfold desc in *. by apply (Qle_trans _ d.1).
      * by apply StronglySorted_cons.
Qed.

Lemma sort_desc_sorted {A} (l : list (Q * A)) : StronglySorted desc (sort_desc l).
Proof.
  induction l as [|c l IH]; [constructor|].
  unfold sort_desc in *. simpl. by apply insert_desc_sorted.
Qed.

Lemma py_slice_to_nonneg {A} (n : Z) (xs : list A) :
  (0 ≤ n)%Z → py_slice_to n xs = take (Z.to_nat n) xs.
Proof. intros Hn. unfold py_slice_to. by rewrite (proj2 (Z.leb_le 0 n) Hn). Qed.

Lemma candidates_elem now query_type ctx self score key memory :
  (score, (key, memory)) ∈ candidates now query_type ctx self ↔
  (key, memory) ∈ memories self ∧
  candidate_score now (cleanup_threshold self) query_type ctx memory = Some score.
Proof.
  unfold candidates. rewrite list_elem_of_omap. split.
  - intros ([k m] & Hin & Hf). simpl in Hf.
    destruct (candidate_score _ _ _ _ m) as [sc|] eqn:E; [|done].
    simpl in Hf. injection Hf as <- <- <-. done.
  - intros [Hin Hsc]. exists (key, memory). split; [done|]. simpl. by rewrite Hsc.
Qed.

Lemma candidates_keys now query_type ctx self :
  (candidates now query_type ctx self).*2.*1 `sublist_of` (memories self).*1.
Proof.
  unfold candidates. induction (memories self) as [|[k m] l IH]; simpl; [done|].
  destruct (candidate_score _ _ _ _ m); simpl.
  - by constructor.
  - by constructor.
Qed.


Lemma foldl_Qplus_proper (f g : string → Q) (keys : list string) (a b : Q) :
  a == b → (∀ key, f key == g key) →
  foldl Qplus a (f <$> keys) == foldl Qplus b (g <$> keys).
Proof.
  revert a b. induction keys as [|k keys IH]; intros a b Hab Hfg; simpl; [done|].
  apply IH; [|done]. by rewrite Hab, (Hfg k).
Qed.

(** The guards of the code add nothing to the mean over the shared
    dimensions. *)
Lemma similarity_guarded c1 c2 :
  _calculate_anchor_similarity c1 c2 == mean_similarity c1 c2.
Proof.
  unfold _calculate_anchor_similarity, mean_similarity.
  destruct (decide (c1 = ∅ ∨ c2 = ∅)) as [[->| ->]|Hne].
  - by rewrite dom_empty_L, (left_absorb_L ∅ (∩)), elements_empty.
  - by rewrite dom_empty_L, (right_absorb_L ∅ (∩)), elements_empty.
  - destruct (elements _) as [|k keys]; [done|].
    rewrite length_fmap. apply Qmult_comp; [|done].
    unfold py_sum. apply foldl_Qplus_proper; [done|].
    intros key. assert (1.0 == 1) as -> by done. done.
Qed.

Lemma candidate_score_spec now threshold query_type ctx memory score :
  candidate_score now threshold query_type ctx memory = Some score →
  threshold <= get_current_strength now memory ∧
  score == relevance now query_type ctx memory.
Proof.
  unfold candidate_score, relevance, type_bonus.
  destruct (Qltb _ threshold) eqn:E; [done|]. apply Qltb_false in E.
  intros [= <-]. split; [done|].
  assert (Hsim : ∀ base,
    match ctx with
    | Some c =>
        if decide (c ≠ ∅ ∧ anchor_context memory ≠ ∅)
        then base + _calculate_anchor_similarity c (anchor_context memory) * 0.3
        else base
    | None => base
    end == base + 0.3 * mean_similarity (default ∅ ctx) (anchor_context memory)).
  { intros base. destruct ctx as [c|]; simpl.
    - destruct (decide _) as [_|Hn].
      + rewrite similarity_guarded. lra.
      + rewrite <- similarity_guarded. unfold _calculate_anchor_similarity.
        destruct (decide (c = ∅ ∨ anchor_context memory = ∅)) as [_|Hn'].
        * lra.
        * exfalso. apply Hn. split; intros ?; apply Hn'; [by left | by right].
    - unfold mean_similarity.
      rewrite dom_empty_L, (left_absorb_L ∅ (∩)), elements_empty. lra. }
  rewrite Hsim. 
  destruct query_type as [qt|]; [destruct (decide _)|]; lra.
Qed.

Lemma reinforce_keys now (selected : list (Q * (string * MemoryNode))) ms :
  (foldl (λ ms c, od_alter (access now) c.2.1 ms) ms selected).*1 = ms.*1.
Proof.
  revert ms. induction selected as [|c selected IH]; intros ms; simpl; [done|].
  by rewrite IH, od_alter_keys.
Qed.

Lemma reinforce_get now (selected : list (Q * (string * MemoryNode))) ms key :
  NoDup selected.*2.*1 →
  od_get key (foldl (λ ms c, od_alter (access now) c.2.1 ms) ms selected) =
  if decide (key ∈ selected.*2.*1) then access now <$> od_get key ms else od_get key ms.
Proof.
  revert ms. induction selected as [|c selected IH]; intros ms Hnd.
  - cbn [foldl fmap list_fmap]. destruct (decide (key ∈ [])) as [H|_]; [|done].
    by apply elem_of_nil in H.
  - rewrite !fmap_cons in *. apply NoDup_cons in Hnd as [Hc Hnd].
    cbn [foldl]. rewrite IH by done. rewrite od_get_alter.
    destruct (decide (c.2.1 = key)) as [<-|Hne].
    + destruct (decide (c.2.1 ∈ selected.*2.*1)); [done|].
      destruct (decide (c.2.1 ∈ c.2.1 :: selected.*2.*1)) as [_|H]; [done|].
      exfalso. apply H. left.
    + destruct (decide (key ∈ selected.*2.*1)) as [Hin|Hnin];
        destruct (decide (key ∈ c.2.1 :: selected.*2.*1)) as [Hin'|Hnin']; try done.
      * exfalso. apply Hnin'. by right.
      * apply elem_of_cons in Hin' as [?|?]; congruence.
Qed.

(** C2 (amended). On a store with distinct keys and for a limit that is
    not negative, [retrieve_memories] returns, for a duplicate-free list
    of keys of the store, the node under each key after [access()]:
    each node had a strength of at least the threshold before the call,
    and its score is that prior strength, plus 0.2 when a non-empty
    query type equals its type, plus 0.3 times the mean over the shared
    dimensions of 1 - |a - b| (0 without shared dimensions). The scores
    descend, there are at most [limit] entries, an eligible memory is
    left out only when [limit] entries score at least as much, and the
    store afterwards is the store before with exactly the returned
    keys reinforced. *)
Theorem retrieve_ranks_by_prior_strength now query_type ctx (limit : Z) self :
  NoDup (memories self).*1 → (0 ≤ limit)%Z →
  let results := (retrieve_memories now query_type ctx limit self).1 in
  let self' := (retrieve_memories now query_type ctx limit self).2 in
  ∃ keys : list string,
    NoDup keys ∧
    Forall2 (λ key r, ∃ memory,
               od_get key (memories self) = Some memory ∧
               cleanup_threshold self <= get_current_strength now memory ∧
               relevance_score r == relevance now query_type ctx memory ∧
               node r = access now memory) keys results ∧
    StronglySorted (λ r1 r2, relevance_score r2 <= relevance_score r1) results ∧
    (Z.of_nat (length results) ≤ limit)%Z ∧
    (∀ key memory,
       od_get key (memories self) = Some memory → key ∉ keys →
       cleanup_threshold self <= get_current_strength now memory →
       Z.of_nat (length results) = limit ∧
       Forall (λ r, relevance now query_type ctx memory <= relevance_score r) results) ∧
    (memories self').*1 = (memories self).*1 ∧
    (∀ key, od_get key (memories self') =
            if decide (key ∈ keys) then access now <$> od_get key (memories self)
            else od_get key (memories self)).
Proof.
  intros Hnd Hlimit results self'. subst results self'.
  unfold retrieve_memories. simpl.
  rewrite py_slice_to_nonneg by done.
  set (cands := candidates now query_type ctx self).
  set (sorted := sort_desc cands).
  set (selected := take (Z.to_nat limit) sorted).
  assert (Hperm : sorted ≡ₚ cands) by apply sort_desc_perm.
  assert (Hsorted : StronglySorted desc sorted) by apply sort_desc_sorted.
  assert (Hsplit : sorted = selected ++ drop (Z.to_nat limit) sorted).
  { subst selected. by rewrite take_drop. }
  assert (Hcand : ∀ c, c ∈ sorted →
            (c.2.1, c.2.2) ∈ memories self ∧
            candidate_score now (cleanup_threshold self) query_type ctx c.2.2 = Some c.1).
  { intros [sc [k m]] Hc. rewrite Hperm in Hc. by apply candidates_elem in Hc. }
  assert (Hkeys : NoDup sorted.*2.*1).
  { rewrite Hperm. exact (sublist_NoDup _ _ Hnd (candidates_keys now query_type ctx self)). }
  assert (Hsel : NoDup selected.*2.*1).
  { refine (sublist_NoDup _ _ Hkeys _).
    subst selected. rewrite !fmap_take. apply sublist_take. }
  exists selected.*2.*1. split_and!.
  - done.
  - rewrite <- !list_fmap_compose. apply Forall2_fmap, Forall_Forall2_diag.
    apply Forall_forall. intros c Hc. simpl.
    destruct (Hcand c) as [Hin Hsc].
    { rewrite Hsplit. apply elem_of_app. by left. }
    apply candidate_score_spec in Hsc as [Hthr Hrel].
    exists c.2.2. split_and!; try done. by apply od_get_NoDup.
  - assert (Hs : StronglySorted desc selected).
    { rewrite Hsplit in Hsorted. by apply StronglySorted_app_1_l in Hsorted. }
    clear -Hs. induction Hs as [|c l Hl IH Hc]; simpl; constructor; [done|].
    apply Forall_fmap. eapply Forall_impl; [exact Hc|]. done.
  - rewrite length_fmap. subst selected. rewrite length_take. lia.
  - intros key memory Hget Hnotin Hthr.
    assert (∃ sc, candidate_score now (cleanup_threshold self) query_type ctx memory = Some sc)
      as [sc Hsc].
    { unfold candidate_score. apply Qltb_false in Hthr. rewrite Hthr. by eexists. }
    assert (Hin : (sc, (key, memory)) ∈ sorted).
    { rewrite Hperm. apply candidates_elem. split; [by apply od_get_Some | done]. }
    rewrite Hsplit in Hin. apply elem_of_app in Hin as [Hin|Hin].
    { exfalso. apply Hnotin. apply list_elem_of_fmap. exists (key, memory). split; [done|].
      apply list_elem_of_fmap. by exists (sc, (key, memory)). }
    split.
    + rewrite length_fmap. subst selected. rewrite length_take.
      destruct (decide (Z.to_nat limit ≤ length sorted)%nat); [lia|].
      rewrite drop_ge in Hin by lia. by apply elem_of_nil in Hin.
    + apply Forall_fmap, Forall_forall. intros c Hc. simpl.
      apply candidate_score_spec in Hsc as [_ <-].
      rewrite Hsplit in Hsorted.
      apply (StronglySorted_app_1_elem_of _ _ _ _ _ Hsorted Hc Hin).
  - apply reinforce_keys.
  - intros key. by apply reinforce_get.
Qed.

(** The three stored memories, asked for the two best. *)
Lemma retrieve_ranks_by_prior_strength_witness :
  (Z.of_nat (length (retrieve_memories (t0 + 3000000) (Some "crisis")
                       (Some fearful) 2 three_memories).1) ≤ 2)%Z.
Proof.
  destruct (retrieve_ranks_by_prior_strength (t0 + 3000000) (Some "crisis")
              (Some fearful) 2 three_memories)
    as (keys & _ & _ & _ & Hlen & _).
  - apply (bool_decide_unpack _). by vm_compute.
  - done.
  - exact Hlen.
Defined.

(** C2 (counterexample). With [limit = -1] the slice [candidates[:-1]]
    drops only the last of three candidates, so two entries come back,
    more than [limit]; and a query type that is the empty string earns
    no bonus for a memory whose type is the empty string. *)
Lemma retrieve_exceeds_negative_limit :
  ¬ (Z.of_nat (length (retrieve_memories (t0 + 3000000) (Some "crisis") None (-1)
                         three_memories).1) ≤ -1)%Z ∧
  ∃ memory r,
    memories untyped_memory = [(store_id t0, memory)] ∧
    (retrieve_memories (t0 + 1) (Some "") None 10 untyped_memory).1 = [r] ∧
    Some (memory_type memory) = Some "" ∧
    ¬ (relevance_score r == get_current_strength (t0 + 1) memory + 0.2).
Proof.
  split.
  - by vm_compute.
  - eexists _, _. split_and!; [by vm_compute | by vm_compute | by vm_compute |].
    by vm_compute.
Qed.

(** ** The two indices *)




Lemma well_indexed_keys self memory_type ids memory_id :
  well_indexed self → memory_clusters self !! memory_type = Some ids →
  memory_id ∈ ids → memory_id ∈ (memories self).*1.
Proof.
  intros (_ & Hc & _) Ht Hin. destruct (Hc _ _ Ht) as [_ Hall].
  destruct (Hall _ Hin) as (m & Hm & _).
  destruct (decide (memory_id ∈ (memories self).*1)) as [|Hn]; [done|].
  apply od_get_None in Hn. congruence.
Qed.








(** C8 (evaluation at the failing input). Two weak memories stored
    within one millisecond get the same id; the second replaces the
    first in the main mapping while the id is listed under both types;
    the cleanup then removes the node and one listing, and the type
    index keeps an id the main mapping no longer has. *)
Theorem same_millisecond_breaks_indices :
  let self := foldl apply_operation (new_system 1000 0.1) same_millisecond in
  stored_ids same_millisecond = ["mem_1700000000000"; "mem_1700000000000"] ∧
  memories self = [] ∧
  memory_clusters self !! "interaction" = Some ["mem_1700000000000"] ∧
  ¬ indices_consistent self.
Proof.
  split_and!; try by vm_compute.
  intros [H _].
  destruct (H "interaction" ["mem_1700000000000"] "mem_1700000000000") as [m Hm].
  - by vm_compute.
  - left.
  - vm_compute in Hm. discriminate.
Qed.

End MemoryProofs.

(** ** The error monad *)

Lemma bind_inr {A B} (m : PyError + A) (f : A → PyError + B) (b : B) :
  m ≫= f = inr b ↔ ∃ a, m = inr a ∧ f a = inr b.
Proof.
  destruct m as [e|a]; simpl.
  - split; [done | intros (a & [=] & _)].
  - split; [by exists a | by intros (a' & [= ->] & ?)].
Qed.

Lemma for_each_inr {A B} (f : A → PyError + B) xs ys :
  for_each f xs = inr ys ↔ Forall2 (λ x y, f x = inr y) xs ys.
Proof.
  revert ys. induction xs as [|x xs IH]; intros ys; simpl.
  - split.
    + intros [= <-]. constructor.
    + intros H. by inversion H.
  - rewrite bind_inr. split.
    + intros (y & Hy & Hrest). apply bind_inr in Hrest as (ys' & Hys' & [= <-]).
      constructor; [done | by apply IH].
    + intros H. inversion H as [|? y ? ys' Hy Hys]; subst.
      exists y. split; [done|]. apply bind_inr. exists ys'. split; [by apply IH | done].
Qed.






(** * The personality mixer *)
Module MixerProofs.
Import Mixer.


Lemma getitem_inr {A} key (entry : option A) a :
  getitem key entry = inr a ↔ entry = Some a.
Proof. destruct entry; simpl; split; congruence. Qed.

Lemma core_keys_NoDup : NoDup core_keys.
Proof. apply (bool_decide_unpack _). by vm_compute. Qed.

Lemma personality_keys_NoDup : NoDup personality_keys.
Proof. apply (bool_decide_unpack _). by vm_compute. Qed.

Section mixer_facts.
Variable base : gmap string Profile.
Variable list_of_set : list string → list string.
Implicit Types (combinations : Combinations) (key : string).

Lemma weighted_values_inv vector_name vector key combinations wv :
  weighted_values base vector_name vector key combinations = inr wv ↔
  Forall2 (contributes base vector key) combinations wv.
Proof.
  unfold weighted_values. rewrite for_each_inr.
  split; (intros HF; eapply Forall2_impl; [exact HF|]); clear HF;
    intros [name w] [v w']; unfold contributes; simpl.
  - intros H. apply bind_inr in H as (p & Hp%getitem_inr & H).
    apply bind_inr in H as (vals & Hvals%getitem_inr & H).
    apply bind_inr in H as (v' & Hv%getitem_inr & [= <- <-]).
    by exists p, vals.
  - intros (p & vals & Hp & Hvals & Hv & ->).
    rewrite Hp. simpl. rewrite Hvals. simpl. rewrite Hv. done.
Qed.

Lemma mix_vector_inv vector_name vector keys combinations mixed :
  mix_vector base vector_name vector keys combinations = inr mixed ↔
  Forall2 (λ key kv, kv.1 = key ∧
             ∃ wv, Forall2 (contributes base vector key) combinations wv ∧
                   kv.2 = _weighted_average wv) keys mixed.
Proof.
  unfold mix_vector. rewrite for_each_inr.
  split; (intros HF; eapply Forall2_impl; [exact HF|]); clear HF;
    intros key [k v]; simpl.
  - intros H. apply bind_inr in H as (wv & Hwv%weighted_values_inv & [= <- <-]).
    split; [done|]. by exists wv.
  - intros (-> & wv & Hwv & ->).
    by rewrite (proj2 (weighted_values_inv vector_name _ _ _ _) Hwv).
Qed.

Lemma mix_vector_keys vector_name vector keys combinations mixed :
  mix_vector base vector_name vector keys combinations = inr mixed → mixed.*1 = keys.
Proof.
  intros Hmix%mix_vector_inv.
  induction Hmix as [|k [k' v] ks kvs [Hk _] _ IH]; [done|].
  simpl in *. by f_equal.
Qed.

Lemma mix_vector_lookup vector_name vector keys combinations mixed key :
  NoDup keys →
  mix_vector base vector_name vector keys combinations = inr mixed →
  key ∈ keys →
  ∃ wv, Forall2 (contributes base vector key) combinations wv ∧
        od_get key mixed = Some (_weighted_average wv).
Proof.
  intros Hnd Hmix Hkey.
  pose proof (mix_vector_keys _ _ _ _ _ Hmix) as Hkeys.
  apply mix_vector_inv in Hmix.
  apply list_elem_of_lookup in Hkey as [i Hi].
  destruct (Forall2_lookup_l _ _ _ _ _ Hmix Hi) as ([k v] & Hkv & Hk & wv & Hwv & Hv).
  simpl in *. subst k v. exists wv. split; [done|].
  apply od_get_NoDup; [by rewrite Hkeys|].
  by apply list_elem_of_lookup_2 in Hkv.
Qed.




(** The steps of [mix_personalities] behind a successful call. *)
Lemma mix_inr_inv uuid4 now_iso combinations custom_goal m :
  mix_personalities base list_of_set uuid4 now_iso combinations custom_goal = inr m →
  Qabs (py_sum combinations.*2 - 1.0) <= 0.01 ∧
  mix_vector base "core_vector_default" core_vector_default core_keys combinations
    = inr (mixed_core_vector_default m) ∧
  mix_vector base "personality_vector" personality_vector personality_keys combinations
    = inr (mixed_personality_vector m).
Proof.
  unfold mix_personalities.
  destruct (Qltb 0.01 _) eqn:Hw; [done|]. apply Qltb_false in Hw.
  intros H. apply bind_inr in H as (goal & _ & H).
  apply bind_inr in H as (style & _ & H).
  apply bind_inr in H as (core & Hcore & H).
  apply bind_inr in H as (pers & Hpers & H).
  apply bind_inr in H as (nodes & _ & H).
  apply bind_inr in H as (exs & _ & [= <-]). done.
Qed.





Lemma mix_blends uuid4 now_iso combinations custom_goal m :
  mix_personalities base list_of_set uuid4 now_iso combinations custom_goal = inr m →
  (mixed_core_vector_default m).*1 = core_keys ∧
  (mixed_personality_vector m).*1 = personality_keys ∧
  (∀ key, key ∈ core_keys →
     ∃ value_weights,
       Forall2 (contributes base core_vector_default key) combinations value_weights ∧
       od_get key (mixed_core_vector_default m) =
         Some (py_round3 (py_sum ((λ vw, vw.1 * vw.2) <$> value_weights)))) ∧
  (∀ key, key ∈ personality_keys →
     ∃ value_weights,
       Forall2 (contributes base personality_vector key) combinations value_weights ∧
       od_get key (mixed_personality_vector m) =
         Some (py_round3 (py_sum ((λ vw, vw.1 * vw.2) <$> value_weights)))).
Proof.
  intros (_ & Hcore & Hpers)%mix_inr_inv.
  split; [by apply mix_vector_keys in Hcore|].
  split; [by apply mix_vector_keys in Hpers|].
  split; intros key Hkey.
  - by apply (mix_vector_lookup _ _ core_keys _ _ key core_keys_NoDup Hcore).
  - by apply (mix_vector_lookup _ _ personality_keys _ _ key personality_keys_NoDup Hpers).
Qed.


End mixer_facts.



(** The names "friend" and "researcher" are registered with the empty
    dictionary: the mix of the module's own demonstration raises. *)
Lemma friendly_researcher_raises :
  load_foundation_personalities !! "friend" = Some empty_profile ∧
  load_foundation_personalities !! "researcher" = Some empty_profile ∧
  mix_personalities load_foundation_personalities remove_dups
    "0b1e7a52-5c1d-4c6e-9a5f-3f2d8e1c7b90" "2025-01-01T00:00:00"
    [("friend", 0.6); ("researcher", 0.4)]
    (Some "Research topics thoroughly while maintaining warmth and accessibility.")
  = inl (KeyError "persona_style").
Proof. split_and!; by vm_compute. Qed.





End MixerProofs.

(** * The autonomous agent *)
Module AgentProofs.
Import Agent.

Ltac clock_unfold :=
  unfold mbind, clock_bind, mret, clock_ret, time_time in *; cbn beta iota in *.

Section agent_facts.
Context {Session : Type} {session_ops : AnchorSession Session} {clock : WallClock}.
Implicit Types (self : AutonomousAgent Session) (action : AgentAction) (n : nat).

(** The checks of [_can_execute_action], as inequalities. *)
Lemma can_execute_at_true self action t :
  can_execute_at self action t = true ↔
  cooldown action <= t - last_executed action ∧
  energy_cost action <= energy self ∧
  ∀ dimension minimum, (dimension, minimum) ∈ anchor_requirements action →
    minimum <= default 0 (core (anchor_session self) !! dimension).
Proof.
  unfold can_execute_at.
  destruct (Qltb (t - _) _) eqn:E1.
  { apply Qltb_true in E1. split; [done|]. intros (H & _ & _). lra. }
  apply Qltb_false in E1.
  destruct (Qltb (energy self) _) eqn:E2.
  { apply Qltb_true in E2. split; [done|]. intros (_ & H & _). lra. }
  apply Qltb_false in E2.
  rewrite forallb_forall.
  split.
  - intros H. split_and!; [done..|]. intros d m Hin.
    apply list_elem_of_In in Hin. specialize (H _ Hin). simpl in H.
    by apply negb_true_iff, Qltb_false in H.
  - intros (_ & _ & H) [d m] Hin. simpl.
    apply negb_true_iff, Qltb_false. by apply H, list_elem_of_In.
Qed.

Lemma any_can_execute_spec self (actions : list AgentAction) n :
  ∃ k, (any_can_execute self actions n).2 = (n + k)%nat ∧
  ((any_can_execute self actions n).1 = true ↔
   ∃ i action, actions !! i = Some action ∧
               can_execute_at self action (wall (n + i)) = true).
Proof.
  revert n. induction actions as [|a actions IH]; intros n.
  - exists 0%nat. simpl. split; [unfold mret, clock_ret; simpl; lia|].
    split; [done|]. intros (i & action & Hi & _). done.
  - cbn [any_can_execute]. unfold mbind, clock_bind, _can_execute_action, time_time, mret, clock_ret.
    simpl. destruct (can_execute_at self a (wall n)) eqn:E.
    + exists 1%nat. simpl. split; [lia|]. split; [|done]. intros _.
      exists 0%nat, a. rewrite Nat.add_0_r. done.
    + destruct (IH (S n)) as (k & Hk & Hiff). exists (S k). split; [lia|].
      rewrite Hiff. split.
      * intros (i & action & Hi & Hex). exists (S i), action. split; [done|].
        by replace (n + S i)%nat with (S n + i)%nat by lia.
      * intros (i & action & Hi & Hex). destruct i as [|i].
        { simpl in Hi. injection Hi as <-. rewrite Nat.add_0_r in Hex. congruence. }
        exists i, action. split; [done|].
        by replace (S n + i)%nat with (n + S i)%nat by lia.
Qed.


Lemma update_agent_state_result self n :
  ∃ s, (_update_agent_state self n).1 = set_state s self.
Proof.
  unfold _update_agent_state.
  destruct (Qltb 0.8 _); [by eexists|].
  destruct (Qltb 0.3 _); [by eexists|].
  clock_unfold. destruct (any_can_execute _ _ _) as [[] ?]; by eexists.
Qed.

Context {personality : Personality Session}.

Lemma cycle_inv self n out self' n' :
  _autonomous_cycle self n = (out, self', n') →
  let s1 := _regenerate_energy (_update_agent_state self n).1 in
  ((∀ key result, out ≠ Executed key result) ∧ self' = s1) ∨
  (∃ key action c result s2 n4,
      out = Executed key result ∧
      od_get key (available_actions s1) = Some action ∧
      can_execute_at s1 action (wall c) = true ∧
      _execute_action_safely s1 key action (S c) = (result, s2, n4) ∧
      _learn_from_action s2 action result n4 = (self', n')).
Proof.
  unfold _autonomous_cycle. clock_unfold.
  destruct (_update_agent_state self n) as [s0 n0]. simpl.
  set (s1 := _regenerate_energy s0).
  destruct (_should_make_decision s1 n0) as [[] n1]; cycle 1.
  { intros [= <- <- <-]. left. done. }
  destruct (decide_action s1 n1) as [[e|[key|]] n2]; cycle 2.
  { intros [= <- <- <-]. left. done. }
  { intros [= <- <- <-]. left. done. }
  destruct (decide (key = "")).
  { intros [= <- <- <-]. left. done. }
  destruct (od_get key (available_actions s1)) as [action|] eqn:Hget; cycle 1.
  { intros [= <- <- <-]. left. done. }
  unfold _can_execute_action. clock_unfold.
  destruct (can_execute_at s1 action (wall n2)) eqn:Hcan; cycle 1.
  { intros [= <- <- <-]. left. done. }
  destruct (_execute_action_safely s1 key action (S n2)) as [[result s2] n4] eqn:Hexec.
  destruct (_learn_from_action s2 action result n4) as [s3 n5] eqn:Hlearn.
  intros [= <- <- <-]. right. exists key, action, n2, result, s2, n4. done.
Qed.


Lemma regenerate_energy_frame self :
  state (_regenerate_energy self) = state self ∧
  available_actions (_regenerate_energy self) = available_actions self ∧
  anchor_session (_regenerate_energy self) = anchor_session self ∧
  is_running (_regenerate_energy self) = is_running self.
Proof. unfold _regenerate_energy. by destruct (Qltb _ _). Qed.

Lemma update_agent_state_frame self n :
  available_actions (_update_agent_state self n).1 = available_actions self ∧
  anchor_session (_update_agent_state self n).1 = anchor_session self ∧
  is_running (_update_agent_state self n).1 = is_running self.
Proof. destruct (update_agent_state_result self n) as [s ->]. done. Qed.

Lemma execute_action_safely_frame self key action n :
  let self' := (_execute_action_safely self key action n).1.2 in
  state self' = state self ∧
  is_running self' = is_running self ∧
  energy self' = energy self - energy_cost action ∧
  available_actions self' = od_alter (set_last_executed (wall n)) key (available_actions self).
Proof.
  unfold _execute_action_safely. clock_unfold.
  destruct (execute_action _ _); done.
Qed.

Lemma learn_from_action_frame self action result n :
  let self' := (_learn_from_action self action result n).1 in
  state self' = state self ∧
  is_running self' = is_running self ∧
  energy self' = energy self ∧
  anchor_session self' = anchor_session self ∧
  action_history self' = action_history self ∧
  available_actions self' = available_actions self.
Proof. done. Qed.

Lemma cycle_state self n :
  state (_autonomous_cycle self n).1.2 = state (_update_agent_state self n).1 ∧
  is_running (_autonomous_cycle self n).1.2 = is_running self.
Proof.
  destruct (_autonomous_cycle self n) as [[out self'] n'] eqn:Hc.
  apply cycle_inv in Hc. simpl in Hc. simpl.
  destruct (regenerate_energy_frame (_update_agent_state self n).1) as (Hs & _ & _ & Hr).
  destruct (update_agent_state_frame self n) as (_ & _ & Hr').
  destruct Hc as [[_ ->]|(key & action & c & result & s2 & n4 & _ & _ & _ & Hexec & Hlearn)].
  - by rewrite Hs, Hr, Hr'.
  - pose proof (execute_action_safely_frame
                  (_regenerate_energy (_update_agent_state self n).1) key action (S c)) as He.
    rewrite Hexec in He. simpl in He. destruct He as (He1 & He2 & _).
    pose proof (learn_from_action_frame s2 action result n4) as Hl.
    rewrite Hlearn in Hl. simpl in Hl. destruct Hl as (Hl1 & Hl2 & _).
    rewrite Hl1, He1, Hs, Hl2, He2, Hr, Hr'. done.
Qed.

(** C5. The state tag [_update_agent_state] computes depends on the
    snapshot only: CRISIS when chaos_proximity > 0.8; otherwise THINKING
    when velocity_magnitude > 0.3; otherwise ACTING when some action is
    executable at the clock reading taken for it; otherwise IDLE. The
    prior tag plays no part, the tag is still the one in force when the
    cycle ends, and with chaos_proximity = 0.85 it is CRISIS. *)
Theorem state_recomputed_each_cycle self n :
  let view := export_view (anchor_session self) in
  let chaos := default 0 (chaos_proximity view) in
  let velocity := default 0 (velocity_magnitude view) in
  let executable :=
    ∃ i action, (available_actions self).*2 !! i = Some action ∧
                can_execute_at self action (wall (n + i)) = true in
  let recomputed := state (_update_agent_state self n).1 in
  (0.8 < chaos → recomputed = CRISIS) ∧
  (chaos <= 0.8 → 0.3 < velocity → recomputed = THINKING) ∧
  (chaos <= 0.8 → velocity <= 0.3 → executable → recomputed = ACTING) ∧
  (chaos <= 0.8 → velocity <= 0.3 → ¬ executable → recomputed = IDLE) ∧
  (∀ prior, state (_update_agent_state (set_state prior self) n).1 = recomputed) ∧
  state (_autonomous_cycle self n).1.2 = recomputed ∧
  (chaos_proximity view = Some 0.85 →
   ∀ prior, state (_update_agent_state (set_state prior self) n).1 = CRISIS ∧
            state (_autonomous_cycle (set_state prior self) n).1.2 = CRISIS).
Proof.
  intros view chaos velocity executable recomputed.
  assert (Hcases :
    (0.8 < chaos → recomputed = CRISIS) ∧
    (chaos <= 0.8 → 0.3 < velocity → recomputed = THINKING) ∧
    (chaos <= 0.8 → velocity <= 0.3 → executable → recomputed = ACTING) ∧
    (chaos <= 0.8 → velocity <= 0.3 → ¬ executable → recomputed = IDLE)).
  { subst recomputed. unfold _update_agent_state. fold view. fold chaos. fold velocity.
    destruct (Qltb 0.8 chaos) eqn:E1.
    { apply Qltb_true in E1. split_and!; intros; try done; lra. }
    apply Qltb_false in E1.
    destruct (Qltb 0.3 velocity) eqn:E2.
    { apply Qltb_true in E2. split_and!; intros; try done; lra. }
    apply Qltb_false in E2. clock_unfold.
    destruct (any_can_execute_spec self (available_actions self).*2 n) as (k & _ & Hiff).
    destruct (any_can_execute self _ n) as [b n'] eqn:Hany. simpl in Hiff.
    destruct b; simpl.
    - split_and!; intros; try done; try lra. exfalso. 
      match goal with H : ¬ executable |- _ => apply H end. by apply Hiff.
    - split_and!; intros; try done; try lra.
      match goal with H : executable |- _ => apply Hiff in H; done end. }
  assert (Hprior : ∀ prior, state (_update_agent_state (set_state prior self) n).1 = recomputed).
  { intros prior. subst recomputed. unfold _update_agent_state. simpl.
    destruct (Qltb 0.8 _); [done|]. destruct (Qltb 0.3 _); [done|].
    clock_unfold. 
    assert (Hsame : ∀ l m, any_can_execute (set_state prior self) l m = any_can_execute self l m).
    { induction l as [|a l IH]; intros m; [done|]. simpl. clock_unfold.
      unfold _can_execute_action. clock_unfold.
      change (can_execute_at (set_state prior self) a (wall m)) with (can_execute_at self a (wall m)).
      destruct (can_execute_at self a (wall m)); [done|]. apply IH. }
    rewrite Hsame. by destruct (any_can_execute _ _ _) as [[] ?]. }
  destruct Hcases as (H1 & H2 & H3 & H4).
  split_and!; try done.
  - apply cycle_state.
  - intros H85 prior.
    assert (Hc : recomputed = CRISIS).
    { apply H1. subst chaos. rewrite H85. simpl. lra. }
    split; [by rewrite Hprior|].
    destruct (cycle_state (set_state prior self) n) as [-> _]. by rewrite Hprior.
Qed.


(** One cycle either leaves every action as it was, or executes one
    action that had cooled down and stamps it. *)
Lemma cycle_stamps self n :
  (∀ i j, (i ≤ j)%nat → wall i <= wall j) →
  let out := (_autonomous_cycle self n).1.1 in
  let self' := (_autonomous_cycle self n).1.2 in
  ((∀ key result, out ≠ Executed key result) ∧
   available_actions self' = available_actions self) ∨
  (∃ key result action t,
     out = Executed key result ∧
     od_get key (available_actions self) = Some action ∧
     cooldown action <= t - last_executed action ∧
     od_get key (available_actions self') = Some (set_last_executed t action) ∧
     ∀ other, other ≠ key →
       od_get other (available_actions self') = od_get other (available_actions self)).
Proof.
  intros mono out self'. subst out self'.
  destruct (_autonomous_cycle self n) as [[out self'] n'] eqn:Hc.
  apply cycle_inv in Hc. simpl in Hc. simpl.
  destruct (regenerate_energy_frame (_update_agent_state self n).1) as (_ & Ha & _).
  destruct (update_agent_state_frame self n) as (Ha' & _).
  rewrite Ha' in Ha.
  destruct Hc as [[Hne ->]|(key & action & c & result & s2 & n4 & -> & Hget & Hcan & Hexec & Hlearn)].
  - left. done.
  - right. exists key, result, action, (wall (S c)).
    rewrite Ha in Hget.
    pose proof (execute_action_safely_frame
                  (_regenerate_energy (_update_agent_state self n).1) key action (S c)) as He.
    rewrite Hexec in He. simpl in He. destruct He as (_ & _ & _ & He).
    pose proof (learn_from_action_frame s2 action result n4) as Hl.
    rewrite Hlearn in Hl. simpl in Hl. destruct Hl as (_ & _ & _ & _ & _ & Hl).
    rewrite Hl, He, Ha.
    apply can_execute_at_true in Hcan as (Hcool & _).
    split_and!; try done.
    + specialize (mono c (S c)). assert (wall c <= wall (S c)) by (apply mono; lia). lra.
    + rewrite od_get_alter, decide_True by done. by rewrite Hget.
    + intros other Hne. rewrite od_get_alter, decide_False by done. done.
Qed.

Lemma execution_stamps_spaced key action (n : nat) :
  (∀ i j, (i ≤ j)%nat → wall i <= wall j) →
  ∀ self m last,
  od_get key (available_actions self) = Some (set_last_executed last action) →
  let stamps := (execution_stamps key n self m).1 in
  (∀ t, stamps !! 0%nat = Some t → cooldown action <= t - last) ∧
  (∀ i t1 t2, stamps !! i = Some t1 → stamps !! S i = Some t2 →
              cooldown action <= t2 - t1).
Proof.
  intros mono. induction n as [|n IH]; intros self m last Hget stamps; subst stamps.
  { simpl. split; intros; done. }
  cbn [execution_stamps]. clock_unfold.
  pose proof (cycle_stamps self m mono) as Hstep. simpl in Hstep.
  destruct (_autonomous_cycle self m) as [[out self'] m'] eqn:Hc. simpl in Hstep.
  destruct Hstep as [[Hne Hsame]|(k & result & a & t & -> & Hk & Hcool & Hk' & Hother)].
  - rewrite <- Hsame in Hget. specialize (IH self' m' last Hget).
    destruct (execution_stamps key n self' m') as [stamps m''] eqn:Hs. simpl in IH.
    destruct out as [e| |k r]; simpl; try done.
    exfalso. by eapply Hne.
  - destruct (decide (k = key)) as [->|Hkne].
    + rewrite Hget in Hk. injection Hk as <-.
      simpl in Hcool, Hk'.
      specialize (IH self' m' t Hk').
      destruct (execution_stamps key n self' m') as [stamps m''] eqn:Hs. simpl in IH.
      simpl. rewrite Hk'. simpl. destruct IH as [IH0 IH1]. split.
      * intros t' [= <-]. done.
      * intros [|i] t1 t2; simpl.
        -- intros [= <-]. apply IH0.
        -- apply IH1.
    + rewrite <- (Hother key) in Hget by done. specialize (IH self' m' last Hget).
      destruct (execution_stamps key n self' m') as [stamps m''] eqn:Hs. simpl in IH.
      simpl. done.
Qed.

(** C6. [_can_execute_action] answers true exactly when the cooldown has
    elapsed since [last_executed], the energy covers the cost and every
    required dimension reaches its minimum. Under a clock that does not
    run backwards, over any number of cycles of one agent, the first
    execution of an action comes at least its cooldown after the initial
    [last_executed], and each later execution at least its cooldown
    after the previous one: at least 60 when the cooldown is 60. *)
Theorem cooldown_between_executions :
  (∀ self action n,
     (_can_execute_action self action n).1 = true ↔
     cooldown action <= wall n - last_executed action ∧
     energy_cost action <= energy self ∧
     ∀ dimension minimum, (dimension, minimum) ∈ anchor_requirements action →
       minimum <= default 0 (core (anchor_session self) !! dimension)) ∧
  ((∀ i j, (i ≤ j)%nat → wall i <= wall j) →
   ∀ key action self (cycles m : nat),
     od_get key (available_actions self) = Some action →
     let stamps := (execution_stamps key cycles self m).1 in
     (∀ t, stamps !! 0%nat = Some t → cooldown action <= t - last_executed action) ∧
     (∀ i t1 t2, stamps !! i = Some t1 → stamps !! S i = Some t2 →
                 cooldown action <= t2 - t1) ∧
     (cooldown action == 60 →
      ∀ i t1 t2, stamps !! i = Some t1 → stamps !! S i = Some t2 → 60 <= t2 - t1)).
Proof.
  split.
  - intros self action n. apply can_execute_at_true.
  - intros mono key action self cycles m Hget stamps.
    assert (Hget' : od_get key (available_actions self)
                    = Some (set_last_executed (last_executed action) action)).
    { rewrite Hget. by destruct action. }
    destruct (execution_stamps_spaced key action cycles mono self m _ Hget') as [H0 H1].
    split_and!; try done.
    intros H60 i t1 t2 Ht1 Ht2. rewrite <- H60. by apply (H1 i).
Qed.

(** A loop whose flag is set takes each of its turns. *)
Lemma run_cycles_length self (cycles m : nat) :
  is_running self = true → length (run_cycles cycles self m).1.1 = cycles.
Proof.
  revert self m. induction cycles as [|cycles IH]; intros self m Hrun; [done|].
  cbn [run_cycles]. rewrite Hrun. clock_unfold.
  destruct (cycle_state self m) as [_ Hr].
  destruct (_autonomous_cycle self m) as [[out self'] m'].
  simpl in Hr. rewrite Hrun in Hr. specialize (IH self' m' Hr).
  destruct (run_cycles cycles self' m') as [[outs self''] m'']. simpl in *. by rewrite IH.
Qed.

(** C7. When [execute_action] raises inside [_execute_action_safely],
    the call returns the error dictionary and the agent as charged: the
    energy cost stays deducted, the action stays stamped, the session
    and the action history are as before the call. [_learn_from_action]
    then logs an entry with [result_success = False] and restores
    nothing. A cycle raises only an error raised by [decide_action], and
    the loop, once started, takes every one of its turns. *)
Theorem effect_generation_failure_contained :
  (∀ self key action n e,
     execute_action (charged self key action (wall n) (wall (S n)))
                    (set_last_executed (wall n) action) = inl e →
     let self1 := charged self key action (wall n) (wall (S n)) in
     _execute_action_safely self key action n = (error_result e action, self1, S (S n)) ∧
     energy self1 = energy self - energy_cost action ∧
     od_get key (available_actions self1) =
       set_last_executed (wall n) <$> od_get key (available_actions self) ∧
     anchor_session self1 = anchor_session self ∧
     action_history self1 = action_history self ∧
     ∀ m, let self2 := (_learn_from_action self1 action (error_result e action) m).1 in
          (∃ entry, last (learning_data self2) = Some entry ∧
                    result_success entry = false ∧ l_action entry = name action) ∧
          energy self2 = energy self1 ∧
          available_actions self2 = available_actions self1 ∧
          anchor_session self2 = anchor_session self1) ∧
  (∀ self n e,
     (_autonomous_cycle self n).1.1 = Raised e →
     ∃ self0 m, (decide_action self0 m).1 = inl e) ∧
  (∀ self (cycles m : nat),
     length (start_autonomous_loop cycles self m).1.1 = cycles).
Proof.
  split_and!.
  - intros self key action n e Hraise self1.
    split_and!; try done.
    + unfold _execute_action_safely. clock_unfold. by rewrite Hraise.
    + subst self1. simpl. rewrite od_get_alter, decide_True by done. done.
    + intros m self2. subst self2. simpl. split_and!; try done.
      match goal with |- context [bool_decide (100 < length ?d)%nat] =>
        destruct (bool_decide (100 < length d)%nat) eqn:Hlen end.
      * eexists. split.
        { unfold py_slice_last. rewrite drop_app_le; [by rewrite last_snoc|].
          rewrite length_app. simpl. lia. }
        done.
      * eexists. split; [by rewrite last_snoc | done].
  - intros self n e. unfold _autonomous_cycle. clock_unfold.
    destruct (_update_agent_state self n) as [s0 n0].
    destruct (_should_make_decision _ n0) as [[] n1]; [|done].
    destruct (decide_action (_regenerate_energy s0) n1) as [[e'|[key|]] n2] eqn:Hd; try done.
    + intros [= ->]. exists (_regenerate_energy s0), n1. by rewrite Hd.
    + destruct (decide (key = "")); [done|].
      destruct (od_get key _); [|done].
      destruct (_can_execute_action _ _ n2) as [[] ?]; [|done].
      destruct (_execute_action_safely _ _ _ _) as [[? ?] ?].
      destruct (_learn_from_action _ _ _ _) as [? ?]. done.
  - intros self cycles m. unfold start_autonomous_loop. by apply run_cycles_length.
Qed.

End agent_facts.

(** The scientist on a chaotic session, whatever its prior tag, is in
    CRISIS after the update and at the end of the cycle. *)
Lemma state_recomputed_each_cycle_witness :
  state (_update_agent_state (clock := slow_clock)
           (set_state ACTING (example_agent chaotic_session)) 0%nat).1 = CRISIS ∧
  state (_autonomous_cycle (clock := slow_clock) (personality := example_scientist)
           (set_state ACTING (example_agent chaotic_session)) 0%nat).1.2 = CRISIS.
Proof.
  apply (state_recomputed_each_cycle (clock := slow_clock)
           (personality := example_scientist) (example_agent chaotic_session) 0%nat).
  reflexivity.
Defined.

Lemma fine_clock_monotone i j : (i ≤ j)%nat → fine_clock i <= fine_clock j.
Proof.
  intros Hij. unfold fine_clock.
  apply Qplus_le_r, Qmult_le_l; [done|].
  rewrite <- Zle_Qle. lia.
Qed.

(** An agent that proposes "stabilize" (cooldown 60) at every cycle,
    under a clock read every 5 seconds: six cycles execute it twice,
    65 seconds apart. *)
Lemma cooldown_between_executions_witness :
  (execution_stamps (clock := fine_clock) (personality := StabilizingAgent)
     "stabilize" 6 (example_agent calm_session) 0%nat).1 = [1015; 1080] ∧
  60 <= 1080 - 1015.
Proof.
  split; [vm_compute; reflexivity|].
  destruct (cooldown_between_executions (clock := fine_clock)
              (personality := StabilizingAgent)) as [_ Hspaced].
  destruct (Hspaced fine_clock_monotone "stabilize" stabilize_action
              (example_agent calm_session) 6%nat 0%nat eq_refl) as (_ & _ & H60).
  apply (H60 ltac:(reflexivity) 0%nat); vm_compute; reflexivity.
Defined.

(** A personality whose effect generation raises: the cycle still
    completes and the cost stays charged. *)
Lemma effect_generation_failure_contained_witness :
  _execute_action_safely (clock := slow_clock) (personality := FailingAgent)
    (example_agent calm_session) "observe" observe_action 0%nat
  = (error_result (ValueError "effect generation failed") observe_action,
     charged (example_agent calm_session) "observe" observe_action 1000 1100, 2%nat).
Proof.
  destruct (effect_generation_failure_contained (clock := slow_clock)
              (personality := FailingAgent)) as [Hboundary _].
  apply (Hboundary (example_agent calm_session) "observe" observe_action 0%nat
           (ValueError "effect generation failed") eq_refl).
Defined.

End AgentProofs.

(** * Part III: further properties of the code *)

(** ** More on insertion-ordered dictionaries *)

Section odict_more.
Context {K V : Type} `{EqDecision K}.
Implicit Types (k : K) (v : V) (d : list (K * V)).

Lemma od_del_absent k d : k ∉ d.*1 → od_del k d = d.
Proof.
  induction d as [|[k' v'] d IH]; simpl; [done|].
  rewrite not_elem_of_cons. intros [Hne Hnin].
  rewrite decide_False by done. by rewrite IH.
Qed.

Lemma od_del_filter k d : NoDup d.*1 → od_del k d = filter (λ e, e.1 ≠ k) d.
Proof.
  induction d as [|[k' v'] d IH]; simpl; [done|].
  rewrite NoDup_cons. intros [Hk Hd].
  destruct (decide (k = k')) as [->|Hne].
  - rewrite filter_cons_False by (simpl; tauto).
    rewrite <- IH by done. by rewrite od_del_absent.
  - rewrite filter_cons_True by (simpl; congruence). by rewrite IH.
Qed.

Lemma od_set_fresh k v d : k ∉ d.*1 → od_set k v d = d ++ [(k, v)].
Proof.
  induction d as [|[k' v'] d IH]; simpl; [done|].
  rewrite not_elem_of_cons. intros [Hne Hnin].
  rewrite decide_False by done. by rewrite IH.
Qed.

Lemma filter_keys_NoDup (P : K * V → Prop) `{∀ e, Decision (P e)} d :
  NoDup d.*1 → NoDup (filter P d).*1.
Proof.
  intros Hd. apply (sublist_NoDup _ _ Hd).
  induction d as [|e d IH]; [done|].
  apply NoDup_cons in Hd as [_ Hd].
  destruct (decide (P e)).
  - rewrite filter_cons_True by done. simpl. constructor. auto.
  - rewrite filter_cons_False by done. simpl. constructor. auto.
Qed.

Lemma od_get_filter (P : K * V → Prop) `{∀ e, Decision (P e)} k v d :
  NoDup d.*1 →
  od_get k (filter P d) = Some v ↔ od_get k d = Some v ∧ P (k, v).
Proof.
  intros Hd. split.
  - intros Hget. apply od_get_Some in Hget. apply list_elem_of_filter in Hget as [HP Hin].
    split; [by apply od_get_NoDup | done].
  - intros [Hget HP]. apply od_get_NoDup; [by apply filter_keys_NoDup|].
    apply list_elem_of_filter. split; [done | by apply od_get_Some].
Qed.

(** Rebuilding a dictionary entry by entry gives the entries back. *)
Lemma foldl_od_set_rebuild {W} (f : W → V) (l : list (K * W)) d :
  NoDup (d.*1 ++ l.*1) →
  foldl (λ ms (e : K * W), od_set e.1 (f e.2) ms) d l = d ++ ((λ e, (e.1, f e.2)) <$> l).
Proof.
  revert d. induction l as [|[k w] l IH]; intros d Hnd; simpl.
  - by rewrite app_nil_r.
  - simpl in Hnd. rewrite od_set_fresh.
    + rewrite IH.
      * by rewrite <- app_assoc.
      * rewrite fmap_app. simpl. rewrite <- app_assoc. done.
    + apply NoDup_app in Hnd as (_ & Hdisj & _). intros Hin. apply (Hdisj k Hin). left.
Qed.
End odict_more.

(** ** Filters *)

Lemma filter_iff_elem {A} (P1 P2 : A → Prop)
    `{!∀ x, Decision (P1 x), !∀ x, Decision (P2 x)} (l : list A) :
  (∀ x, x ∈ l → P1 x ↔ P2 x) → filter P1 l = filter P2 l.
Proof.
  induction l as [|a l IH]; intros Hiff; [done|].
  assert (Hl : ∀ x, x ∈ l → P1 x ↔ P2 x) by (intros x Hx; apply Hiff; by right).
  assert (Ha : P1 a ↔ P2 a) by (apply Hiff; left).
  destruct (decide (P1 a)).
  - rewrite !filter_cons_True by tauto. by rewrite IH.
  - rewrite !filter_cons_False by tauto. by rewrite IH.
Qed.

Lemma filter_all {A} (P : A → Prop) `{!∀ x, Decision (P x)} (l : list A) :
  (∀ x, x ∈ l → P x) → filter P l = l.
Proof.
  induction l as [|a l IH]; intros HP; [done|].
  rewrite filter_cons_True by (apply HP; left).
  rewrite IH; [done|]. intros x Hx. apply HP. by right.
Qed.

(** * The memory store: cleanup, capacity, statistics, persistence *)
Module MemoryExtras.
Import Memory MemoryProofs.

Lemma remove_memory_memories self memory_id :
  NoDup (memories self).*1 →
  memories (remove_memory self memory_id) = filter (λ e, e.1 ≠ memory_id) (memories self).
Proof.
  intros Hnd. rewrite <- od_del_filter by done. unfold remove_memory.
  destruct (od_get memory_id (memories self)) eqn:Hget; [done|].
  apply od_get_None in Hget. by rewrite od_del_absent.
Qed.

Lemma remove_memory_config self memory_id :
  max_memories (remove_memory self memory_id) = max_memories self ∧
  cleanup_threshold (remove_memory self memory_id) = cleanup_threshold self.
Proof. unfold remove_memory. by destruct (od_get _ _). Qed.

Lemma remove_all_memories (ids : list string) self :
  NoDup (memories self).*1 →
  memories (foldl remove_memory self ids) = filter (λ e, e.1 ∉ ids) (memories self) ∧
  max_memories (foldl remove_memory self ids) = max_memories self ∧
  cleanup_threshold (foldl remove_memory self ids) = cleanup_threshold self.
Proof.
  revert self. induction ids as [|i ids IH]; intros self Hnd; simpl.
  - split; [|done]. symmetry. apply filter_all. intros x _. apply not_elem_of_nil.
  - destruct (IH (remove_memory self i)) as (Hm & Hmax & Hthr).
    { rewrite remove_memory_memories by done. by apply filter_keys_NoDup. }
    destruct (remove_memory_config self i) as [Hmax' Hthr'].
    rewrite Hm, Hmax, Hthr, Hmax', Hthr'. split; [|done].
    rewrite remove_memory_memories by done. rewrite list_filter_filter.
    apply list_filter_iff. intros e. rewrite not_elem_of_cons. tauto.
Qed.

Lemma cleanup_filter now self :
  NoDup (memories self).*1 →
  let self' := _cleanup_weak_memories now self in
  memories self' =
    filter (λ e, Qltb (get_current_strength now e.2) (cleanup_threshold self) = false)
           (memories self) ∧
  (∀ key memory,
     od_get key (memories self') = Some memory ↔
     od_get key (memories self) = Some memory ∧
     cleanup_threshold self <= get_current_strength now memory) ∧
  max_memories self' = max_memories self ∧
  cleanup_threshold self' = cleanup_threshold self.
Proof.
  intros Hnd self'. subst self'. unfold _cleanup_weak_memories.
  destruct (remove_all_memories
    (filter (λ e, Qltb (get_current_strength now e.2) (cleanup_threshold self) = true)
            (memories self)).*1 self Hnd) as (Hm & Hmax & Hthr).
  assert (Heq : memories (foldl remove_memory self
      (filter (λ e, Qltb (get_current_strength now e.2) (cleanup_threshold self) = true)
              (memories self)).*1)
    = filter (λ e, Qltb (get_current_strength now e.2) (cleanup_threshold self) = false)
             (memories self)).
  { rewrite Hm. apply filter_iff_elem. intros [k m] Hin. simpl. split.
    - intros Hnot. destruct (Qltb _ _) eqn:E; [|done]. exfalso. apply Hnot.
      apply list_elem_of_fmap. exists (k, m). split; [done|].
      apply list_elem_of_filter. done.
    - intros Hstrong Hk. apply list_elem_of_fmap in Hk as ([k' m'] & Hkk & Hin').
      simpl in Hkk. subst k'. apply list_elem_of_filter in Hin' as [Hweak Hin'].
      simpl in Hweak.
      assert (m' = m) as ->.
      { apply (od_get_NoDup _ _ _ Hnd) in Hin, Hin'. congruence. }
      congruence. }
  split_and!; try done.
  intros key memory. rewrite Heq, od_get_filter by done. simpl.
  by rewrite Qltb_false.
Qed.

(** X1. With distinct keys, [_cleanup_weak_memories] keeps exactly the
    memories that are not below the threshold, in their order and
    unchanged, and leaves the configuration alone. *)
Theorem cleanup_keeps_exactly_the_strong now self :
  NoDup (memories self).*1 →
  let self' := _cleanup_weak_memories now self in
  memories self' =
    filter (λ e, Qltb (get_current_strength now e.2) (cleanup_threshold self) = false)
           (memories self) ∧
  (∀ key memory,
     od_get key (memories self') = Some memory ↔
     od_get key (memories self) = Some memory ∧
     cleanup_threshold self <= get_current_strength now memory) ∧
  max_memories self' = max_memories self ∧
  cleanup_threshold self' = cleanup_threshold self.
Proof. exact (cleanup_filter now self). Qed.

(** Two of three memories have decayed below the threshold. *)
Lemma cleanup_keeps_exactly_the_strong_witness :
  (memories (_cleanup_weak_memories (t0 + 5) faded)).*1 = [store_id t0].
Proof.
  destruct (cleanup_keeps_exactly_the_strong (t0 + 5) faded) as [Hm _].
  - apply (bool_decide_unpack _). by vm_compute.
  - rewrite Hm. by vm_compute.
Defined.

(** ** Storing *)

Lemma fresh_node_strength now content memory_type importance ctx :
  get_current_strength now (__init__ now content memory_type importance ctx) == importance.
Proof.
  unfold get_current_strength, strength_after, timedelta_days. simpl.
  rewrite Z.sub_diag. simpl. lra.
Qed.

Lemma store_memory_before_cleanup now content memory_type importance ctx self :
  ∃ clusters,
    (store_memory now content memory_type importance ctx self).2 =
    let self1 := {| max_memories := max_memories self;
                    cleanup_threshold := cleanup_threshold self;
                    memories := od_set (store_id now)
                                  (__init__ now content memory_type importance ctx)
                                  (memories self);
                    memory_clusters := clusters |} in
    if (max_memories self <? Z.of_nat (length (memories self1)))%Z
    then _cleanup_weak_memories now self1 else self1.
Proof. eexists. unfold store_memory. simpl. reflexivity. Qed.

Lemma store_memory_fresh now content memory_type importance ctx self :
  NoDup (memories self).*1 →
  store_id now ∉ (memories self).*1 →
  cleanup_threshold self <= importance →
  let node := __init__ now content memory_type importance ctx in
  let stored := store_memory now content memory_type importance ctx self in
  stored.1 = store_id now ∧
  od_get stored.1 (memories stored.2) = Some node ∧
  (∀ key memory, od_get key (memories stored.2) = Some memory →
     key = store_id now ∨ od_get key (memories self) = Some memory) ∧
  (∀ key memory, od_get key (memories self) = Some memory →
     cleanup_threshold self <= get_current_strength now memory →
     od_get key (memories stored.2) = Some memory) ∧
  ((∀ key memory, od_get key (memories self) = Some memory →
      cleanup_threshold self <= get_current_strength now memory) →
   length (memories stored.2) = S (length (memories self))).
Proof.
  intros Hnd Hfresh Hstrong node stored.
  destruct (store_memory_before_cleanup now content memory_type importance ctx self)
    as [clusters Hstored].
  cbv zeta in Hstored. fold node in Hstored.
  split; [done|]. change stored.1 with (store_id now).
  change stored.2 with (store_memory now content memory_type importance ctx self).2.
  clear stored.
  set (self1 := {| max_memories := max_memories self;
                   cleanup_threshold := cleanup_threshold self;
                   memories := od_set (store_id now) node (memories self);
                   memory_clusters := clusters |}) in *.
  assert (Hnd1 : NoDup (memories self1).*1) by (by apply od_set_NoDup).
  assert (Hnode : cleanup_threshold self <= get_current_strength now node).
  { subst node. by rewrite fresh_node_strength. }
  clearbody node.
  assert (Hlen1 : length (memories self1) = S (length (memories self))).
  { simpl. rewrite od_set_fresh by done. rewrite length_app. simpl. lia. }
  destruct (cleanup_filter now self1 Hnd1) as (Hfilter & Hclean & _).
  assert (Hget1 : ∀ key memory, od_get key (memories self1) = Some memory ↔
            (key = store_id now ∧ memory = node) ∨
            (key ≠ store_id now ∧ od_get key (memories self) = Some memory)).
  { intros key memory. simpl. destruct (decide (store_id now = key)) as [<-|Hne].
    - rewrite od_get_set. split; [intros [= <-]; by left|].
      intros [[_ ->]|[? _]]; done.
    - rewrite od_get_set_ne by done. split; [intros ?; right; by split|].
      intros [[-> _]|[_ ?]]; done. }
  destruct (_ <? _)%Z; rewrite Hstored; clear Hstored.
  - split_and!.
    + apply Hclean. split; [|done]. apply Hget1. by left.
    + intros key memory [Hget _]%Hclean. apply Hget1 in Hget as [[-> _]|[_ ?]]; [by left | by right].
    + intros key memory Hget Hs. apply Hclean. split; [|done].
      apply Hget1. right. split; [|done]. intros ->.
      apply od_get_None in Hfresh. congruence.
    + intros Hall. rewrite Hfilter, filter_all; [done|].
      intros [k m] Hin. simpl. apply Qltb_false.
      apply (od_get_NoDup _ _ _ Hnd1) in Hin. apply Hget1 in Hin as [[_ ->]|[_ Hin]]; [done|].
      by apply (Hall k).
  - split_and!.
    + apply Hget1. by left.
    + intros key memory Hget. apply Hget1 in Hget as [[-> _]|[_ ?]]; [by left | by right].
    + intros key memory Hget _. apply Hget1. right. split; [|done]. intros ->.
      apply od_get_None in Hfresh. congruence.
    + done.
Qed.

(** X2. [store_memory] returns the id of the new node. Under a fresh id,
    a node stored with an importance of at least the threshold can be
    looked up under the returned id; every other key still holds what it
    held, unless the store went over capacity and the memory was below
    the threshold; and when nothing in the store is below the threshold
    the store grows by one, whatever [max_memories] is. *)
Theorem store_then_lookup now content memory_type importance ctx self :
  NoDup (memories self).*1 →
  store_id now ∉ (memories self).*1 →
  cleanup_threshold self <= importance →
  let node := __init__ now content memory_type importance ctx in
  let stored := store_memory now content memory_type importance ctx self in
  stored.1 = store_id now ∧
  od_get stored.1 (memories stored.2) = Some node ∧
  (∀ key memory, od_get key (memories stored.2) = Some memory →
     key = store_id now ∨ od_get key (memories self) = Some memory) ∧
  (∀ key memory, od_get key (memories self) = Some memory →
     cleanup_threshold self <= get_current_strength now memory →
     od_get key (memories stored.2) = Some memory) ∧
  ((∀ key memory, od_get key (memories self) = Some memory →
      cleanup_threshold self <= get_current_strength now memory) →
   length (memories stored.2) = S (length (memories self))).
Proof. exact (store_memory_fresh now content memory_type importance ctx self). Qed.

(** A store with room for one memory holds two after two stores. *)
Lemma store_then_lookup_witness :
  length (memories (store_memory (t0 + 1000) "second" "interaction" 0.5 None
                      over_capacity).2) = 2%nat.
Proof.
  destruct (store_then_lookup (t0 + 1000) "second" "interaction" 0.5 None over_capacity)
    as (_ & _ & _ & _ & Hgrow).
  - apply (bool_decide_unpack _). by vm_compute.
  - apply (bool_decide_unpack _). by vm_compute.
  - by vm_compute.
  - apply Hgrow. intros key memory Hget.
    assert (Hin := od_get_Some _ _ _ Hget).
    vm_compute in Hin. apply elem_of_cons in Hin as [[= -> ->]|Hin].
    + by vm_compute.
    + by apply elem_of_nil in Hin.
Defined.

(** ** Statistics *)








(** ** Persistence *)

Lemma restore_to_dict now now' (memory : MemoryNode) :
  restore_node now' (to_dict now memory) = reloaded memory.
Proof. done. Qed.

Lemma reloaded_same (memory : MemoryNode) :
  decay_rate memory = _calculate_decay_rate (memory_type memory) (importance memory) →
  reloaded memory = memory.
Proof. destruct memory. simpl. intros ->. done. Qed.

Lemma save_then_load_parts now now' (self other : EnhancedMemorySystem) :
  NoDup (memories self).*1 →
  let loaded := load_from_file now' (Some (save_to_file now self)) other in
  max_memories loaded = max_memories self ∧
  cleanup_threshold loaded = cleanup_threshold self ∧
  memory_clusters loaded = memory_clusters self ∧
  memories loaded = (λ e, (e.1, reloaded e.2)) <$> memories self.
Proof.
  intros Hnd loaded. split_and!; try done.
  subst loaded. unfold load_from_file, save_to_file. simpl.
  rewrite (foldl_od_set_rebuild (restore_node now')).
  - simpl. rewrite <- list_fmap_compose. done.
  - simpl. rewrite <- list_fmap_compose. done.
Qed.

(** X4. [load_from_file] of what [save_to_file] wrote replaces whatever the
    loading store held by the saved configuration, type index and
    memories, in their order, each memory as saved except for its decay
    rate, which is computed anew from the saved type and importance. When
    every saved decay rate is the one its type and importance give, the
    saved store comes back as it was. *)
Theorem save_then_load now now' (self other : EnhancedMemorySystem) :
  NoDup (memories self).*1 →
  let loaded := load_from_file now' (Some (save_to_file now self)) other in
  max_memories loaded = max_memories self ∧
  cleanup_threshold loaded = cleanup_threshold self ∧
  memory_clusters loaded = memory_clusters self ∧
  memories loaded = (λ e, (e.1, reloaded e.2)) <$> memories self ∧
  ((∀ key memory, od_get key (memories self) = Some memory →
      decay_rate memory = _calculate_decay_rate (memory_type memory) (importance memory)) →
   loaded = self).
Proof.
  intros Hnd loaded.
  destruct (save_then_load_parts now now' self other Hnd) as (_ & _ & _ & Hm).
  fold loaded in Hm.
  split_and!; try done.
  intros Hrates.
  assert (Hid : memories loaded = memories self).
  { rewrite Hm. clear Hm. apply list_eq. intros i. rewrite list_lookup_fmap.
    destruct (memories self !! i) as [[k m]|] eqn:Hi; [|done]. simpl.
    rewrite reloaded_same; [done|]. apply (Hrates k).
    apply od_get_NoDup; [done|]. by apply list_elem_of_lookup_2 in Hi. }
  clear Hm. subst loaded. unfold load_from_file, save_to_file in *. simpl in *.
  destruct self. simpl in *. by f_equal.
Qed.

(** A memory that was retrieved once comes back with another decay
    rate: the one of its raised importance 0.51, not the one of the
    importance 0.5 it was created with. *)
Lemma save_then_load_witness :
  decay_rate <$> od_get (store_id t0) (memories accessed_once)
  = Some (_calculate_decay_rate "interaction" 0.5) ∧
  (decay_rate <$> od_get (store_id t0)
     (memories (load_from_file (t0 + 5) (Some (save_to_file (t0 + 4) accessed_once))
                 (new_system 5 0.5))))
  = Some (_calculate_decay_rate "interaction" (py_min 1.0 (0.5 + 0.01))) ∧
  _calculate_decay_rate "interaction" 0.5
  < _calculate_decay_rate "interaction" (py_min 1.0 (0.5 + 0.01)).
Proof.
  split; [by vm_compute|]. split; [|by vm_compute].
  destruct (save_then_load (t0 + 4) (t0 + 5) accessed_once (new_system 5 0.5))
    as (_ & _ & _ & Hm & _).
  - apply (bool_decide_unpack _). by vm_compute.
  - rewrite Hm. by vm_compute.
Defined.

(** ** Similarity of anchor contexts *)

Lemma py_sum_bounds (f : string → Q) (keys : list string) :
  (∀ key, key ∈ keys → 0 <= f key <= 1) →
  0 <= py_sum (f <$> keys) <= inject_Z (Z.of_nat (length keys)).
Proof.
  unfold py_sum.
  cut (∀ a, (∀ key, key ∈ keys → 0 <= f key <= 1) →
            a <= foldl Qplus a (f <$> keys) <= a + inject_Z (Z.of_nat (length keys))).
  { intros H Hf. specialize (H 0 Hf). lra. }
  induction keys as [|k keys IH]; intros a Hf.
  - simpl. change (inject_Z (Z.of_nat 0)) with 0. lra.
  - destruct (Hf k) as [H0 H1]; [left|].
    destruct (IH (a + f k)) as [Hlo Hhi].
    { intros key Hkey. apply Hf. by right. }
    assert (Hn : inject_Z (Z.of_nat (length (k :: keys)))
                 == 1 + inject_Z (Z.of_nat (length keys))).
    { cbn [length]. rewrite Nat2Z.inj_succ, <- Z.add_1_l, inject_Z_plus. done. }
    rewrite Hn. cbn [fmap list_fmap foldl].
    change (foldl Qplus (a + f k) (list_fmap _ _ f keys))
      with (foldl Qplus (a + f k) (f <$> keys)).
    set (x := inject_Z (Z.of_nat (length keys))) in *.
    set (y := foldl Qplus (a + f k) (f <$> keys)) in *. lra.
Qed.

Lemma py_sum_ones (f : string → Q) (keys : list string) :
  (∀ key, key ∈ keys → f key == 1) →
  py_sum (f <$> keys) == inject_Z (Z.of_nat (length keys)).
Proof.
  unfold py_sum.
  cut (∀ a, (∀ key, key ∈ keys → f key == 1) →
            foldl Qplus a (f <$> keys) == a + inject_Z (Z.of_nat (length keys))).
  { intros H Hf. rewrite (H 0 Hf). lra. }
  induction keys as [|k keys IH]; intros a Hf.
  - simpl. change (inject_Z (Z.of_nat 0)) with 0. lra.
  - cbn [fmap list_fmap foldl length].
    change (foldl Qplus (a + f k) (list_fmap _ _ f keys))
      with (foldl Qplus (a + f k) (f <$> keys)).
    rewrite IH by (intros key Hkey; apply Hf; by right).
    rewrite (Hf k) by left.
    rewrite Nat2Z.inj_succ, <- Z.add_1_l, inject_Z_plus. change (inject_Z 1) with 1.
    set (x := inject_Z (Z.of_nat (length keys))). lra.
Qed.

Lemma length_pos_Q {A} (l : list A) : l ≠ [] → 0 < inject_Z (Z.of_nat (length l)).
Proof.
  destruct l; [done|]. intros _. change 0 with (inject_Z 0). rewrite <- Zlt_Qlt.
  simpl. lia.
Qed.

(** X5. [_calculate_anchor_similarity] does not depend on the order of its
    arguments; it is 1 for a non-empty context compared with itself;
    and for two contexts whose values lie in [0,1] it lies in [0,1]. *)
Theorem similarity_symmetric_and_bounded (c1 c2 : Context) :
  _calculate_anchor_similarity c1 c2 == _calculate_anchor_similarity c2 c1 ∧
  (c1 ≠ ∅ → _calculate_anchor_similarity c1 c1 == 1) ∧
  ((∀ key value, c1 !! key = Some value → 0 <= value <= 1) →
   (∀ key value, c2 !! key = Some value → 0 <= value <= 1) →
   0 <= _calculate_anchor_similarity c1 c2 <= 1).
Proof.
  split_and!.
  - rewrite !similarity_guarded. unfold mean_similarity.
    rewrite (comm_L (∩) (dom c2) (dom c1)).
    destruct (elements (dom c1 ∩ dom c2)) as [|k keys]; [done|].
    apply Qmult_comp; [|done]. unfold py_sum.
    apply foldl_Qplus_proper; [done|]. intros key.
    by rewrite Qabs_Qminus.
  - intros Hne. rewrite similarity_guarded. unfold mean_similarity.
    assert (Hdom : dom c1 ∩ dom c1 = dom c1) by apply (idemp_L (∩)).
    rewrite Hdom.
    destruct (elements (dom c1)) as [|k keys] eqn:Hk.
    { apply elements_empty_inv in Hk. apply leibniz_equiv in Hk.
      by apply dom_empty_inv_L in Hk. }
    rewrite py_sum_ones.
    + field. pose proof (length_pos_Q (k :: keys) ltac:(done)). lra.
    + intros key _. assert (default 0 (c1 !! key) - default 0 (c1 !! key) == 0) as -> by lra.
      done.
  - intros H1 H2. rewrite similarity_guarded. unfold mean_similarity.
    destruct (elements (dom c1 ∩ dom c2)) as [|k keys] eqn:Hk; [lra|].
    pose proof (length_pos_Q (k :: keys) ltac:(done)) as Hpos.
    destruct (py_sum_bounds
      (λ key, 1 - Qabs (default 0 (c1 !! key) - default 0 (c2 !! key))) (k :: keys))
      as [Hlo Hhi].
    { intros key Hkey. rewrite <- Hk in Hkey.
      apply elem_of_elements, elem_of_intersection in Hkey as [Hk1 Hk2].
      apply elem_of_dom in Hk1 as [v1 Hv1]. apply elem_of_dom in Hk2 as [v2 Hv2].
      rewrite Hv1, Hv2.
      change (default 0 (Some v1)) with v1. change (default 0 (Some v2)) with v2.
      destruct (H1 _ _ Hv1), (H2 _ _ Hv2).
      assert (Qabs (v1 - v2) <= 1) by (apply Qabs_Qle_condition; lra).
      pose proof (Qabs_nonneg (v1 - v2)).
      set (d := Qabs (v1 - v2)) in *. lra. }
    split.
    + apply Qle_shift_div_l; [done|]. lra.
    + apply Qle_shift_div_r; [done|]. lra.
Qed.

(** Fear 0.7 against Fear 0.9: in [0,1]. *)
Lemma similarity_symmetric_and_bounded_witness :
  0 <= _calculate_anchor_similarity fearful {[ "Fear" := 0.9 ]} <= 1 ∧
  _calculate_anchor_similarity fearful fearful == 1.
Proof.
  destruct (similarity_symmetric_and_bounded fearful {[ "Fear" := 0.9 ]})
    as (_ & _ & Hrange).
  destruct (similarity_symmetric_and_bounded fearful fearful) as (_ & Hself & _).
  split.
  - apply Hrange.
    + unfold fearful. intros key value [_ <-]%lookup_singleton_Some.
      split; by apply Qle_bool_imp_le.
    + intros key value [_ <-]%lookup_singleton_Some.
      split; by apply Qle_bool_imp_le.
  - apply Hself. intros H. apply (f_equal (λ m : Context, m !! "Fear")) in H.
    vm_compute in H. discriminate.
Defined.

(** ** Decay of interaction memories *)

Lemma access_all_importance (times : list Z) (self : MemoryNode) :
  0 <= importance self → 0 <= importance (access_all times self).
Proof.
  intros H0. induction times as [|now times IH] using rev_ind; [done|].
  rewrite access_all_snoc. simpl. unfold py_min.
  destruct (Qltb _ _); lra.
Qed.

(** X6. A memory whose type is not pattern, preference or crisis, created
    with an importance in [0,1], never gains strength as the days since
    its last access go by, however often it was accessed before. *)
Theorem interaction_memories_only_fade created content memory_type importance ctx
    (times : list Z) (d1 d2 : Z) :
  memory_type ∉ ["pattern"; "preference"; "crisis"] →
  0 <= importance → importance <= 1 → (d1 ≤ d2)%Z →
  let node := access_all times (__init__ created content memory_type importance ctx) in
  strength_after node d2 <= strength_after node d1.
Proof.
  intros Hty H0 H1 Hd node.
  destruct (access_all_frame times (__init__ created content memory_type importance ctx))
    as (_ & _ & _ & _ & _ & Hrate).
  fold node in Hrate. simpl in Hrate.
  assert (Hbase : default 0.95 (base_rates !! memory_type) = 0.95).
  { unfold base_rates. rewrite !not_elem_of_cons in Hty.
    destruct Hty as (Hp & Hpr & Hc & _).
    destruct (decide (memory_type = "interaction")) as [->|Hi]; [by vm_compute|].
    rewrite !lookup_insert_ne by done. by rewrite lookup_singleton_ne. }
  assert (Hr : decay_rate node == 0.95 + importance * 0.05).
  { rewrite Hrate. unfold _calculate_decay_rate. by rewrite Hbase. }
  apply strength_nonincreasing; [|lra|lra|done].
  by apply access_all_importance.
Qed.

(** An interaction memory of importance 0.5, retrieved twice. *)
Lemma interaction_memories_only_fade_witness :
  let node := access_all [one_day; (2 * one_day)%Z]
                (__init__ 0 "note" "interaction" 0.5 None) in
  strength_after node 7 <= strength_after node 0.
Proof.
  apply (interaction_memories_only_fade 0 "note" "interaction" 0.5 None
           [one_day; (2 * one_day)%Z] 0 7).
  - apply (bool_decide_unpack _). by vm_compute.
  - by vm_compute.
  - by vm_compute.
  - done.
Defined.

(** ** Storing under an id that may be taken *)

Lemma store_memory_get now content memory_type importance ctx self :
  NoDup (memories self).*1 →
  let node := __init__ now content memory_type importance ctx in
  let stored := store_memory now content memory_type importance ctx self in
  NoDup (memories stored.2).*1 ∧
  (cleanup_threshold self <= importance →
   od_get (store_id now) (memories stored.2) = Some node) ∧
  (∀ key memory, od_get key (memories stored.2) = Some memory →
     (key = store_id now ∧ memory = node) ∨
     (key ≠ store_id now ∧ od_get key (memories self) = Some memory)) ∧
  (∀ key memory, key ≠ store_id now →
     od_get key (memories self) = Some memory →
     cleanup_threshold self <= get_current_strength now memory →
     od_get key (memories stored.2) = Some memory) ∧
  cleanup_threshold stored.2 = cleanup_threshold self.
Proof.
  intros Hnd node stored.
  destruct (store_memory_before_cleanup now content memory_type importance ctx self)
    as [clusters Hstored].
  cbv zeta in Hstored. fold node in Hstored.
  change stored.2 with (store_memory now content memory_type importance ctx self).2.
  clear stored.
  set (self1 := {| max_memories := max_memories self;
                   cleanup_threshold := cleanup_threshold self;
                   memories := od_set (store_id now) node (memories self);
                   memory_clusters := clusters |}) in *.
  assert (Hnd1 : NoDup (memories self1).*1) by (by apply od_set_NoDup).
  assert (Hnode : cleanup_threshold self <= importance →
                  cleanup_threshold self <= get_current_strength now node).
  { intros H. subst node. by rewrite fresh_node_strength. }
  clearbody node.
  destruct (cleanup_filter now self1 Hnd1) as (Hfilter & Hclean & _ & Hthr).
  assert (Hget1 : ∀ key memory, od_get key (memories self1) = Some memory ↔
            (key = store_id now ∧ memory = node) ∨
            (key ≠ store_id now ∧ od_get key (memories self) = Some memory)).
  { intros key memory. simpl. destruct (decide (store_id now = key)) as [<-|Hne].
    - rewrite od_get_set. split; [intros [= <-]; by left|].
      intros [[_ ->]|[? _]]; done.
    - rewrite od_get_set_ne by done. split; [intros ?; right; by split|].
      intros [[-> _]|[_ ?]]; done. }
  destruct (_ <? _)%Z; rewrite Hstored; clear Hstored.
  - split_and!.
    + rewrite Hfilter. by apply filter_keys_NoDup.
    + intros H. apply Hclean. split; [|by apply Hnode]. apply Hget1. by left.
    + intros key memory [Hget _]%Hclean. by apply Hget1.
    + intros key memory Hne Hget Hs. apply Hclean. split; [|done].
      apply Hget1. by right.
    + done.
  - split_and!.
    + done.
    + intros _. apply Hget1. by left.
    + intros key memory Hget. by apply Hget1.
    + intros key memory Hne Hget _. apply Hget1. by right.
    + done.
Qed.

End MemoryExtras.

(** * The session with memory *)
Module SessionExtras.
Import Memory MemoryProofs MemoryExtras MemorySession.

Lemma detect_pattern_cases user_input :
  detect_pattern user_input = ("crisis", 0.9) ∨
  detect_pattern user_input = ("preference", 0.7) ∨
  detect_pattern user_input = ("interaction", 0.5).
Proof.
  unfold detect_pattern.
  destruct (any_keyword crisis_keywords _); [by left|].
  destruct (any_keyword preference_keywords _); [right; by left | right; by right].
Qed.

Lemma detected_importance user_input :
  (detect_pattern user_input).1 ≠ "interaction" → 0.7 <= (detect_pattern user_input).2.
Proof.
  destruct (detect_pattern_cases user_input) as [-> | [-> | ->]]; simpl; [| |done].
  - intros _. by apply Qle_bool_imp_le.
  - intros _. by apply Qle_bool_imp_le.
Qed.

Lemma same_day_strength now1 now2 content memory_type importance ctx :
  (now1 ≤ now2 < now1 + one_day)%Z →
  get_current_strength now2 (__init__ now1 content memory_type importance ctx) == importance.
Proof.
  intros H. unfold get_current_strength, strength_after, timedelta_days. simpl.
  rewrite Z.div_small by (unfold one_day in H; lia). simpl. lra.
Qed.

(** X7. When [process_input] detects a keyword and its two stores fall in
    the same millisecond, the id it returns is that of the interaction
    it stored first, but the store holds the pattern memory under that
    id: the interaction has been overwritten. *)
Theorem process_input_same_millisecond now1 now2 now3 user_input response self :
  NoDup (memories (memory_system self)).*1 →
  store_id now1 = store_id now2 →
  (detect_pattern user_input).1 ≠ "interaction" →
  let out := process_input now1 now2 now3 user_input response self in
  let pattern :=
    __init__ now2 ("Pattern: " +:+ (detect_pattern user_input).1 +:+ " - " +:+ user_input)
      (detect_pattern user_input).1 (detect_pattern user_input).2 (Some (core self)) in
  out.1.1.1 = store_id now1 ∧
  (∀ memory, od_get out.1.1.1 (memories (memory_system out.1.2)) = Some memory →
             memory = pattern) ∧
  (cleanup_threshold (memory_system self) <= 0.7 →
   od_get out.1.1.1 (memories (memory_system out.1.2)) = Some pattern).
Proof.
  intros Hnd Hsame Hdetected out pattern.
  pose proof (detected_importance user_input Hdetected) as Himp.
  subst out pattern. unfold process_input, _detect_and_store_patterns.
  destruct (detect_pattern user_input) as [memory_type importance].
  cbn [fst snd memory_system core] in *.
  rewrite decide_True by done. cbn [fst snd memory_system core].
  set (content1 := "User: " +:+ user_input +:+ newline +:+ "Response: " +:+ response).
  set (content2 := "Pattern: " +:+ memory_type +:+ " - " +:+ user_input).
  destruct (store_memory_get now1 content1 "interaction" 0.5 (Some (core self))
              (memory_system self) Hnd) as (Hnd1 & _ & _ & _ & Hthr1).
  set (system1 := (store_memory now1 content1 "interaction" 0.5 (Some (core self))
                     (memory_system self)).2) in *.
  destruct (store_memory_get now2 content2 memory_type importance (Some (core self))
              system1 Hnd1) as (_ & Hget & Hinv & _ & _).
  split; [done|].
  change (store_memory now1 content1 "interaction" 0.5 (Some (core self))
            (memory_system self)).1 with (store_id now1).
  rewrite Hsame. split.
  - intros memory Hm. apply Hinv in Hm as [[_ ->]|[Hne _]]; done.
  - intros Hthr. apply Hget. rewrite Hthr1. by apply (Qle_trans _ 0.7).
Qed.

(** X8. When the two stores of [process_input] get different ids on the
    same day and the threshold is at most 0.5, the returned id leads to
    the interaction memory, and a detected pattern sits beside it under
    the id of the second store. *)
Theorem process_input_records_both now1 now2 now3 user_input response self :
  NoDup (memories (memory_system self)).*1 →
  store_id now1 ≠ store_id now2 →
  (now1 ≤ now2 < now1 + one_day)%Z →
  cleanup_threshold (memory_system self) <= 0.5 →
  let out := process_input now1 now2 now3 user_input response self in
  let interaction :=
    __init__ now1 ("User: " +:+ user_input +:+ newline +:+ "Response: " +:+ response)
      "interaction" 0.5 (Some (core self)) in
  let pattern :=
    __init__ now2 ("Pattern: " +:+ (detect_pattern user_input).1 +:+ " - " +:+ user_input)
      (detect_pattern user_input).1 (detect_pattern user_input).2 (Some (core self)) in
  out.1.1.2 = core self ∧
  od_get out.1.1.1 (memories (memory_system out.1.2)) = Some interaction ∧
  ((detect_pattern user_input).1 ≠ "interaction" →
   od_get (store_id now2) (memories (memory_system out.1.2)) = Some pattern).
Proof.
  intros Hnd Hdiff Hday Hthr out interaction pattern.
  assert (Himp : (detect_pattern user_input).1 ≠ "interaction" →
                 0.7 <= (detect_pattern user_input).2) by apply detected_importance.
  subst out pattern. unfold process_input, _detect_and_store_patterns.
  destruct (detect_pattern user_input) as [memory_type importance].
  cbn [fst snd memory_system core] in *.
  set (content1 := "User: " +:+ user_input +:+ newline +:+ "Response: " +:+ response) in *.
  set (content2 := "Pattern: " +:+ memory_type +:+ " - " +:+ user_input).
  destruct (store_memory_get now1 content1 "interaction" 0.5 (Some (core self))
              (memory_system self) Hnd) as (Hnd1 & Hget1 & _ & _ & Hthr1).
  fold interaction in Hget1. specialize (Hget1 Hthr).
  set (system1 := (store_memory now1 content1 "interaction" 0.5 (Some (core self))
                     (memory_system self)).2) in *.
  destruct (decide (memory_type ≠ "interaction")) as [Hdetected|Hnone];
    cbn [fst snd memory_system core].
  - destruct (store_memory_get now2 content2 memory_type importance (Some (core self))
                system1 Hnd1) as (_ & Hget2 & _ & Hkeep & _).
    split; [done|]. split.
    + apply Hkeep; [done | done |]. rewrite Hthr1. subst interaction.
      by rewrite same_day_strength.
    + intros _. apply Hget2. rewrite Hthr1.
      apply (Qle_trans _ 0.5); [done|]. apply (Qle_trans _ 0.7); [|by apply Himp].
      by apply Qle_bool_imp_le.
  - split; [done|]. split; [done|]. intros H. by destruct Hnone.
Qed.

(** X9. What [process_input] writes to the memory file, a new session on
    that file reads back: the same ids in the same order, each memory as
    it was except for a decay rate computed anew. *)
Theorem written_file_restores now1 now2 now3 now4 user_input response persona self :
  NoDup (memories (memory_system self)).*1 →
  memory_file self ≠ "" →
  let out := process_input now1 now2 now3 user_input response self in
  let session := new_session persona (Some (memory_file self)) now4 out.2 in
  is_Some out.2 ∧
  memory_file session = memory_file self ∧
  memories (memory_system session) =
    (λ e, (e.1, reloaded e.2)) <$> memories (memory_system out.1.2) ∧
  memory_clusters (memory_system session) = memory_clusters (memory_system out.1.2) ∧
  cleanup_threshold (memory_system session) = cleanup_threshold (memory_system out.1.2) ∧
  max_memories (memory_system session) = max_memories (memory_system out.1.2).
Proof.
  intros Hnd Hfile out session.
  assert (Hnd' : NoDup (memories (memory_system out.1.2)).*1).
  { subst out. unfold process_input, _detect_and_store_patterns.
    destruct (detect_pattern user_input) as [memory_type importance].
    cbn [fst snd memory_system core].
    destruct (store_memory_get now1
                ("User: " +:+ user_input +:+ newline +:+ "Response: " +:+ response)
                "interaction" 0.5 (Some (core self))
                (memory_system self) Hnd) as (Hnd1 & _).
    destruct (decide (memory_type ≠ "interaction")); cbn [fst snd memory_system core];
      [|done].
    by destruct (store_memory_get now2
                   ("Pattern: " +:+ memory_type +:+ " - " +:+ user_input)
                   memory_type importance (Some (core self)) _ Hnd1) as (? & _). }
  assert (Hfile' : memory_file out.1.2 = memory_file self).
  { subst out. unfold process_input, _detect_and_store_patterns.
    destruct (detect_pattern user_input) as [memory_type importance].
    cbn [fst snd]. by destruct (decide (memory_type ≠ "interaction")). }
  assert (Hout : out.2 = Some (save_to_file now3 (memory_system out.1.2))).
  { subst out. unfold process_input. cbn [fst snd].
    fold (process_input now1 now2 now3 user_input response self).
    change (_detect_and_store_patterns now2 user_input response _)
      with (process_input now1 now2 now3 user_input response self).1.2.
    by rewrite Hfile', decide_False. }
  subst session. rewrite Hout. clearbody out. split; [by eexists|].
  unfold new_session. rewrite !decide_False by done. cbn [memory_file memory_system].
  split; [done|].
  destruct (save_then_load_parts now3 now4 (memory_system out.1.2) (new_system 1000 0.1) Hnd')
    as (Hmax & Hthr & Hcl & Hm). done.
Qed.

(** A crisis word in a fresh session: the returned id holds the crisis
    pattern. *)
Lemma process_input_same_millisecond_witness :
  let out := process_input t0 (t0 + 1) (t0 + 2) "I need help" "ok"
               (new_session None None t0 None) in
  memory_type <$> od_get out.1.1.1 (memories (memory_system out.1.2)) = Some "crisis".
Proof.
  destruct (process_input_same_millisecond t0 (t0 + 1) (t0 + 2) "I need help" "ok"
              (new_session None None t0 None)) as (_ & _ & H).
  - apply (bool_decide_unpack _). by vm_compute.
  - by vm_compute.
  - by vm_compute.
  - intros out. subst out. rewrite H; [done|]. by apply Qle_bool_imp_le.
Defined.

(** The same input with the second store a millisecond later. *)
Lemma process_input_records_both_witness :
  let out := process_input t0 (t0 + 1000) (t0 + 2000) "I need help" "ok"
               (new_session None None t0 None) in
  memory_type <$> od_get out.1.1.1 (memories (memory_system out.1.2)) = Some "interaction".
Proof.
  destruct (process_input_records_both t0 (t0 + 1000) (t0 + 2000) "I need help" "ok"
              (new_session None None t0 None)) as (_ & H & _).
  - apply (bool_decide_unpack _). by vm_compute.
  - by vm_compute.
  - by vm_compute.
  - by apply Qle_bool_imp_le.
  - intros out. subst out. by rewrite H.
Defined.

(** The default file name of a session without persona. *)
Lemma written_file_restores_witness :
  let out := process_input t0 (t0 + 1000) (t0 + 2000) "hello" "hi"
               (new_session None None t0 None) in
  (memories (memory_system
     (new_session None (Some "memories_default.json") (t0 + 3000) out.2))).*1
  = [store_id t0].
Proof.
  destruct (written_file_restores t0 (t0 + 1000) (t0 + 2000) (t0 + 3000) "hello" "hi" None
              (new_session None None t0 None)) as (_ & _ & H & _).
  - apply (bool_decide_unpack _). by vm_compute.
  - by vm_compute.
  - intros out. subst out.
    change "memories_default.json" with (memory_file (new_session None None t0 None)).
    rewrite H. by vm_compute.
Defined.

(** ** Retrieval through the session *)

Lemma retrieve_reinforces now query_type ctx limit self :
  let out := retrieve_memories now query_type ctx limit self in
  Forall (λ r, ∃ key memory,
            (key, memory) ∈ memories self ∧
            cleanup_threshold self <= get_current_strength now memory ∧
            node r = access now memory ∧
            current_strength r == py_min 1.0 (importance memory + 0.01)) out.1 ∧
  (memories out.2).*1 = (memories self).*1 ∧
  memory_clusters out.2 = memory_clusters self.
Proof.
  intros out. subst out. unfold retrieve_memories. cbn [fst snd memories memory_clusters].
  split; [|split; [apply reinforce_keys | done]].
  apply Forall_fmap, Forall_forall. intros [score [key memory]] Hc. cbn [fst snd].
  assert (Hin : (score, (key, memory)) ∈ candidates now query_type ctx self).
  { rewrite <- sort_desc_perm. revert Hc. unfold py_slice_to.
    destruct (0 <=? limit)%Z; apply sublist_subseteq, sublist_take. }
  apply candidates_elem in Hin as [Hin Hscore].
  apply candidate_score_spec in Hscore as [Hthr _].
  exists key, memory. split_and!; try done.
  cbn [current_strength]. unfold get_current_strength, strength_after, timedelta_days.
  cbn [last_accessed importance decay_rate access fst snd].
  rewrite Z.sub_diag. change (0 `div` 86400000000)%Z with 0%Z.
  change (decay_rate memory ^ 0) with 1. lra.
Qed.

(** X10. Whatever the input, [get_relevant_context] returns memories of the
    store that were not below the threshold, each after [access()], and
    reports as its current strength the raised importance, without
    decay; the keys, the type index and the anchor state stay as they
    were. *)
Theorem relevant_context_reports_reinforced now current_input limit self :
  let out := get_relevant_context now current_input limit self in
  Forall (λ r, ∃ key memory,
            (key, memory) ∈ memories (memory_system self) ∧
            cleanup_threshold (memory_system self) <= get_current_strength now memory ∧
            node r = access now memory ∧
            current_strength r == py_min 1.0 (importance memory + 0.01)) out.1 ∧
  (memories (memory_system out.2)).*1 = (memories (memory_system self)).*1 ∧
  memory_clusters (memory_system out.2) = memory_clusters (memory_system self) ∧
  core out.2 = core self.
Proof.
  intros out. subst out. unfold get_relevant_context.
  cbn [fst snd memory_system core].
  destruct (contains "crisis" _); [|destruct (any_keyword recall_keywords _)].
  all: match goal with |- context [retrieve_memories ?n ?q ?c ?l ?s] =>
         destruct (retrieve_reinforces n q c l s) as (H1 & H2 & H3) end.
  all: done.
Qed.

(** ** Keyword detection *)

Lemma prefix_spec word text :
  String.prefix word text = true ↔ ∃ post, text = word +:+ post.
Proof.
  revert text. induction word as [|c word IH]; intros text.
  - split; [intros _; by exists text | intros _; by destruct text].
  - destruct text as [|c' text]; simpl.
    + split; [done | by intros [post ?]].
    + destruct (ascii_dec c c') as [->|Hne].
      * rewrite IH. split; intros [post H]; exists post; [by rewrite H | by injection H].
      * split; [done | intros [post H]; injection H; congruence].
Qed.

Lemma contains_spec word text :
  contains word text = true ↔ ∃ pre post, text = pre +:+ word +:+ post.
Proof.
  induction text as [|c text IH].
  - cbn [contains]. rewrite orb_false_r, prefix_spec. split.
    + intros [post H]. by exists "", post.
    + intros ([|c pre] & post & H); [by exists post | done].
  - cbn [contains]. rewrite orb_true_iff, prefix_spec, IH. split.
    + intros [[post H]|(pre & post & H)].
      * by exists "", post.
      * exists (String c pre), post. simpl. by rewrite H.
    + intros ([|c' pre] & post & H).
      * left. by exists post.
      * right. exists pre, post. simpl in H. by injection H.
Qed.



End SessionExtras.

(** * The mixer: dominant component, goal, bounds, root nodes *)
Module MixerExtras.
Import Mixer MixerProofs.

(** ** Rounding *)

Lemma round_half_even_lower (n : Z) (x : Q) :
  inject_Z n <= x → (n ≤ round_half_even x)%Z.
Proof.
  intros Hn. assert (Hf : (n ≤ Qfloor x)%Z).
  { rewrite <- (Qfloor_Z n). by apply Qfloor_resp_le. }
  unfold round_half_even.
  destruct (Qltb _ _); [done|]. destruct (Qltb _ _); [lia|].
  destruct (Z.even _); lia.
Qed.

Lemma round_half_even_upper (n : Z) (x : Q) :
  x <= inject_Z n → (round_half_even x ≤ n)%Z.
Proof.
  intros Hn. assert (Hf : (Qfloor x ≤ n)%Z).
  { rewrite <- (Qfloor_Z n). by apply Qfloor_resp_le. }
  assert (Hup : 0 < x - inject_Z (Qfloor x) → (Qfloor x + 1 ≤ n)%Z).
  { intros Hpos. assert (Hlt : inject_Z (Qfloor x) < inject_Z n) by lra.
    rewrite <- Zlt_Qlt in Hlt. lia. }
  unfold round_half_even.
  destruct (Qltb _ _) eqn:E1; [done|]. apply Qltb_false in E1.
  assert (Hpos : 0 < x - inject_Z (Qfloor x)) by lra.
  destruct (Qltb _ _); [by apply Hup|].
  destruct (Z.even _); [done | by apply Hup].
Qed.

Lemma py_round3_bounds (x : Q) : 0 <= x → x <= 1.01 → 0 <= py_round3 x <= 1.01.
Proof.
  intros H0 H1. unfold py_round3. rewrite Qred_correct.
  assert (Hlo : (0 ≤ round_half_even (x * 1000))%Z).
  { apply round_half_even_lower. change (inject_Z 0) with 0. lra. }
  assert (Hhi : (round_half_even (x * 1000) ≤ 1010)%Z).
  { apply round_half_even_upper. change (inject_Z 1010) with 1010. lra. }
  rewrite Zle_Qle in Hlo, Hhi.
  change (inject_Z 0) with 0 in Hlo. change (inject_Z 1010) with 1010 in Hhi.
  set (r := inject_Z (round_half_even (x * 1000))) in *.
  split.
  - apply Qle_shift_div_l; [done | lra].
  - apply Qle_shift_div_r; [done | lra].
Qed.

Lemma weighted_sum_bounds {A} (value weight : A → Q) (l : list A) (a b : Q) :
  Forall (λ x, 0 <= value x <= 1 ∧ 0 <= weight x) l →
  0 <= a → a <= b →
  0 <= foldl Qplus a ((λ x, value x * weight x) <$> l) ∧
  foldl Qplus a ((λ x, value x * weight x) <$> l) <= foldl Qplus b (weight <$> l).
Proof.
  intros Hl. revert a b. induction Hl as [|x l [[Hv0 Hv1] Hw] _ IH]; intros a b Ha Hab.
  - simpl. split; [done|done].
  - cbn [fmap list_fmap foldl]. apply IH.
    + assert (0 <= value x * weight x) by (by apply Qmult_le_0_compat). lra.
    + assert (value x * weight x <= 1 * weight x) by (by apply Qmult_le_compat_r).
      set (v := value x * weight x) in *. lra.
Qed.

Lemma elem_of_concat {A} (x : A) (ls : list (list A)) :
  x ∈ concat ls ↔ ∃ l, x ∈ l ∧ l ∈ ls.
Proof.
  induction ls as [|l ls IH]; simpl.
  - split; [intros H; by apply elem_of_nil in H | intros (l & _ & H); by apply elem_of_nil in H].
  - rewrite elem_of_app, IH. split.
    + intros [H|(l' & H1 & H2)]; [exists l; split; [done|left] | exists l'; split; [done | by right]].
    + intros (l' & H1 & H2). apply elem_of_cons in H2 as [->|H2]; [by left | right; by exists l'].
Qed.

Section mixer_more.
Variable base : gmap string Profile.
Variable list_of_set : list string → list string.
Implicit Types (combinations : Combinations) (key : string).

(** The other steps behind a successful call. *)
Lemma mix_inr_parts uuid4 now_iso combinations custom_goal m :
  mix_personalities base list_of_set uuid4 now_iso combinations custom_goal = inr m →
  match custom_goal with
  | Some g => if decide (g = "") then _generate_mixed_goal base combinations else mret g
  | None => _generate_mixed_goal base combinations
  end = inr (mixed_goal_statement m) ∧
  _generate_mixed_persona_style base combinations = inr (mixed_persona_style m) ∧
  (∃ all_nodes, all_root_nodes base combinations = inr all_nodes ∧
                mixed_root_nodes m = list_of_set all_nodes) ∧
  _generate_mixed_examples base combinations = inr (mixed_examples m).
Proof.
  unfold mix_personalities.
  destruct (Qltb 0.01 _); [done|].
  intros H. apply bind_inr in H as (goal & Hgoal & H).
  apply bind_inr in H as (style & Hstyle & H).
  apply bind_inr in H as (core & _ & H).
  apply bind_inr in H as (pers & _ & H).
  apply bind_inr in H as (nodes & Hnodes & H).
  apply bind_inr in H as (exs & Hexs & [= <-]). cbn.
  split_and!; try done. by exists nodes.
Qed.

(** ** The dominant component *)

Lemma max_by_weight_first best rest :
  ∃ before after,
    best :: rest = before ++ max_by_weight best rest :: after ∧
    Forall (λ c, c.2 < (max_by_weight best rest).2) before ∧
    Forall (λ c, c.2 <= (max_by_weight best rest).2) after.
Proof.
  revert best. induction rest as [|c rest IH]; intros best; cbn [max_by_weight].
  - exists [], []. split; [done|]. split; constructor.
  - destruct (Qltb best.2 c.2) eqn:E.
    + apply Qltb_true in E. destruct (IH c) as (before & after & Heq & Hb & Ha).
      remember (max_by_weight c rest) as d.
      exists (best :: before), after. split; [by rewrite Heq|]. split; [|done].
      constructor; [|done].
      destruct before as [|b before]; simpl in Heq.
      * injection Heq as Hc _. by rewrite <- Hc.
      * injection Heq as Hc _. apply Forall_cons in Hb as [Hb _]. rewrite <- Hc in Hb.
        by apply (Qlt_trans _ c.2).
    + apply Qltb_false in E. destruct (IH best) as (before & after & Heq & Hb & Ha).
      remember (max_by_weight best rest) as d.
      destruct before as [|b before]; simpl in Heq.
      * injection Heq as Hbest Hrest. exists [], (c :: after).
        split; [simpl; by rewrite <- Hbest, Hrest|]. split; [constructor|].
        constructor; [by rewrite <- Hbest | done].
      * injection Heq as Hbest Hrest. exists (best :: c :: before), after.
        split; [simpl; by rewrite Hrest|]. split; [|done].
        apply Forall_cons in Hb as [Hb Hb']. rewrite <- Hbest in Hb.
        constructor; [done|]. constructor; [|done]. by apply (Qle_lt_trans _ best.2).
Qed.

(** X12. A mix that succeeds has a dominant component: the first of the
    components of largest weight. Its profile gives the examples (the
    first two) and the persona style, to which the names of the other
    components of weight above 0.2 are appended. *)
Theorem dominant_component_leads uuid4 now_iso combinations custom_goal m :
  mix_personalities base list_of_set uuid4 now_iso combinations custom_goal = inr m →
  ∃ before dominant after profile style,
    combinations = before ++ dominant :: after ∧
    Forall (λ c, c.2 < dominant.2) before ∧
    Forall (λ c, c.2 <= dominant.2) after ∧
    base !! dominant.1 = Some profile ∧
    persona_style profile = Some style ∧
    mixed_examples m = take 2 (default [] (examples profile)) ∧
    let other_traits :=
      (filter (λ c : string * Q, c.1 ≠ dominant.1 ∧ Qltb 0.2 c.2 = true) combinations).*1 in
    mixed_persona_style m =
      if decide (other_traits = []) then style
      else style +:+ " Enhanced with " +:+ join ", " other_traits +:+ " characteristics.".
Proof.
  intros (_ & Hstyle & _ & Hexs)%mix_inr_parts.
  unfold _generate_mixed_persona_style in Hstyle.
  unfold _generate_mixed_examples in Hexs.
  apply bind_inr in Hstyle as (dominant & Hd & Hstyle).
  apply bind_inr in Hstyle as (profile & Hp%getitem_inr & Hstyle).
  apply bind_inr in Hstyle as (style & Hs%getitem_inr & Hstyle).
  rewrite Hd in Hexs. cbn in Hexs. rewrite Hp in Hexs. cbn in Hexs.
  injection Hexs as Hexs.
  destruct combinations as [|c rest]; [done|]. injection Hd as Hd.
  destruct (max_by_weight_first c rest) as (before & after & Heq & Hb & Ha).
  rewrite Hd in Heq, Hb, Ha.
  exists before, dominant, after, profile, style. split_and!; try done.
  cbv zeta.
  destruct ((filter _ (c :: rest)).*1) as [|t ts] eqn:Hother.
  - rewrite decide_True by done. by injection Hstyle.
  - rewrite decide_False by done. by injection Hstyle.
Qed.

(** ** The goal statement *)

(** X13. A custom goal that is not the empty string replaces the generated
    goal statement and nothing else; the empty string counts as no
    custom goal. *)
Theorem custom_goal_replaces_only_the_goal uuid4 now_iso combinations goal m :
  goal ≠ "" →
  mix_personalities base list_of_set uuid4 now_iso combinations None = inr m →
  mix_personalities base list_of_set uuid4 now_iso combinations (Some goal) =
    inr {| seed_id := seed_id m; created := created m;
           mixed_goal_statement := goal;
           mixed_persona_style := mixed_persona_style m;
           mixed_core_vector_default := mixed_core_vector_default m;
           mixed_personality_vector := mixed_personality_vector m;
           consequence_drift_lexicon := consequence_drift_lexicon m;
           mixed_root_nodes := mixed_root_nodes m;
           reply_hygiene := reply_hygiene m;
           mix_components := mix_components m;
           mixed_examples := mixed_examples m |} ∧
  mix_personalities base list_of_set uuid4 now_iso combinations (Some "") = inr m.
Proof.
  intros Hgoal. unfold mix_personalities.
  destruct (Qltb 0.01 _); [done|].
  rewrite decide_False by done. rewrite decide_True by done.
  intros H. split; [|done].
  apply bind_inr in H as (goal0 & _ & H). revert H. cbn [mbind sum_error_bind mret sum_error_ret].
  destruct (_generate_mixed_persona_style base combinations); [done|]. cbn [mbind sum_error_bind mret sum_error_ret].
  destruct (mix_vector base "core_vector_default" core_vector_default core_keys
              combinations); [done|]. cbn [mbind sum_error_bind mret sum_error_ret].
  destruct (mix_vector base "personality_vector" personality_vector personality_keys
              combinations); [done|]. cbn [mbind sum_error_bind mret sum_error_ret].
  destruct (all_root_nodes base combinations); [done|]. cbn [mbind sum_error_bind mret sum_error_ret].
  destruct (_generate_mixed_examples base combinations); [done|]. cbn [mbind sum_error_bind mret sum_error_ret].
  by intros [= <-].
Qed.

Lemma concat_all_nil {A} (ls : list (list A)) : Forall (λ l, l = []) ls → concat ls = [].
Proof. induction 1 as [|l ls -> _ IH]; [done|]. by simpl. Qed.

(** X14. When no component weighs more than 0.3, the generated goal names
    no component at all. *)
Theorem goal_without_significant_component uuid4 now_iso combinations m :
  (∀ c, c ∈ combinations → c.2 <= 0.3) →
  mix_personalities base list_of_set uuid4 now_iso combinations None = inr m →
  mixed_goal_statement m = "Combine  in a unified approach.".
Proof.
  intros Hlow (Hgoal & _)%mix_inr_parts.
  unfold _generate_mixed_goal in Hgoal.
  apply bind_inr in Hgoal as (goal_elements & Hel%for_each_inr & [= <-]).
  rewrite concat_all_nil; [done|].
  clear -Hel Hlow. induction Hel as [|c y cs ys Hy _ IH]; [constructor|].
  constructor.
  - apply bind_inr in Hy as (p & _ & Hy). apply bind_inr in Hy as (g & _ & Hy).
    rewrite (proj2 (Qltb_false _ _)) in Hy by (apply Hlow; left). by injection Hy.
  - apply IH. intros c' Hc'. apply Hlow. by right.
Qed.

(** ** Bounds on the blended values *)

Lemma blend_bounded vector key combinations wv :
  Qabs (py_sum combinations.*2 - 1.0) <= 0.01 →
  (∀ c, c ∈ combinations → 0 <= c.2) →
  (∀ c profile values k value, c ∈ combinations →
     base !! c.1 = Some profile → vector profile = Some values →
     values !! k = Some value → 0 <= value <= 1) →
  Forall2 (contributes base vector key) combinations wv →
  0 <= _weighted_average wv <= 1.01.
Proof.
  intros Hsum Hw Hv Hwv. unfold _weighted_average.
  assert (Hall : Forall (λ vw : Q * Q, 0 <= vw.1 <= 1 ∧ 0 <= vw.2) wv).
  { clear Hsum. induction Hwv as [|c vw cs wv (p & values & Hp & Hvec & Hval & Hweight) _ IH];
      [constructor|].
    constructor.
    - split; [apply (Hv c p values key); [left|done..]|].
      rewrite Hweight. apply Hw. left.
    - apply IH.
      + intros c' Hc'. apply Hw. by right.
      + intros c' p' values' k v Hc'. apply Hv. by right. }
  assert (Hweights : wv.*2 = combinations.*2).
  { clear -Hwv. induction Hwv as [|c vw cs wv (p & values & _ & _ & _ & Hweight) _ IH];
      [done|]. rewrite !fmap_cons. congruence. }
  destruct (weighted_sum_bounds fst snd wv 0 0 Hall) as [Hlo Hhi]; [done..|].
  change (foldl Qplus 0 (snd <$> wv)) with (py_sum wv.*2) in Hhi.
  rewrite Hweights in Hhi.
  change (foldl Qplus 0 ((λ x : Q * Q, x.1 * x.2) <$> wv))
    with (py_sum ((λ vw : Q * Q, vw.1 * vw.2) <$> wv)) in Hlo, Hhi.
  apply Qabs_Qle_condition in Hsum as [_ Hsum].
  apply py_round3_bounds; [done|].
  set (total := py_sum ((λ vw : Q * Q, vw.1 * vw.2) <$> wv)) in *.
  set (weights := py_sum combinations.*2) in *.
  lra.
Qed.

(** X15. When no weight is negative and the components' values lie between
    0 and 1, every blended value of a mix lies between 0 and 1.01. *)
Theorem blended_values_stay_in_range uuid4 now_iso combinations custom_goal m :
  (∀ c, c ∈ combinations → 0 <= c.2) →
  (∀ c profile values k value, c ∈ combinations →
     base !! c.1 = Some profile →
     core_vector_default profile = Some values ∨ personality_vector profile = Some values →
     values !! k = Some value → 0 <= value <= 1) →
  mix_personalities base list_of_set uuid4 now_iso combinations custom_goal = inr m →
  ∀ key value,
    od_get key (mixed_core_vector_default m) = Some value ∨
    od_get key (mixed_personality_vector m) = Some value →
    0 <= value <= 1.01.
Proof.
  intros Hw Hv Hmix key value Hget.
  pose proof (mix_inr_inv _ _ _ _ _ _ _ Hmix) as (Hsum & Hcore & Hpers).
  destruct Hget as [Hget|Hget].
  - assert (Hkey : key ∈ core_keys).
    { rewrite <- (mix_vector_keys _ _ _ _ _ _ Hcore).
      apply list_elem_of_fmap. exists (key, value). split; [done | by apply od_get_Some]. }
    destruct (mix_vector_lookup _ _ _ _ _ _ _ core_keys_NoDup Hcore Hkey) as (wv & Hwv & Hget').
    rewrite Hget in Hget'. injection Hget' as ->.
    apply (blend_bounded core_vector_default key combinations wv); try done.
    intros c p values k v Hc Hp Hvec. apply (Hv c p values k v Hc Hp). by left.
  - assert (Hkey : key ∈ personality_keys).
    { rewrite <- (mix_vector_keys _ _ _ _ _ _ Hpers).
      apply list_elem_of_fmap. exists (key, value). split; [done | by apply od_get_Some]. }
    destruct (mix_vector_lookup _ _ _ _ _ _ _ personality_keys_NoDup Hpers Hkey)
      as (wv & Hwv & Hget').
    rewrite Hget in Hget'. injection Hget' as ->.
    apply (blend_bounded personality_vector key combinations wv); try done.
    intros c p values k v Hc Hp Hvec. apply (Hv c p values k v Hc Hp). by right.
Qed.

(** ** Root nodes *)

(** X16. Whatever order [list(set(...))] yields, the root nodes of a mix
    are duplicate-free and are exactly the root nodes of the components'
    profiles. *)
Theorem root_nodes_are_the_union uuid4 now_iso combinations custom_goal m :
  (∀ xs, NoDup (list_of_set xs) ∧ ∀ x, x ∈ list_of_set xs ↔ x ∈ xs) →
  mix_personalities base list_of_set uuid4 now_iso combinations custom_goal = inr m →
  NoDup (mixed_root_nodes m) ∧
  ∀ node, node ∈ mixed_root_nodes m ↔
    ∃ c profile nodes, c ∈ combinations ∧ base !! c.1 = Some profile ∧
      memory_scaffolding profile = Some (Some nodes) ∧ node ∈ nodes.
Proof.
  intros Hset (_ & _ & (all_nodes & Hnodes & ->) & _)%mix_inr_parts.
  destruct (Hset all_nodes) as [Hnd Hin]. split; [done|].
  intros node. rewrite Hin. clear Hin Hnd.
  unfold all_root_nodes in Hnodes.
  apply bind_inr in Hnodes as (nodes & Hel%for_each_inr & [= <-]).
  rewrite elem_of_concat. split.
  - intros (l & Hnode & Hl).
    apply list_elem_of_lookup in Hl as [i Hi].
    destruct (Forall2_lookup_r _ _ _ _ _ Hel Hi) as (c & Hc & Hf).
    apply bind_inr in Hf as (p & Hp%getitem_inr & [= <-]).
    destruct (memory_scaffolding p) as [[ns|]|] eqn:Hms; simpl in Hnode.
    + exists c, p, ns. split_and!; try done. by apply list_elem_of_lookup_2 in Hc.
    + by apply elem_of_nil in Hnode.
    + by apply elem_of_nil in Hnode.
  - intros (c & p & ns & Hc & Hp & Hms & Hnode).
    apply list_elem_of_lookup in Hc as [i Hi].
    destruct (Forall2_lookup_l _ _ _ _ _ Hel Hi) as (l & Hl & Hf).
    rewrite Hp in Hf. cbn in Hf. rewrite Hms in Hf. injection Hf as <-.
    exists ns. split; [done|]. by apply list_elem_of_lookup_2 in Hl.
Qed.

End mixer_more.

(** The combination of [create_stoner_genius_skeptic]: artist and
    scientist both weigh 0.4, and a component of largest weight leads. *)
Lemma dominant_component_leads_witness :
  ∃ m dominant,
    mix_personalities load_foundation_personalities remove_dups
      "0b1e7a52-5c1d-4c6e-9a5f-3f2d8e1c7b90" "2025-01-01T00:00:00"
      [("artist", 0.4); ("scientist", 0.4); ("skeptic", 0.2)] None = inr m ∧
    dominant ∈ [("artist", 0.4); ("scientist", 0.4); ("skeptic", 0.2)] ∧
    ∃ profile, load_foundation_personalities !! dominant.1 = Some profile ∧
               mixed_examples m = take 2 (default [] (examples profile)).
Proof.
  destruct (mix_personalities load_foundation_personalities remove_dups
      "0b1e7a52-5c1d-4c6e-9a5f-3f2d8e1c7b90" "2025-01-01T00:00:00"
      [("artist", 0.4); ("scientist", 0.4); ("skeptic", 0.2)] None) as [e|m] eqn:Hmix.
  { vm_compute in Hmix. discriminate. }
  destruct (dominant_component_leads _ _ _ _ _ _ _ Hmix)
    as (before & dominant & after & profile & style & Heq & _ & _ & Hp & _ & Hexs & _).
  exists m, dominant. split; [reflexivity|]. split.
  - rewrite Heq. apply elem_of_app. right. left.
  - exists profile. split; [exact Hp | exact Hexs].
Defined.

(** Scientist and artist with a goal of the caller's. *)
Lemma custom_goal_replaces_only_the_goal_witness :
  ∃ m, mix_personalities load_foundation_personalities remove_dups
         "0b1e7a52-5c1d-4c6e-9a5f-3f2d8e1c7b90" "2025-01-01T00:00:00"
         [("scientist", 0.6); ("artist", 0.4)] (Some "Stay curious.") = inr m ∧
       mixed_goal_statement m = "Stay curious.".
Proof.
  destruct (mix_personalities load_foundation_personalities remove_dups
      "0b1e7a52-5c1d-4c6e-9a5f-3f2d8e1c7b90" "2025-01-01T00:00:00"
      [("scientist", 0.6); ("artist", 0.4)] None) as [e|m] eqn:Hmix.
  { vm_compute in Hmix. discriminate. }
  destruct (custom_goal_replaces_only_the_goal _ _ _ _ _ "Stay curious." m
              ltac:(done) Hmix) as [H _].
  eexists. split; [exact H | reflexivity].
Defined.

(** Four components of weight 0.25 each. *)
Lemma goal_without_significant_component_witness :
  ∃ m, mix_personalities load_foundation_personalities remove_dups
         "0b1e7a52-5c1d-4c6e-9a5f-3f2d8e1c7b90" "2025-01-01T00:00:00"
         [("scientist", 0.25); ("artist", 0.25); ("skeptic", 0.25); ("scientist", 0.25)]
         None = inr m ∧
       mixed_goal_statement m = "Combine  in a unified approach.".
Proof.
  destruct (mix_personalities load_foundation_personalities remove_dups
      "0b1e7a52-5c1d-4c6e-9a5f-3f2d8e1c7b90" "2025-01-01T00:00:00"
      [("scientist", 0.25); ("artist", 0.25); ("skeptic", 0.25); ("scientist", 0.25)]
      None) as [e|m] eqn:Hmix.
  { vm_compute in Hmix. discriminate. }
  exists m. split; [reflexivity|].
  refine (goal_without_significant_component _ _ _ _ _ m _ Hmix).
  clear. intros c Hc.
  repeat (apply elem_of_cons in Hc as [->|Hc]; [by apply Qle_bool_imp_le|]).
  by apply elem_of_nil in Hc.
Defined.

Lemma loaded_profiles name profile :
  load_foundation_personalities !! name = Some profile →
  profile ∈ [scientist; artist; skeptic; empty_profile].
Proof.
  unfold load_foundation_personalities. cbn [foldl].
  unfold _get_foundation_personality.
  rewrite !lookup_insert_Some, lookup_empty.
  intros [[_ <-]|[_ [[_ <-]|[_ [[_ <-]|[_ [[_ <-]|[_ [[_ <-]|[_ ?]]]]]]]]]]; [..|done].
  all: match goal with |- ?p ∈ _ =>
         first [ replace p with scientist by (vm_compute; reflexivity)
               | replace p with artist by (vm_compute; reflexivity)
               | replace p with skeptic by (vm_compute; reflexivity)
               | replace p with empty_profile by (vm_compute; reflexivity) ]
       end.
  all: repeat first [left | right].
Qed.

Lemma foundation_values_in_range name profile values key value :
  load_foundation_personalities !! name = Some profile →
  core_vector_default profile = Some values ∨ personality_vector profile = Some values →
  values !! key = Some value → 0 <= value <= 1.
Proof.
  intros Hp%loaded_profiles Hvec Hvalue.
  assert (Hall : map_Forall (λ _ v, Qle_bool 0 v && Qle_bool v 1 = true) values).
  { repeat (apply elem_of_cons in Hp as [->|Hp];
      [destruct Hvec as [Hvec|Hvec]; injection Hvec as <-;
       apply (bool_decide_unpack _); by vm_compute|]).
    apply elem_of_cons in Hp as [->|Hp]; [by destruct Hvec | by apply elem_of_nil in Hp]. }
  apply Hall in Hvalue. apply andb_true_iff in Hvalue as [H0 H1].
  split; by apply Qle_bool_imp_le.
Qed.

(** Scientist at 0.6 and artist at 0.4: every blended value is in
    range. *)
Lemma blended_values_stay_in_range_witness :
  ∃ m, mix_personalities load_foundation_personalities remove_dups
         "0b1e7a52-5c1d-4c6e-9a5f-3f2d8e1c7b90" "2025-01-01T00:00:00"
         [("scientist", 0.6); ("artist", 0.4)] None = inr m ∧
       ∀ key value, od_get key (mixed_personality_vector m) = Some value →
                    0 <= value <= 1.01.
Proof.
  destruct (mix_personalities load_foundation_personalities remove_dups
      "0b1e7a52-5c1d-4c6e-9a5f-3f2d8e1c7b90" "2025-01-01T00:00:00"
      [("scientist", 0.6); ("artist", 0.4)] None) as [e|m] eqn:Hmix.
  { vm_compute in Hmix. discriminate. }
  exists m. split; [reflexivity|]. intros key value Hget.
  refine (blended_values_stay_in_range _ _ _ _ _ _ m _ _ Hmix key value _).
  - clear. intros c Hc.
    repeat (apply elem_of_cons in Hc as [->|Hc]; [by apply Qle_bool_imp_le|]).
    by apply elem_of_nil in Hc.
  - clear. intros c profile values k value' _. apply foundation_values_in_range.
  - right. exact Hget.
Defined.

(** With [remove_dups] for [list(set(...))]: scientist twice and
    artist give two root nodes. *)
Lemma root_nodes_are_the_union_witness :
  ∃ m, mix_personalities load_foundation_personalities remove_dups
         "0b1e7a52-5c1d-4c6e-9a5f-3f2d8e1c7b90" "2025-01-01T00:00:00"
         [("scientist", 0.3); ("artist", 0.4); ("scientist", 0.3)] None = inr m ∧
       NoDup (mixed_root_nodes m) ∧ "SCI001" ∈ mixed_root_nodes m.
Proof.
  destruct (mix_personalities load_foundation_personalities remove_dups
      "0b1e7a52-5c1d-4c6e-9a5f-3f2d8e1c7b90" "2025-01-01T00:00:00"
      [("scientist", 0.3); ("artist", 0.4); ("scientist", 0.3)] None) as [e|m] eqn:Hmix.
  { vm_compute in Hmix. discriminate. }
  exists m. split; [reflexivity|].
  assert (Hset : ∀ xs : list string,
            NoDup (remove_dups xs) ∧ ∀ x, x ∈ remove_dups xs ↔ x ∈ xs).
  { intros xs. split; [apply NoDup_remove_dups | intros x; apply elem_of_remove_dups]. }
  destruct (root_nodes_are_the_union _ _ _ _ _ _ m Hset Hmix) as [Hnd Hiff].
  split; [exact Hnd|]. apply Hiff. clear.
  exists ("scientist", 0.3), scientist, ["SCI001"].
  split_and!; [left | by vm_compute | reflexivity | left].
Defined.

End MixerExtras.

(** * The agent: energy, logs, decisions, the manager *)
Module AgentExtras.
Import Agent AgentProofs.

Section agent_more.
Context {Session : Type} {session_ops : AnchorSession Session} {clock : WallClock}.
Implicit Types (self : AutonomousAgent Session) (action : AgentAction) (n : nat).

Lemma update_agent_state_keeps self n :
  energy (_update_agent_state self n).1 = energy self ∧
  action_history (_update_agent_state self n).1 = action_history self ∧
  learning_data (_update_agent_state self n).1 = learning_data self ∧
  last_decision_time (_update_agent_state self n).1 = last_decision_time self ∧
  decision_frequency (_update_agent_state self n).1 = decision_frequency self.
Proof. destruct (update_agent_state_result self n) as [s ->]. done. Qed.

Lemma regenerate_energy_keeps self :
  action_history (_regenerate_energy self) = action_history self ∧
  learning_data (_regenerate_energy self) = learning_data self ∧
  last_decision_time (_regenerate_energy self) = last_decision_time self ∧
  decision_frequency (_regenerate_energy self) = decision_frequency self.
Proof. unfold _regenerate_energy. by destruct (Qltb _ _). Qed.

Lemma regenerate_energy_range self :
  0 <= energy self → energy self <= 1 →
  energy self <= energy (_regenerate_energy self) ∧ energy (_regenerate_energy self) <= 1.
Proof.
  intros H0 H1. unfold _regenerate_energy.
  destruct (Qltb (energy self) 1.0) eqn:E; [|split; [lra | done]].
  cbn [energy set_energy]. unfold py_min.
  destruct (decide (state self = IDLE)).
  - destruct (Qltb (energy self + 0.05) 1.0) eqn:E'.
    + apply Qltb_true in E'. lra.
    + lra.
  - destruct (Qltb (energy self + 0.02) 1.0) eqn:E'.
    + apply Qltb_true in E'. lra.
    + lra.
Qed.

(** ** Decisions of the two personalities *)

(** What a proposal of the scientist satisfies, at a clock that has
    been read [n] times. *)
Lemma return_if_executable_spec self key otherwise n
    (Q : nat → option string → Prop) :
  is_Some (od_get key (available_actions self)) →
  (∀ action, od_get key (available_actions self) = Some action →
             can_execute_at self action (wall n) = true → Q n (Some key)) →
  (∀ r, Q (S n) r → Q n r) →
  (∃ r, (otherwise (S n)).1 = inr r ∧ Q (S n) r) →
  ∃ r, (return_if_executable self key otherwise n).1 = inr r ∧ Q n r.
Proof.
  intros [action Hget] Hhere Hmono (r & Hr & HQ).
  unfold return_if_executable, can_execute_named. rewrite Hget.
  unfold _can_execute_action. clock_unfold.
  destruct (can_execute_at self action (wall n)) eqn:E.
  - exists (Some key). split; [done|]. by apply (Hhere action).
  - exists r. split; [done|]. by apply Hmono.
Qed.

(** X17. With its three actions present, the scientist's [decide_action]
    does not raise; it proposes nothing, or one of the three actions
    that it found executable at one of its clock readings, and the
    emergency recalibration only in a crisis. *)
Theorem scientist_proposes_only_executable self n :
  (∀ key, key ∈ ["emergency_recalibrate"; "observe"; "reflect"] →
          is_Some (od_get key (available_actions self))) →
  ∃ choice,
    (decide_action (Personality := ScientistAgent) self n).1 = inr choice ∧
    ∀ key, choice = Some key →
      key ∈ ["emergency_recalibrate"; "observe"; "reflect"] ∧
      (key = "emergency_recalibrate" → state self = CRISIS) ∧
      ∃ action k, od_get key (available_actions self) = Some action ∧
                  (n ≤ k)%nat ∧ can_execute_at self action (wall k) = true.
Proof.
  intros Hkeys.
  set (Q := λ (n : nat) (choice : option string), ∀ key, choice = Some key →
      key ∈ ["emergency_recalibrate"; "observe"; "reflect"] ∧
      (key = "emergency_recalibrate" → state self = CRISIS) ∧
      ∃ action k, od_get key (available_actions self) = Some action ∧
                  (n ≤ k)%nat ∧ can_execute_at self action (wall k) = true).
  assert (Hmono : ∀ n r, Q (S n) r → Q n r).
  { intros n' r HQ key Hkey. destruct (HQ key Hkey) as (H1 & H2 & action & k & H3 & H4 & H5).
    split_and!; try done. exists action, k. split_and!; [done | lia | done]. }
  assert (Hnone : ∀ n, ∃ r, (mret (M := Clock) (inr (A := PyError) (None (A := string))) n).1
                            = inr r ∧ Q n r).
  { intros n'. exists None. split; [done|]. intros key [=]. }
  assert (Hobserve : ∀ n otherwise,
    (∃ r, (otherwise (S n)).1 = inr r ∧ Q (S n) r) →
    ∃ r, (return_if_executable self "observe" otherwise n).1 = inr r ∧ Q n r).
  { intros n' otherwise Hrest. apply return_if_executable_spec; try done.
    - apply Hkeys. right. left.
    - intros action Hget Hcan key [= <-]. split_and!; [right; left | done |].
      exists action, n'. done.
    - apply Hmono. }
  assert (Hreflect : ∀ n otherwise,
    (∃ r, (otherwise (S n)).1 = inr r ∧ Q (S n) r) →
    ∃ r, (return_if_executable self "reflect" otherwise n).1 = inr r ∧ Q n r).
  { intros n' otherwise Hrest. apply return_if_executable_spec; try done.
    - apply Hkeys. right. right. left.
    - intros action Hget Hcan key [= <-]. split_and!; [right; right; left | done |].
      exists action, n'. done.
    - apply Hmono. }
  assert (Hemergency : state self = CRISIS → ∀ n otherwise,
    (∃ r, (otherwise (S n)).1 = inr r ∧ Q (S n) r) →
    ∃ r, (return_if_executable self "emergency_recalibrate" otherwise n).1 = inr r ∧ Q n r).
  { intros Hcrisis n' otherwise Hrest. apply return_if_executable_spec; try done.
    - apply Hkeys. left.
    - intros action Hget Hcan key [= <-]. split_and!; [left | done |].
      exists action, n'. done.
    - apply Hmono. }
  cbn [decide_action ScientistAgent].
  destruct (decide (state self = CRISIS)) as [Hcrisis|_];
    [apply (Hemergency Hcrisis)|];
    (destruct (Qltb 0.5 _); [apply Hobserve|]);
    (destruct (decide (stability_trend _ ≠ Some "improving")); [apply Hreflect|]);
    apply Hobserve; apply Hnone.
Qed.

(** X18. The artist's [decide_action] reads no clock, checks nothing and
    always proposes: the emergency recalibration exactly in a crisis
    with chaos above 0.9, a reflection exactly outside a crisis with
    chaos below 0.2, and an observation otherwise. *)
Theorem artist_always_proposes self n :
  let chaos := default 0 (chaos_proximity (export_view (anchor_session self))) in
  ∃ key,
    decide_action (Personality := ArtistAgent) self n = (inr (Some key), n) ∧
    (key = "emergency_recalibrate" ↔ state self = CRISIS ∧ 0.9 < chaos) ∧
    (key = "reflect" ↔ state self ≠ CRISIS ∧ chaos < 0.2) ∧
    (key = "observe" ↔
       (state self = CRISIS ∧ chaos <= 0.9) ∨ (state self ≠ CRISIS ∧ 0.2 <= chaos)).
Proof.
  intros chaos. cbn [decide_action ArtistAgent]. fold chaos.
  destruct (decide (state self = CRISIS)) as [Hcrisis|Hcalm].
  - destruct (Qltb 0.9 chaos) eqn:E9.
    + apply Qltb_true in E9. eexists. split; [done|]. split_and!; split; try done.
      * intros [Hne _]. done.
      * intros [[_ Hle]|[Hne _]]; [lra | done].
    + apply Qltb_false in E9. eexists. split; [done|]. split_and!; split; try done.
      * intros [_ Hlt]. lra.
      * intros [Hne _]. done.
      * intros _. by left.
  - destruct (Qltb 0.3 chaos && Qltb chaos 0.7) eqn:E37.
    + apply andb_true_iff in E37 as [E3%Qltb_true E7%Qltb_true].
      eexists. split; [done|]. split_and!; split; try done.
      * intros [Hc _]. done.
      * intros [_ Hlt]. lra.
      * intros _. right. split; [done | lra].
    + clear E37. destruct (Qltb chaos 0.2) eqn:E2.
      * apply Qltb_true in E2. eexists. split; [done|]. split_and!; split; try done.
        -- intros [Hc _]. done.
        -- intros [[Hc _]|[_ Hle]]; [done | lra].
      * apply Qltb_false in E2. eexists. split; [done|]. split_and!; split; try done.
        -- intros [Hc _]. done.
        -- intros [_ Hlt]. lra.
        -- intros _. by right.
Qed.

Context {personality : Personality Session}.

Lemma execute_action_safely_keeps self key action n :
  learning_data (_execute_action_safely self key action n).1.2 = learning_data self ∧
  (action_history (_execute_action_safely self key action n).1.2 = action_history self ∨
   ∃ entry, action_history (_execute_action_safely self key action n).1.2
            = action_history self ++ [entry]).
Proof.
  unfold _execute_action_safely. clock_unfold.
  destruct (execute_action _ _); cbn; split; try done; [by left | right; by eexists].
Qed.

(** ** Energy *)

Lemma cycle_energy self n :
  0 <= energy self → energy self <= 1 →
  (∀ key action, od_get key (available_actions self) = Some action →
                 0 <= energy_cost action) →
  (0 <= energy (_autonomous_cycle self n).1.2 ∧
   energy (_autonomous_cycle self n).1.2 <= 1) ∧
  (∀ key action,
     od_get key (available_actions (_autonomous_cycle self n).1.2) = Some action →
     0 <= energy_cost action).
Proof.
  intros H0 H1 Hcost.
  destruct (_autonomous_cycle self n) as [[out self'] n'] eqn:Hcycle. cbn [fst snd].
  apply cycle_inv in Hcycle. cbv zeta in Hcycle.
  destruct (update_agent_state_keeps self n) as (He0 & _).
  destruct (update_agent_state_frame self n) as (Ha0 & _).
  destruct (regenerate_energy_frame (_update_agent_state self n).1) as (_ & Ha1 & _).
  destruct (regenerate_energy_range (_update_agent_state self n).1) as [Hlo Hhi];
    [by rewrite He0 | by rewrite He0 |].
  rewrite He0 in Hlo. rewrite Ha0 in Ha1.
  destruct Hcycle
    as [[_ ->]|(key & action & c & result & s2 & n4 & _ & Hget & Hcan & Hexec & Hlearn)].
  - split; [split; [lra | done]|]. by rewrite Ha1.
  - pose proof (execute_action_safely_frame
                  (_regenerate_energy (_update_agent_state self n).1) key action (S c)) as Hf.
    rewrite Hexec in Hf. cbn [fst snd] in Hf. cbv zeta in Hf.
    destruct Hf as (_ & _ & He2 & Ha2).
    pose proof (learn_from_action_frame s2 action result n4) as Hl.
    rewrite Hlearn in Hl. cbn [fst snd] in Hl. cbv zeta in Hl.
    destruct Hl as (_ & _ & He3 & _ & _ & Ha3).
    apply can_execute_at_true in Hcan as (_ & Hafford & _).
    rewrite Ha1 in Hget. pose proof (Hcost key action Hget) as Hpos.
    split.
    + rewrite He3, He2. split; lra.
    + intros k a. rewrite Ha3, Ha2, od_get_alter, Ha1.
      destruct (decide (key = k)) as [<-|Hne]; [|apply Hcost].
      rewrite Hget. by intros [= <-].
Qed.

(** X19. An agent whose energy lies between 0 and 1 and whose actions cost
    nothing negative keeps its energy between 0 and 1 through any number
    of turns of the loop. *)
Theorem energy_stays_in_range self (cycles m : nat) :
  0 <= energy self → energy self <= 1 →
  (∀ key action, od_get key (available_actions self) = Some action →
                 0 <= energy_cost action) →
  0 <= energy (run_cycles cycles self m).1.2 ∧
  energy (run_cycles cycles self m).1.2 <= 1.
Proof.
  revert self m. induction cycles as [|cycles IH]; intros self m H0 H1 Hcost; [done|].
  cbn [run_cycles]. destruct (is_running self); [|done]. clock_unfold.
  destruct (cycle_energy self m H0 H1 Hcost) as [[H0' H1'] Hcost'].
  destruct (_autonomous_cycle self m) as [[out self'] m']. cbn [fst snd] in *.
  specialize (IH self' m' H0' H1' Hcost').
  by destruct (run_cycles cycles self' m') as [[outs self''] m''].
Qed.

(** ** The learning log *)

Lemma learn_appends self action result n :
  ∃ entry,
    l_action entry = name action ∧ l_timestamp entry = wall n ∧
    result_success entry = bool_decide ("error" ∉ result.*1) ∧
    learning_data (_learn_from_action self action result n).1 =
      (if bool_decide (length (learning_data self) < 100)%nat then learning_data self
       else drop (length (learning_data self) - 49) (learning_data self)) ++ [entry].
Proof.
  unfold _learn_from_action. clock_unfold. cbn [fst learning_data].
  eexists. split_and!; [| | |].
  4:{ rewrite length_app. cbn [length].
      destruct (bool_decide (100 < _)%nat) eqn:E1;
        [apply bool_decide_eq_true_1 in E1 | apply bool_decide_eq_false_1 in E1].
      - rewrite (bool_decide_eq_false_2 (length (learning_data self) < 100)%nat) by lia.
        unfold py_slice_last. rewrite length_app. cbn [length].
        rewrite drop_app_le by lia. do 2 f_equal. lia.
      - rewrite (bool_decide_eq_true_2 (length (learning_data self) < 100)%nat) by lia.
        reflexivity. }
  all: done.
Qed.

Lemma learn_length self action result n :
  (length (learning_data self) ≤ 100)%nat →
  (length (learning_data (_learn_from_action self action result n).1) ≤ 100)%nat.
Proof.
  intros Hlen. destruct (learn_appends self action result n) as (entry & _ & _ & _ & ->).
  rewrite length_app. cbn [length]. case_bool_decide; [lia|].
  rewrite length_drop. lia.
Qed.

Lemma cycle_learning self n :
  (length (learning_data self) ≤ 100)%nat →
  (length (learning_data (_autonomous_cycle self n).1.2) ≤ 100)%nat.
Proof.
  intros Hlen.
  destruct (_autonomous_cycle self n) as [[out self'] n'] eqn:Hcycle. cbn [fst snd].
  apply cycle_inv in Hcycle. cbv zeta in Hcycle.
  destruct (update_agent_state_keeps self n) as (_ & _ & Hl0 & _).
  destruct (regenerate_energy_keeps (_update_agent_state self n).1) as (_ & Hl1 & _).
  rewrite Hl0 in Hl1.
  destruct Hcycle
    as [[_ ->]|(key & action & c & result & s2 & n4 & _ & _ & _ & Hexec & Hlearn)].
  - by rewrite Hl1.
  - destruct (execute_action_safely_keeps
                (_regenerate_energy (_update_agent_state self n).1) key action (S c))
      as [Hl2 _].
    rewrite Hexec in Hl2. cbn [fst snd] in Hl2.
    pose proof (learn_length s2 action result n4) as Hl3.
    rewrite Hlearn in Hl3. cbn [fst snd] in Hl3. apply Hl3. by rewrite Hl2, Hl1.
Qed.

(** X20. [_learn_from_action] appends one entry; when the log already held
    100 entries it keeps the 49 most recent of them before the new one.
    A log of at most 100 entries never grows beyond 100 over any number
    of turns of the loop. *)
Theorem learning_log_is_capped self :
  (length (learning_data self) ≤ 100)%nat →
  (∀ action result n, ∃ entry,
     l_action entry = name action ∧ l_timestamp entry = wall n ∧
     result_success entry = bool_decide ("error" ∉ result.*1) ∧
     learning_data (_learn_from_action self action result n).1 =
       (if bool_decide (length (learning_data self) < 100)%nat then learning_data self
        else drop 51 (learning_data self)) ++ [entry]) ∧
  (∀ cycles m : nat, (length (learning_data (run_cycles cycles self m).1.2) ≤ 100)%nat).
Proof.
  intros Hlen. split.
  - intros action result n.
    destruct (learn_appends self action result n) as (entry & H1 & H2 & H3 & H4).
    exists entry. split_and!; try done. rewrite H4.
    case_bool_decide; [done|].
    by replace (length (learning_data self) - 49)%nat with 51%nat by lia.
  - intros cycles. revert self Hlen.
    induction cycles as [|cycles IH]; intros self Hlen m; [done|].
    cbn [run_cycles]. destruct (is_running self); [|done]. clock_unfold.
    pose proof (cycle_learning self m Hlen) as Hlen'.
    destruct (_autonomous_cycle self m) as [[out self'] m']. cbn [fst snd] in *.
    specialize (IH self' Hlen' m').
    by destruct (run_cycles cycles self' m') as [[outs self''] m''].
Qed.

(** ** The action history *)

Lemma cycle_history self n :
  (action_history (_autonomous_cycle self n).1.2 = action_history self ∨
   ∃ entry, action_history (_autonomous_cycle self n).1.2 = action_history self ++ [entry]) ∧
  ((∀ key result, (_autonomous_cycle self n).1.1 ≠ Executed key result) →
   action_history (_autonomous_cycle self n).1.2 = action_history self ∧
   learning_data (_autonomous_cycle self n).1.2 = learning_data self ∧
   anchor_session (_autonomous_cycle self n).1.2 = anchor_session self ∧
   available_actions (_autonomous_cycle self n).1.2 = available_actions self ∧
   last_decision_time (_autonomous_cycle self n).1.2 = last_decision_time self).
Proof.
  destruct (_autonomous_cycle self n) as [[out self'] n'] eqn:Hcycle. cbn [fst snd].
  apply cycle_inv in Hcycle. cbv zeta in Hcycle.
  destruct (update_agent_state_keeps self n) as (_ & Hh0 & Hl0 & Ht0 & _).
  destruct (update_agent_state_frame self n) as (Ha0 & Hs0 & _).
  destruct (regenerate_energy_keeps (_update_agent_state self n).1) as (Hh1 & Hl1 & Ht1 & _).
  destruct (regenerate_energy_frame (_update_agent_state self n).1) as (_ & Ha1 & Hs1 & _).
  rewrite Hh0 in Hh1. rewrite Hl0 in Hl1. rewrite Ht0 in Ht1.
  rewrite Ha0 in Ha1. rewrite Hs0 in Hs1.
  destruct Hcycle
    as [[_ ->]|(key & action & c & result & s2 & n4 & -> & _ & _ & Hexec & Hlearn)].
  - split; [by left | done].
  - split; [|intros Hne; by destruct (Hne key result)].
    destruct (execute_action_safely_keeps
                (_regenerate_energy (_update_agent_state self n).1) key action (S c))
      as [_ Hh2].
    rewrite Hexec in Hh2. cbn [fst snd] in Hh2. rewrite Hh1 in Hh2.
    pose proof (learn_from_action_frame s2 action result n4) as Hl.
    rewrite Hlearn in Hl. cbn [fst snd] in Hl. cbv zeta in Hl.
    destruct Hl as (_ & _ & _ & _ & Hh3 & _). by rewrite Hh3.
Qed.

(** X21. Over any number of turns of the loop the action history only
    grows, at its end and by at most one entry per turn; turns that
    execute nothing leave the history, the learning log, the session,
    the actions and the decision time as they were. *)
Theorem history_is_append_only self (cycles m : nat) :
  action_history self `prefix_of` action_history (run_cycles cycles self m).1.2 ∧
  (length (action_history (run_cycles cycles self m).1.2)
   ≤ length (action_history self) + length (run_cycles cycles self m).1.1)%nat ∧
  (Forall (λ out, ∀ key result, out ≠ Executed key result) (run_cycles cycles self m).1.1 →
   action_history (run_cycles cycles self m).1.2 = action_history self ∧
   learning_data (run_cycles cycles self m).1.2 = learning_data self ∧
   anchor_session (run_cycles cycles self m).1.2 = anchor_session self ∧
   available_actions (run_cycles cycles self m).1.2 = available_actions self ∧
   last_decision_time (run_cycles cycles self m).1.2 = last_decision_time self).
Proof.
  revert self m. induction cycles as [|cycles IH]; intros self m.
  { cbn. split_and!; [done | lia | done]. }
  cbn [run_cycles]. destruct (is_running self).
  2:{ cbn. split_and!; [done | lia | done]. }
  clock_unfold.
  destruct (cycle_history self m) as [Hstep Hquiet].
  destruct (_autonomous_cycle self m) as [[out self'] m']. cbn [fst snd] in *.
  destruct (IH self' m') as (Hpre & Hlen & Hquiet').
  destruct (run_cycles cycles self' m') as [[outs self''] m'']. cbn [fst snd length] in *.
  split_and!.
  - destruct Hstep as [<-|[entry Hentry]]; [done|].
    etrans; [|exact Hpre]. rewrite Hentry. by apply prefix_app_r.
  - destruct Hstep as [<-|[entry Hentry]]; [lia|].
    rewrite Hentry, length_app in Hlen. cbn [length] in Hlen. lia.
  - intros [Hout Houts]%Forall_cons.
    destruct (Hquiet Hout) as (<- & <- & <- & <- & <-). by apply Hquiet'.
Qed.

(** ** Too early to decide *)

(** X22. While every clock reading is within three tenths of the decision
    frequency of the last decision, a cycle decides nothing and
    executes nothing, in a crisis or not. *)
Theorem no_decision_before_its_time self n :
  0 <= decision_frequency self →
  (∀ k, wall k - last_decision_time self <= decision_frequency self * 0.3) →
  (_autonomous_cycle self n).1.1 = Skipped ∧
  action_history (_autonomous_cycle self n).1.2 = action_history self ∧
  anchor_session (_autonomous_cycle self n).1.2 = anchor_session self.
Proof.
  intros Hfreq Hsoon.
  assert (Hskip : (_autonomous_cycle self n).1.1 = Skipped).
  { unfold _autonomous_cycle. clock_unfold.
    destruct (update_agent_state_keeps self n) as (_ & _ & _ & Ht0 & Hf0).
    destruct (regenerate_energy_keeps (_update_agent_state self n).1) as (_ & _ & Ht1 & Hf1).
    rewrite Ht0 in Ht1. rewrite Hf0 in Hf1.
    destruct (_update_agent_state self n) as [s0 n0]. cbn [fst snd] in *.
    unfold _should_make_decision. clock_unfold. rewrite Ht1, Hf1.
    specialize (Hsoon n0).
    destruct (decide (state (_regenerate_energy s0) = CRISIS)).
    - by rewrite (proj2 (Qltb_false _ _)) by done.
    - by rewrite (proj2 (Qltb_false _ _)) by lra. }
  split; [done|].
  destruct (cycle_history self n) as [_ Hquiet].
  destruct Hquiet as (Hh & _ & Hs & _); [|done].
  intros key result. by rewrite Hskip.
Qed.

End agent_more.

(** ** What the two personalities record *)

Section builtin.
Context {Session : Type} {session_ops : AnchorSession Session} {clock : WallClock}.

(** X23. The effect generation of the scientist and of the artist never
    raises and never returns an error entry: every execution reads the
    clock three times, applies the action's effects to the session and
    appends one history entry, whose [anchor_state_before] is the core
    after the effects; the status then shows that entry as the last
    action, and the learning entry counts a success. *)
Theorem builtin_personalities_always_record
    (personality : Personality Session) (self : AutonomousAgent Session)
    (key : string) (action : AgentAction) (n : nat) :
  personality = ScientistAgent ∨ personality = ArtistAgent →
  let run := _execute_action_safely (personality := personality) self key action n in
  let session := tick (anchor_session self) (anchor_effects action) in
  let entry := {| h_action := name action; h_timestamp := wall (S (S n));
                  h_result := run.1.1; anchor_state_before := core session |} in
  run.2 = S (S (S n)) ∧
  ("error" ∉ (run.1.1).*1) ∧
  anchor_session run.1.2 = session ∧
  action_history run.1.2 = action_history self ++ [entry] ∧
  status_last_action (get_agent_status run.1.2) = Some entry ∧
  status_actions_taken (get_agent_status run.1.2) = S (length (action_history self)) ∧
  ∀ m, ∃ learned,
    last (learning_data (_learn_from_action run.1.2 action run.1.1 m).1) = Some learned ∧
    result_success learned = true.
Proof.
  intros Hbuiltin run session entry.
  assert (Hresult : ∃ result,
    execute_action (Personality := personality)
      (charged self key action (wall n) (wall (S n))) (set_last_executed (wall n) action)
    = inr result ∧ "error" ∉ result.*1).
  { destruct Hbuiltin as [-> | ->]; cbn [execute_action ScientistAgent ArtistAgent];
      repeat (destruct (decide _); [eexists; split; [done|];
                                    apply (bool_decide_unpack _); by vm_compute|]);
      eexists; (split; [done|]); apply (bool_decide_unpack _); by vm_compute. }
  destruct Hresult as (result & Hexec & Hok).
  assert (Hrun : run = (result,
    {| agent_id := agent_id self; anchor_session := session;
       personality_seed := personality_seed self;
       state := state self; energy := energy self - energy_cost action;
       autonomy_level := autonomy_level self;
       decision_threshold := decision_threshold self;
       available_actions := od_alter (set_last_executed (wall n)) key (available_actions self);
       action_history := action_history self ++
         [{| h_action := name action; h_timestamp := wall (S (S n));
             h_result := result; anchor_state_before := core session |}];
       learning_data := learning_data self;
       last_decision_time := wall (S n);
       decision_frequency := decision_frequency self;
       is_running := is_running self |}, S (S (S n)))).
  { subst run. unfold _execute_action_safely. clock_unfold. by rewrite Hexec. }
  subst entry. rewrite Hrun. cbn [fst snd anchor_session action_history].
  split_and!; try done.
  - unfold get_agent_status. cbn [status_last_action action_history]. by rewrite last_snoc.
  - unfold get_agent_status. cbn [status_actions_taken action_history].
    rewrite length_app. cbn [length]. lia.
  - intros m.
    match goal with |- context [_learn_from_action ?s action result m] =>
      destruct (learn_appends s action result m) as (learned & _ & _ & Hs & ->) end.
    exists learned. split; [by rewrite last_snoc|].
    rewrite Hs. by apply bool_decide_eq_true_2.
Qed.

(** ** The manager *)

Lemma od_del_set_fresh {V} (k : string) (v : V) (d : list (string * V)) :
  k ∉ d.*1 → od_del k (od_set k v d) = d.
Proof.
  induction d as [|[k' v'] d IH]; simpl.
  - intros _. by rewrite decide_True.
  - rewrite not_elem_of_cons. intros [Hne Hnin].
    rewrite decide_False by done. simpl. rewrite decide_False by done. by rewrite IH.
Qed.

(** X24. After [stop_all_agents] the manager and every agent report that
    they are not running, the same agents are managed, and a loop of any
    of them takes no further turn. *)
Theorem stopped_agents_take_no_turn (self : AgentManager Session) :
  let stopped := stop_all_agents self in
  manager_is_running stopped = false ∧
  (agents stopped).*1 = (agents self).*1 ∧
  (get_system_status stopped).1.2 = length (agents self) ∧
  Forall (λ e, status_is_running e.2 = false) (get_system_status stopped).2 ∧
  ∀ e, e ∈ agents stopped →
    ∀ cycles m : nat,
      run_cycles (personality := managed_personality e.2) cycles (managed_agent e.2) m
      = ([], managed_agent e.2, m).
Proof.
  intros stopped. subst stopped. unfold stop_all_agents, get_system_status.
  cbn [manager_is_running agents fst snd].
  split_and!.
  - done.
  - rewrite <- list_fmap_compose. done.
  - by rewrite length_fmap.
  - rewrite <- list_fmap_compose. apply Forall_fmap, Forall_forall. by intros [k a] _.
  - intros e ([k a] & -> & _)%list_elem_of_fmap cycles m. by destruct cycles.
Qed.

(** X25. Adding an agent under a new id and removing it again gives the
    manager back, with the agent stopped; removing an id that is not
    managed changes nothing; adding under a managed id replaces that
    agent in place. *)
Theorem manager_add_remove (agent : ManagedAgent Session) (self : AgentManager Session) :
  let agent_id := agent_id (managed_agent agent) in
  (agent_id ∉ (agents self).*1 →
   remove_agent agent_id (add_agent agent self) =
     (self, Some {| managed_personality := managed_personality agent;
                    managed_agent := stop_autonomous_loop (managed_agent agent) |})) ∧
  (agent_id ∉ (agents self).*1 → remove_agent agent_id self = (self, None)) ∧
  (agents (add_agent agent self)).*1 =
    (if decide (agent_id ∈ (agents self).*1) then (agents self).*1
     else (agents self).*1 ++ [agent_id]) ∧
  od_get agent_id (agents (add_agent agent self)) = Some agent.
Proof.
  intros id. split_and!.
  - intros Hfresh. unfold remove_agent, add_agent. cbn [agents manager_is_running].
    rewrite od_get_set. rewrite od_del_set_fresh by done. by destruct self.
  - intros Hfresh. unfold remove_agent.
    by rewrite (proj2 (od_get_None _ _) Hfresh).
  - unfold add_agent. cbn [agents]. fold id. apply od_set_keys.
  - unfold add_agent. cbn [agents]. apply od_get_set.
Qed.

End builtin.

(** The scientist on a calm session proposes an action it holds. *)
Lemma scientist_proposes_only_executable_witness :
  ∃ choice,
    (decide_action (Personality := example_scientist) (example_agent calm_session) 0%nat).1
    = inr choice ∧
    ∀ key, choice = Some key → key ∈ ["emergency_recalibrate"; "observe"; "reflect"].
Proof.
  destruct (scientist_proposes_only_executable (clock := slow_clock)
              (example_agent calm_session) 0%nat) as (choice & Hchoice & Hspec).
  - intros key Hkey.
    repeat (apply elem_of_cons in Hkey as [->|Hkey]; [vm_compute; by eexists|]).
    by apply elem_of_nil in Hkey.
  - exists choice. split; [exact Hchoice|]. intros key Hkey.
    by destruct (Hspec key Hkey) as [? _].
Defined.

(** Six turns of an agent that keeps proposing "stabilize". *)
Lemma energy_stays_in_range_witness :
  0 <= energy (run_cycles (clock := fine_clock) (personality := StabilizingAgent)
                 6 (example_agent calm_session) 0%nat).1.2 ∧
  energy (run_cycles (clock := fine_clock) (personality := StabilizingAgent)
            6 (example_agent calm_session) 0%nat).1.2 <= 1.
Proof.
  apply (energy_stays_in_range (clock := fine_clock) (personality := StabilizingAgent)
           (example_agent calm_session) 6%nat 0%nat).
  - by apply Qle_bool_imp_le.
  - by apply Qle_bool_imp_le.
  - intros key action Hget%od_get_Some.
    assert (Hall : Forall (λ e : string * AgentAction, 0 <= energy_cost e.2) default_actions).
    { repeat (constructor; [by apply Qle_bool_imp_le|]). constructor. }
    rewrite Forall_forall in Hall. apply (Hall (key, action) Hget).
Defined.

(** The same six turns: the log stays short. *)
Lemma learning_log_is_capped_witness :
  (length (learning_data
     (run_cycles (clock := fine_clock) (personality := StabilizingAgent)
        6 (example_agent calm_session) 0%nat).1.2) ≤ 100)%nat.
Proof.
  destruct (learning_log_is_capped (clock := fine_clock) (personality := StabilizingAgent)
              (example_agent calm_session)) as [_ Hloop].
  - cbn. lia.
  - apply Hloop.
Defined.

(** A clock that stands at 2 seconds, a last decision at 0 and a
    decision frequency of 10: too early. *)
Lemma no_decision_before_its_time_witness :
  (_autonomous_cycle (clock := λ _, 2) (personality := StabilizingAgent)
     (example_agent calm_session) 0%nat).1.1 = Skipped.
Proof.
  destruct (no_decision_before_its_time (clock := λ _, 2) (personality := StabilizingAgent)
              (example_agent calm_session) 0%nat) as [Hskip _].
  - by apply Qle_bool_imp_le.
  - intros k. by apply Qle_bool_imp_le.
  - exact Hskip.
Defined.

(** The scientist observing on a calm session. *)
Lemma builtin_personalities_always_record_witness :
  length (action_history
    (_execute_action_safely (clock := slow_clock) (personality := example_scientist)
       (example_agent calm_session) "observe" observe_action 0%nat).1.2) = 1%nat.
Proof.
  destruct (builtin_personalities_always_record (clock := slow_clock) example_scientist
              (example_agent calm_session) "observe" observe_action 0%nat)
    as (_ & _ & _ & Hhistory & _).
  - by left.
  - by rewrite Hhistory.
Defined.

(** A scientist added to an empty manager and removed again. *)
Lemma manager_add_remove_witness :
  (remove_agent "scientist_01"
     (add_agent (mkManaged example_scientist (example_agent calm_session))
        new_manager)).1 = new_manager.
Proof.
  destruct (manager_add_remove (mkManaged example_scientist (example_agent calm_session))
              new_manager) as (Hround & _).
  cbn [agent_id managed_agent example_agent] in Hround.
  rewrite Hround; [done|]. apply not_elem_of_nil.
Defined.

End AgentExtras.

(** * What a cycle of the two personalities can raise *)
Module CycleExtras.
Import Agent AgentProofs Unequipped.

Section raises.
Context {Session : Type} {session_ops : AnchorSession Session} {clock : WallClock}.
Implicit Types (self : AutonomousAgent Session) (n : nat).

Lemma return_if_executable_raises self key otherwise n e :
  (return_if_executable self key otherwise n).1 = inl e →
  (e = KeyError key ∧ od_get key (available_actions self) = None) ∨
  (otherwise (S n)).1 = inl e.
Proof.
  unfold return_if_executable, can_execute_named.
  destruct (od_get key (available_actions self)) as [action|] eqn:Hget.
  - unfold _can_execute_action. clock_unfold.
    destruct (can_execute_at self action (wall n)); [done|]. by right.
  - clock_unfold. intros [= <-]. by left.
Qed.

Lemma scientist_raises self n e :
  (decide_action (Personality := ScientistAgent) self n).1 = inl e →
  ∃ key, key ∈ ["emergency_recalibrate"; "observe"; "reflect"] ∧
         e = KeyError key ∧ od_get key (available_actions self) = None.
Proof.
  assert (Hnone : ∀ m, (mret (M := Clock) (inr (A := PyError) (None (A := string))) m).1
                       ≠ inl e) by done.
  assert (Hfound : ∀ key, key ∈ ["emergency_recalibrate"; "observe"; "reflect"] →
            e = KeyError key ∧ od_get key (available_actions self) = None →
            ∃ key, key ∈ ["emergency_recalibrate"; "observe"; "reflect"] ∧
                   e = KeyError key ∧ od_get key (available_actions self) = None).
  { intros key Hkey [-> Hget]. by exists key. }
  assert (Hdefault : ∀ m,
    (return_if_executable self "observe" (mret (inr None)) m).1 = inl e →
    ∃ key, key ∈ ["emergency_recalibrate"; "observe"; "reflect"] ∧
           e = KeyError key ∧ od_get key (available_actions self) = None).
  { intros m [Hmiss|Hrest]%return_if_executable_raises.
    - apply (Hfound "observe"); [|done]. right. left.
    - by apply Hnone in Hrest. }
  assert (Hnormal : ∀ m,
    ((if decide (stability_trend (export_view (anchor_session self)) ≠ Some "improving")
      then return_if_executable self "reflect"
             (return_if_executable self "observe" (mret (inr None)))
      else return_if_executable self "observe" (mret (inr None))) m).1 = inl e →
    ∃ key, key ∈ ["emergency_recalibrate"; "observe"; "reflect"] ∧
           e = KeyError key ∧ od_get key (available_actions self) = None).
  { intros m. destruct (decide _); [|apply Hdefault].
    intros [Hmiss|Hrest]%return_if_executable_raises.
    - apply (Hfound "reflect"); [|done]. right. right. left.
    - by apply Hdefault in Hrest. }
  assert (Hinstability : ∀ m,
    ((if Qltb 0.5 (default 0 (chaos_proximity (export_view (anchor_session self))))
      then return_if_executable self "observe"
             (if decide (stability_trend (export_view (anchor_session self))
                         ≠ Some "improving")
              then return_if_executable self "reflect"
                     (return_if_executable self "observe" (mret (inr None)))
              else return_if_executable self "observe" (mret (inr None)))
      else (if decide (stability_trend (export_view (anchor_session self))
                       ≠ Some "improving")
            then return_if_executable self "reflect"
                   (return_if_executable self "observe" (mret (inr None)))
            else return_if_executable self "observe" (mret (inr None)))) m).1 = inl e →
    ∃ key, key ∈ ["emergency_recalibrate"; "observe"; "reflect"] ∧
           e = KeyError key ∧ od_get key (available_actions self) = None).
  { intros m. destruct (Qltb 0.5 _); [|apply Hnormal].
    intros [Hmiss|Hrest]%return_if_executable_raises.
    - apply (Hfound "observe"); [|done]. right. left.
    - by apply Hnormal in Hrest. }
  cbn [decide_action ScientistAgent].
  destruct (decide (state self = CRISIS)); [|apply Hinstability].
  intros [Hmiss|Hrest]%return_if_executable_raises.
  - apply (Hfound "emergency_recalibrate"); [|done]. left.
  - by apply Hinstability in Hrest.
Qed.

Lemma artist_never_raises self n e :
  (decide_action (Personality := ArtistAgent) self n).1 ≠ inl e.
Proof.
  cbn [decide_action ArtistAgent].
  destruct (decide (state self = CRISIS)).
  - by destruct (Qltb 0.9 _).
  - destruct (Qltb 0.3 _ && Qltb _ 0.7); [done|]. by destruct (Qltb _ 0.2).
Qed.

Lemma cycle_raised {personality : Personality Session} self n e :
  (_autonomous_cycle self n).1.1 = Raised e →
  ∃ m, (decide_action (_regenerate_energy (_update_agent_state self n).1) m).1 = inl e.
Proof.
  unfold _autonomous_cycle. clock_unfold.
  destruct (_update_agent_state self n) as [s0 n0]. cbn [fst snd].
  destruct (_should_make_decision _ n0) as [[] n1]; [|done].
  destruct (decide_action (_regenerate_energy s0) n1) as [[e'|[key|]] n2] eqn:Hd; try done.
  - intros [= ->]. exists n1. by rewrite Hd.
  - destruct (decide (key = "")); [done|].
    destruct (od_get key _); [|done].
    unfold _can_execute_action. clock_unfold.
    destruct (can_execute_at _ _ _); [|done].
    destruct (_execute_action_safely _ _ _ _) as [[result s2] n4].
    by destruct (_learn_from_action _ _ _ _).
Qed.

(** X26. A cycle of the artist never raises. A cycle of the scientist raises
    nothing but the [KeyError] of one of the three action names its
    decision looks up, and only when the agent holds no action under
    that name. *)
Theorem builtin_cycles_raise_only_for_a_missing_action
    (personality : Personality Session) self n e :
  personality = ScientistAgent ∨ personality = ArtistAgent →
  (_autonomous_cycle (personality := personality) self n).1.1 = Raised e →
  personality = ScientistAgent ∧
  ∃ key, key ∈ ["emergency_recalibrate"; "observe"; "reflect"] ∧
         e = KeyError key ∧ od_get key (available_actions self) = None.
Proof.
  intros [-> | ->] [m Hraise]%cycle_raised.
  - split; [done|].
    destruct (scientist_raises _ _ _ Hraise) as (key & Hkey & -> & Hget).
    exists key. split_and!; [done..|].
    destruct (regenerate_energy_frame (_update_agent_state self n).1) as (_ & Ha1 & _).
    destruct (update_agent_state_frame self n) as (Ha0 & _).
    by rewrite Ha1, Ha0 in Hget.
  - by apply artist_never_raises in Hraise.
Qed.

End raises.

(** The scientist without actions on a calm session looks up "reflect". *)
Lemma builtin_cycles_raise_only_for_a_missing_action_witness :
  (_autonomous_cycle (clock := slow_clock) (personality := example_scientist)
     (unequipped_agent calm_session) 0%nat).1.1 = Raised (KeyError "reflect") ∧
  od_get "reflect" (available_actions (unequipped_agent calm_session)) = None.
Proof.
  assert (Hraise : (_autonomous_cycle (clock := slow_clock) (personality := example_scientist)
     (unequipped_agent calm_session) 0%nat).1.1 = Raised (KeyError "reflect"))
    by (vm_compute; reflexivity).
  split; [exact Hraise|].
  destruct (builtin_cycles_raise_only_for_a_missing_action (clock := slow_clock)
              example_scientist (unequipped_agent calm_session) 0%nat
              (KeyError "reflect")) as (_ & key & _ & [= <-] & Hget).
  - by left.
  - exact Hraise.
  - exact Hget.
Defined.

End CycleExtras.

(** * Session persistence: what the cleanup removes *)
Module PersistenceExtras.
Import Persistence.

(** ** Splitting at colons *)

Lemma append_cons c (s t : string) : String c s +:+ t = String c (s +:+ t).
Proof. done. Qed.

Lemma append_assoc_L (s t u : string) : (s +:+ t) +:+ u = s +:+ t +:+ u.
Proof. induction s as [|c s IH]; [done|]. by rewrite !append_cons, IH. Qed.

Lemma contains_colon_cons c rest :
  MemorySession.contains ":" (String c rest) =
  bool_decide (c = ":"%char) || MemorySession.contains ":" rest.
Proof.
  cbn [MemorySession.contains String.prefix].
  destruct (ascii_dec ":" c) as [<-|Hne].
  - rewrite bool_decide_eq_true_2 by done. by destruct rest.
  - by rewrite bool_decide_eq_false_2 by done.
Qed.

Lemma colon_free_cons c rest :
  colon_free (String c rest) ↔ c ≠ ":"%char ∧ colon_free rest.
Proof.
  unfold colon_free. rewrite contains_colon_cons, orb_false_iff, bool_decide_eq_false. done.
Qed.

Lemma split_colon_nonempty s : split_colon s ≠ [].
Proof.
  destruct s as [|c rest]; [done|]. cbn [split_colon].
  destruct (decide (c = ":"%char)); [done|]. by destruct (split_colon rest).
Qed.

Lemma split_colon_plain s : colon_free s → split_colon s = [s].
Proof.
  induction s as [|c rest IH]; [done|].
  intros [Hc Hrest]%colon_free_cons. cbn [split_colon].
  rewrite decide_False by done. by rewrite IH.
Qed.

Lemma split_colon_two s :
  MemorySession.contains ":" s = true → ∃ part next parts, split_colon s = part :: next :: parts.
Proof.
  induction s as [|c rest IH]; [done|].
  rewrite contains_colon_cons. cbn [split_colon].
  destruct (decide (c = ":"%char)) as [->|Hne].
  - intros _. pose proof (split_colon_nonempty rest).
    destruct (split_colon rest) as [|next parts]; [done|]. by eexists _, _, _.
  - rewrite bool_decide_eq_false_2 by done. intros (part & next & parts & ->)%IH.
    by eexists _, _, _.
Qed.

Lemma last_component_cons c rest :
  last_component (String c rest) =
  if MemorySession.contains ":" (String c rest) then last_component rest else String c rest.
Proof.
  unfold last_component. rewrite contains_colon_cons. cbn [split_colon].
  destruct (decide (c = ":"%char)) as [->|Hne].
  - rewrite bool_decide_eq_true_2 by done. cbn [orb].
    pose proof (split_colon_nonempty rest).
    destruct (split_colon rest) as [|next parts]; [done|]. by rewrite last_cons_cons.
  - rewrite bool_decide_eq_false_2 by done. cbn [orb].
    destruct (MemorySession.contains ":" rest) eqn:E.
    + destruct (split_colon_two rest E) as (part & next & parts & ->).
      by rewrite !last_cons_cons.
    + by rewrite (split_colon_plain rest E).
Qed.

Lemma last_component_plain s : colon_free s → last_component s = s.
Proof. intros H. unfold last_component. by rewrite split_colon_plain. Qed.

Lemma last_component_app (p x : string) :
  colon_free x → last_component (p +:+ ":" +:+ x) = x.
Proof.
  intros Hx. induction p as [|c p IH].
  - change ("" +:+ ":" +:+ x) with (String ":" x).
    rewrite last_component_cons, contains_colon_cons, bool_decide_eq_true_2 by done.
    by apply last_component_plain.
  - rewrite append_cons, last_component_cons.
    rewrite (proj2 (SessionExtras.contains_spec ":" (String c (p +:+ ":" +:+ x)))); [done|].
    exists (String c p), x. by rewrite append_cons.
Qed.

Lemma last_component_colon_free s : colon_free (last_component s).
Proof.
  induction s as [|c rest IH]; [done|].
  rewrite last_component_cons.
  destruct (MemorySession.contains ":" (String c rest)) eqn:E; done.
Qed.

Lemma prefix_append (p s : string) : String.prefix p (p +:+ s) = true.
Proof. apply SessionExtras.prefix_spec. by exists s. Qed.

(** ** The loop *)

Section cleanup.
Variables state_prefix access_prefix : string.

(** Both programs end their access prefix with a colon, and no state
    key of a plain id starts with the access prefix. *)
Hypothesis access_ends_with_colon : ∃ q, access_prefix = q +:+ ":".
Hypothesis states_apart :
  ∀ sid, colon_free sid → String.prefix access_prefix (state_prefix +:+ sid) = false.

Lemma cleanup_loop_spec cutoff_time keys : ∀ db count,
  NoDup keys →
  (∀ k, k ∈ keys → ∃ t, db !! k = Some (Number t)) →
  (∀ k k', k ∈ keys → k' ∈ keys → state_prefix +:+ last_component k ≠ k') →
  ∃ db',
    cleanup_loop state_prefix cutoff_time (db, count) keys =
      inr (db', (count + length (filter (λ k, stamp_before cutoff_time db k = true) keys))%nat) ∧
    ∀ key, db' !! key = if decide (removed state_prefix cutoff_time db keys key) then None else db !! key.
Proof.
  induction keys as [|k keys IH]; intros db count Hnd Hnum Hapart.
  { exists db. split; [cbn; do 2 f_equal; lia|]. intros key.
    rewrite decide_False; [done|]. unfold removed. intros H. by apply Exists_nil in H. }
  apply NoDup_cons in Hnd as [Hk Hnd].
  destruct (Hnum k) as [t Ht]; [left|].
  assert (Hrest : ∀ k', k' ∈ keys → ∃ t, db !! k' = Some (Number t)).
  { intros k' Hk'. apply Hnum. by right. }
  assert (Hapart' : ∀ k1 k2, k1 ∈ keys → k2 ∈ keys →
                             state_prefix +:+ last_component k1 ≠ k2).
  { intros k1 k2 H1 H2. apply Hapart; by right. }
  cbn [cleanup_loop]. unfold cleanup_step. rewrite Ht. cbn [py_float mbind sum_error_bind].
  destruct (Qltb t cutoff_time) eqn:Hold; cbn [mbind sum_error_bind].
  - set (db1 := delete k (delete (state_prefix +:+ last_component k) db)).
    assert (Hsame : ∀ k', k' ∈ keys → db1 !! k' = db !! k').
    { intros k' Hk'. unfold db1. rewrite !lookup_delete_ne; [done| |].
      - apply Hapart; [left | by right].
      - intros ->. done. }
    assert (Hstamp : ∀ k', k' ∈ keys →
              stamp_before cutoff_time db1 k' = stamp_before cutoff_time db k').
    { intros k' Hk'. unfold stamp_before. by rewrite Hsame. }
    destruct (IH db1 (S count) Hnd) as (db' & Hloop & Hdb'); [|done|].
    { intros k' Hk'. rewrite Hsame by done. by apply Hrest. }
    exists db'. split.
    + rewrite Hloop. do 2 f_equal.
      rewrite filter_cons_True by (unfold stamp_before; by rewrite Ht).
      rewrite (filter_iff_elem (λ k', stamp_before cutoff_time db1 k' = true)
                 (λ k', stamp_before cutoff_time db k' = true)).
      * cbn [length]. lia.
      * intros k' Hk'. by rewrite Hstamp.
    + intros key. rewrite Hdb'.
      assert (Hiff : removed state_prefix cutoff_time db1 keys key ↔ removed state_prefix cutoff_time db keys key).
      { unfold removed. rewrite !Exists_exists.
        split; intros (k' & Hk' & Hs & Hkey); exists k'; (split; [done|]);
          (split; [|done]); [by rewrite <- Hstamp | by rewrite Hstamp]. }
      destruct (decide (removed state_prefix cutoff_time db1 keys key)) as [Hr|Hr].
      * rewrite decide_True; [done|]. apply Exists_cons. right. by apply Hiff.
      * destruct (decide (key = k ∨ key = state_prefix +:+ last_component k)) as [Hhead|Hhead].
        -- rewrite decide_True.
           ++ unfold db1. destruct Hhead as [-> | ->].
              ** apply lookup_delete_eq.
              ** destruct (decide (k = state_prefix +:+ last_component k)) as [<-|Hne].
                 --- apply lookup_delete_eq.
                 --- rewrite lookup_delete_ne by done. apply lookup_delete_eq.
           ++ apply Exists_cons. left. split; [|done]. unfold stamp_before. by rewrite Ht.
        -- rewrite decide_False.
           ++ unfold db1. rewrite !lookup_delete_ne; [done|..];
                intros Heq; apply Hhead; rewrite <- Heq; auto.
           ++ intros [[_ Hhead']|Hr']%Exists_cons; [done|]. by apply Hr, Hiff.
  - destruct (IH db count Hnd Hrest Hapart') as (db' & Hloop & Hdb').
    exists db'. split.
    + rewrite Hloop. do 2 f_equal.
      by rewrite filter_cons_False by (unfold stamp_before; rewrite Ht, Hold; done).
    + intros key. rewrite Hdb'.
      assert (Hiff : removed state_prefix cutoff_time db (k :: keys) key ↔ removed state_prefix cutoff_time db keys key).
      { unfold removed. rewrite Exists_cons. split; [|by right].
        intros [[Hs _]|?]; [|done]. unfold stamp_before in Hs. rewrite Ht, Hold in Hs. done. }
      destruct (decide (removed state_prefix cutoff_time db keys key)) as [Hr|Hr].
      * by rewrite decide_True by (by apply Hiff).
      * by rewrite decide_False by (by rewrite Hiff).
Qed.

(** The cleanup of a database whose stamps are numbers. *)
Lemma cleanup_spec now reply db :
  keys_reply access_prefix db reply →
  (∀ k, k ∈ reply → ∃ t, db !! k = Some (Number t)) →
  ∃ db',
    cleanup_abandoned_sessions state_prefix now reply db =
      inr (db', length (filter (λ k, abandoned now db k = true) reply)) ∧
    ∀ key, db' !! key =
      if decide (removed state_prefix (now - CLEANUP_AFTER_DAYS * 24 * 60 * 60) db reply key)
      then None else db !! key.
Proof.
  intros [Hnd Hreply] Hnum.
  destruct (cleanup_loop_spec (now - CLEANUP_AFTER_DAYS * 24 * 60 * 60) reply db 0%nat Hnd Hnum)
    as (db' & Hloop & Hdb').
  - intros k k' _ [Hprefix _]%Hreply Heq. rewrite <- Heq in Hprefix.
    by rewrite states_apart in Hprefix by apply last_component_colon_free.
  - exists db'. split; [|done]. unfold cleanup_abandoned_sessions. by rewrite Hloop.
Qed.

Lemma access_key_component sid :
  colon_free sid → last_component (access_prefix +:+ sid) = sid.
Proof.
  intros Hsid. destruct access_ends_with_colon as [q ->].
  rewrite append_assoc_L. by apply last_component_app.
Qed.

Lemma cleanup_plain now reply db :
  keys_reply access_prefix db reply →
  plain_ids access_prefix db →
  ∃ db',
    cleanup_abandoned_sessions state_prefix now reply db =
      inr (db', length (filter (λ k, abandoned now db k = true) reply)) ∧
    (∀ sid, colon_free sid →
       if abandoned now db (access_prefix +:+ sid)
       then db' !! (access_prefix +:+ sid) = None ∧ db' !! (state_prefix +:+ sid) = None
       else db' !! (access_prefix +:+ sid) = db !! (access_prefix +:+ sid) ∧
            db' !! (state_prefix +:+ sid) = db !! (state_prefix +:+ sid)) ∧
    (∀ key, (∀ sid, colon_free sid →
               key ≠ access_prefix +:+ sid ∧ key ≠ state_prefix +:+ sid) →
            db' !! key = db !! key).
Proof.
  intros Hreply Hplain.
  destruct (cleanup_spec now reply db Hreply) as (db' & Hrun & Hdb').
  { intros k Hk%(proj2 Hreply). by destruct (Hplain k) as [? _]; [apply Hk..|]. }
  exists db'. split; [done|].
  assert (Hshape : ∀ k, k ∈ reply → ∃ sid, k = access_prefix +:+ sid ∧ colon_free sid ∧
                                           last_component k = sid).
  { intros k [Hp Hs]%(proj2 Hreply). destruct (Hplain k Hp Hs) as (_ & sid & -> & Hsid).
    exists sid. split_and!; [done..|]. by apply access_key_component. }
  split.
  - intros sid Hsid. rewrite !Hdb'.
    destruct (abandoned now db (access_prefix +:+ sid)) eqn:Hab.
    + assert (Hin : access_prefix +:+ sid ∈ reply).
      { apply Hreply. split; [apply prefix_append|].
        unfold abandoned, stamp_before in Hab.
        destruct (db !! (access_prefix +:+ sid)); [by eexists | done]. }
      split; (rewrite decide_True; [done|]); apply Exists_exists;
        exists (access_prefix +:+ sid); (split; [done|]); (split; [done|]).
      * by left.
      * right. by rewrite access_key_component.
    + split; (rewrite decide_False; [done|]);
        intros (k & Hk & Hold & Hkey)%Exists_exists;
        destruct (Hshape k Hk) as (sid' & -> & Hsid' & Hlast); rewrite Hlast in Hkey.
      * destruct Hkey as [Heq|Heq].
        -- apply (inj _) in Heq as ->. unfold abandoned in Hab. congruence.
        -- pose proof (prefix_append access_prefix sid) as Hp. rewrite Heq in Hp.
           by rewrite states_apart in Hp.
      * destruct Hkey as [Heq|Heq].
        -- pose proof (prefix_append access_prefix sid') as Hp. rewrite <- Heq in Hp.
           by rewrite states_apart in Hp.
        -- apply (inj _) in Heq as ->. unfold abandoned in Hab. congruence.
  - intros key Hother. rewrite Hdb', decide_False; [done|].
    intros (k & Hk & _ & Hkey)%Exists_exists.
    destruct (Hshape k Hk) as (sid & -> & Hsid & Hlast). rewrite Hlast in Hkey.
    destruct (Hother sid Hsid) as [H1 H2]. by destruct Hkey.
Qed.

(** X27. With session ids that hold no colon, a cleanup removes exactly
    the sessions whose access stamp is older than 90 days, state and
    stamp, counts them, and leaves everything else in the database as it
    was, in whatever order the server lists the keys. *)
Theorem cleanup_removes_the_abandoned now reply db :
  keys_reply access_prefix db reply →
  plain_ids access_prefix db →
  ∃ db',
    cleanup_abandoned_sessions state_prefix now reply db =
      inr (db', length (filter (λ k, abandoned now db k = true) reply)) ∧
    (∀ sid, colon_free sid →
       if abandoned now db (access_prefix +:+ sid)
       then db' !! (access_prefix +:+ sid) = None ∧ db' !! (state_prefix +:+ sid) = None
       else db' !! (access_prefix +:+ sid) = db !! (access_prefix +:+ sid) ∧
            db' !! (state_prefix +:+ sid) = db !! (state_prefix +:+ sid)) ∧
    (∀ key, (∀ sid, colon_free sid →
               key ≠ access_prefix +:+ sid ∧ key ≠ state_prefix +:+ sid) →
            db' !! key = db !! key).
Proof. exact (cleanup_plain now reply db). Qed.

(** X28. A session id with a colon is cleaned under the wrong name: when its
    stamp is old, the state deleted is that of the session named by the
    text after the last colon, whatever that session's own stamp; and
    the state of a session whose id holds a colon is never deleted. *)
Theorem colon_ids_are_cleaned_under_another_name now reply db :
  keys_reply access_prefix db reply →
  (∀ k, k ∈ reply → ∃ t, db !! k = Some (Number t)) →
  ∃ db' cleaned_count,
    cleanup_abandoned_sessions state_prefix now reply db = inr (db', cleaned_count) ∧
    (∀ team sid, colon_free sid →
       abandoned now db (access_prefix +:+ team +:+ ":" +:+ sid) = true →
       db' !! (state_prefix +:+ sid) = None) ∧
    (∀ sid, ¬ colon_free sid →
       String.prefix access_prefix (state_prefix +:+ sid) = false →
       db' !! (state_prefix +:+ sid) = db !! (state_prefix +:+ sid)).
Proof.
  intros Hreply Hnum.
  destruct (cleanup_spec now reply db Hreply Hnum) as (db' & Hrun & Hdb').
  exists db'. eexists. split; [exact Hrun|]. split.
  - intros team sid Hsid Hab. rewrite Hdb', decide_True; [done|].
    apply Exists_exists. exists (access_prefix +:+ team +:+ ":" +:+ sid).
    split_and!; [|done|].
    + apply Hreply. split; [apply prefix_append|].
      unfold abandoned, stamp_before in Hab.
      destruct (db !! (access_prefix +:+ team +:+ ":" +:+ sid)); [by eexists | done].
    + right. rewrite <- append_assoc_L. by rewrite last_component_app.
  - intros sid Hsid Hprefix. rewrite Hdb', decide_False; [done|].
    intros (k & [Hp _]%(proj1 (proj2 Hreply k)) & _ & [Heq|Heq])%Exists_exists.
    + rewrite <- Heq in Hp. congruence.
    + apply (inj _) in Heq. apply Hsid. rewrite Heq. apply last_component_colon_free.
Qed.

Lemma save_plain now sid dumped db :
  colon_free sid → plain_ids access_prefix db →
  plain_ids access_prefix (_save_session state_prefix access_prefix now sid dumped db).
Proof.
  intros Hsid Hplain key Hp. unfold _save_session, _update_last_accessed.
  destruct (decide (access_prefix +:+ sid = key)) as [<-|Hne].
  - intros _. rewrite lookup_insert_eq. split; [by eexists|]. by exists sid.
  - rewrite lookup_insert_ne by done.
    rewrite lookup_insert_ne; [by apply Hplain|].
    intros <-. by rewrite states_apart in Hp.
Qed.

Lemma touch_plain now sid db :
  colon_free sid → plain_ids access_prefix db →
  plain_ids access_prefix (_update_last_accessed access_prefix now sid db).
Proof.
  intros Hsid Hplain key Hp. unfold _update_last_accessed.
  destruct (decide (access_prefix +:+ sid = key)) as [<-|Hne].
  - intros _. rewrite lookup_insert_eq. split; [by eexists|]. by exists sid.
  - rewrite lookup_insert_ne by done. by apply Hplain.
Qed.

(** X29. Among session ids that hold no colon, a session saved or read
    within the 90 days before a cleanup survives it: its state is what
    [_save_session] wrote (what it was, after a [_get_session] that
    returned) and its stamp is the one of that last use. A
    [_get_session] that raises leaves the database as it was, stamp
    included. *)
Theorem recently_used_sessions_survive now later_on sid dumped db :
  colon_free sid → plain_ids access_prefix db →
  later_on - CLEANUP_AFTER_DAYS * 24 * 60 * 60 <= now →
  (∀ reply,
     let saved := _save_session state_prefix access_prefix now sid dumped db in
     keys_reply access_prefix saved reply →
     ∃ db' cleaned_count,
       cleanup_abandoned_sessions state_prefix later_on reply saved = inr (db', cleaned_count) ∧
       db' !! (state_prefix +:+ sid) = Some (Text dumped) ∧
       db' !! (access_prefix +:+ sid) = Some (Number now)) ∧
  (∀ (Session : Type) (rebuild : option Value → PyError + Session) sess reply,
     let read := _get_session state_prefix access_prefix rebuild now sid db in
     read.1 = inr sess →
     keys_reply access_prefix read.2 reply →
     ∃ db' cleaned_count,
       cleanup_abandoned_sessions state_prefix later_on reply read.2
       = inr (db', cleaned_count) ∧
       db' !! (state_prefix +:+ sid) = db !! (state_prefix +:+ sid) ∧
       db' !! (access_prefix +:+ sid) = Some (Number now)) ∧
  (∀ (Session : Type) (rebuild : option Value → PyError + Session) e,
     let read := _get_session state_prefix access_prefix rebuild now sid db in
     read.1 = inl e → read.2 = db).
Proof.
  intros Hsid Hplain Hrecent.
  assert (Hfresh : ∀ db0, db0 !! (access_prefix +:+ sid) = Some (Number now) →
                          abandoned later_on db0 (access_prefix +:+ sid) = false).
  { intros db0 Hstamp. unfold abandoned, stamp_before. rewrite Hstamp. by apply Qltb_false. }
  assert (Hstate : state_prefix +:+ sid ≠ access_prefix +:+ sid).
  { intros Heq. pose proof (prefix_append access_prefix sid) as Hp.
    rewrite <- Heq in Hp. by rewrite states_apart in Hp. }
  split_and!.
  - intros reply db1 Hreply; subst db1.
    destruct (cleanup_plain later_on reply _ Hreply
                (save_plain now sid dumped db Hsid Hplain)) as (db' & Hrun & Hsids & _).
    exists db'. eexists. split; [exact Hrun|]. specialize (Hsids sid Hsid).
    rewrite Hfresh in Hsids.
    2:{ unfold _save_session, _update_last_accessed. apply lookup_insert_eq. }
    destruct Hsids as [-> ->]. unfold _save_session, _update_last_accessed.
    rewrite lookup_insert_eq. rewrite lookup_insert_ne by done.
    by rewrite lookup_insert_eq.
  - intros Session rebuild sess reply read. subst read. unfold _get_session.
    destruct (rebuild _) as [e|sess']; [done|]. cbn [fst snd]. intros _ Hreply.
    destruct (cleanup_plain later_on reply _ Hreply
                (touch_plain now sid db Hsid Hplain)) as (db' & Hrun & Hsids & _).
    exists db'. eexists. split; [exact Hrun|]. specialize (Hsids sid Hsid).
    rewrite Hfresh in Hsids.
    2:{ unfold _update_last_accessed. apply lookup_insert_eq. }
    destruct Hsids as [-> ->]. unfold _update_last_accessed.
    rewrite lookup_insert_eq. by rewrite lookup_insert_ne by done.
  - intros Session rebuild e read. subst read. unfold _get_session.
    by destruct (rebuild _).
Qed.

End cleanup.

(** ** The key spaces of the two programs *)

Lemma render_keyspace :
  (∃ q, "anchor:last_accessed:" = q +:+ ":") ∧
  ∀ sid, colon_free sid → String.prefix "anchor:last_accessed:" ("anchor:" +:+ sid) = false.
Proof.
  split; [by exists "anchor:last_accessed"|].
  intros sid Hsid.
  destruct (String.prefix "anchor:last_accessed:" ("anchor:" +:+ sid)) eqn:E; [|done].
  apply SessionExtras.prefix_spec in E as [post E].
  change ("anchor:last_accessed:" +:+ post) with ("anchor:" +:+ "last_accessed:" +:+ post) in E.
  apply (inj _) in E. unfold colon_free in Hsid.
  rewrite (proj2 (SessionExtras.contains_spec ":" sid)) in Hsid; [done|].
  exists "last_accessed", post. by rewrite E.
Qed.

Lemma lab_keyspace :
  (∃ q, "anchorlab:last_accessed:" = q +:+ ":") ∧
  ∀ sid, colon_free sid →
    String.prefix "anchorlab:last_accessed:" ("anchorlab:session:" +:+ sid) = false.
Proof. split; [by exists "anchorlab:last_accessed" | done]. Qed.

(** The reply of [keys] on a database built by two saves. *)
Lemma two_saves_reply now1 sid1 now2 sid2 :
  sid1 ≠ sid2 →
  String.prefix "anchor:last_accessed:" ("anchor:" +:+ sid1) = false →
  String.prefix "anchor:last_accessed:" ("anchor:" +:+ sid2) = false →
  keys_reply "anchor:last_accessed:"
    (_save_session "anchor:" "anchor:last_accessed:" now2 sid2 "{}"
       (_save_session "anchor:" "anchor:last_accessed:" now1 sid1 "{}" ∅))
    ["anchor:last_accessed:" +:+ sid1; "anchor:last_accessed:" +:+ sid2].
Proof.
  intros Hne H1 H2. split.
  - apply NoDup_cons. split; [|apply NoDup_singleton].
    rewrite list_elem_of_singleton. intros Heq. by apply (inj _) in Heq.
  - intros key. unfold _save_session, _update_last_accessed.
    rewrite !lookup_insert_is_Some, lookup_empty, !elem_of_cons, elem_of_nil.
    split.
    + intros [->|[->|[]]]; (split; [apply prefix_append|]); [|by left].
      right. split; [intros Heq; by apply (inj _) in Heq|]. right.
      split; [intros Heq; pose proof (prefix_append "anchor:last_accessed:" sid1) as Hp;
              rewrite <- Heq in Hp; congruence|].
      by left.
    + intros [Hp [<-|[_ [<-|[_ [<-|[_ [<-|[_ [? ?]]]]]]]]]]; try congruence.
      * right. by left.
      * by left.
Qed.

Lemma empty_plain access_prefix : plain_ids access_prefix ∅.
Proof. intros key _ [v Hv]. by rewrite lookup_empty in Hv. Qed.

(** Alice was last seen 100 days ago and bob 10 days ago: the cleanup
    removes alice and keeps bob. *)
Lemma cleanup_removes_the_abandoned_witness :
  ∃ db',
    cleanup_abandoned_sessions "anchor:" later
      ["anchor:last_accessed:alice"; "anchor:last_accessed:bob"] two_sessions
    = inr (db', 1%nat) ∧
    db' !! "anchor:alice" = None ∧ db' !! "anchor:bob" = Some (Text "{}").
Proof.
  destruct render_keyspace as [Hends Hapart].
  destruct (cleanup_removes_the_abandoned "anchor:" "anchor:last_accessed:" Hends Hapart
              later ["anchor:last_accessed:alice"; "anchor:last_accessed:bob"] two_sessions)
    as (db' & Hrun & Hsids & _).
  - by apply (two_saves_reply _ "alice" _ "bob").
  - apply (save_plain "anchor:" "anchor:last_accessed:" Hapart); [done|].
    apply (save_plain "anchor:" "anchor:last_accessed:" Hapart); [done|].
    apply empty_plain.
  - exists db'. split; [exact Hrun|].
    pose proof (Hsids "alice" eq_refl) as Halice.
    pose proof (Hsids "bob" eq_refl) as Hbob.
    assert (abandoned later two_sessions ("anchor:last_accessed:" +:+ "alice") = true) as Ha
      by (vm_compute; reflexivity).
    assert (abandoned later two_sessions ("anchor:last_accessed:" +:+ "bob") = false) as Hb
      by (vm_compute; reflexivity).
    rewrite Ha in Halice. rewrite Hb in Hbob.
    split; [exact (proj2 Halice)|]. destruct Hbob as [_ Hbob].
    etrans; [exact Hbob|]. by vm_compute.
Defined.

(** The abandoned session "team:bob" costs the active session "bob"
    its state, and keeps its own. *)
Lemma colon_ids_are_cleaned_under_another_name_witness :
  ∃ db' cleaned_count,
    cleanup_abandoned_sessions "anchor:" later
      ["anchor:last_accessed:team:bob"; "anchor:last_accessed:bob"] colon_sessions
    = inr (db', cleaned_count) ∧
    db' !! "anchor:bob" = None ∧ db' !! "anchor:team:bob" = Some (Text "{}").
Proof.
  destruct render_keyspace as [Hends Hapart].
  destruct (colon_ids_are_cleaned_under_another_name "anchor:" "anchor:last_accessed:" Hapart
              later ["anchor:last_accessed:team:bob"; "anchor:last_accessed:bob"]
              colon_sessions)
    as (db' & cleaned_count & Hrun & Hgone & Hkept).
  - by apply (two_saves_reply _ "team:bob" _ "bob").
  - intros k Hk.
    repeat (apply elem_of_cons in Hk as [->|Hk]; [vm_compute; by eexists|]).
    by apply elem_of_nil in Hk.
  - exists db', cleaned_count. split; [exact Hrun|]. split.
    + apply (Hgone "team" "bob" eq_refl). vm_compute. reflexivity.
    + etrans; [apply (Hkept "team:bob")|by vm_compute].
      * unfold colon_free. vm_compute. discriminate.
      * reflexivity.
Defined.

(** Bob saved 10 days before the cleanup keeps state and stamp. *)
Lemma recently_used_sessions_survive_witness :
  ∃ db' cleaned_count,
    cleanup_abandoned_sessions "anchor:" later
      ["anchor:last_accessed:alice"; "anchor:last_accessed:bob"] two_sessions
    = inr (db', cleaned_count) ∧
    db' !! "anchor:bob" = Some (Text "{}").
Proof.
  destruct render_keyspace as [Hends Hapart].
  destruct (recently_used_sessions_survive "anchor:" "anchor:last_accessed:" Hends Hapart
              (later - 10 * 86400) later "bob" "{}"
              (_save_session "anchor:" "anchor:last_accessed:" (later - 100 * 86400)
                 "alice" "{}" ∅)) as (Hsave & _ & _).
  - done.
  - apply (save_plain "anchor:" "anchor:last_accessed:" Hapart); [done|]. apply empty_plain.
  - by apply Qle_bool_imp_le.
  - destruct (Hsave ["anchor:last_accessed:alice"; "anchor:last_accessed:bob"])
      as (db' & cleaned_count & Hrun & Hstate & _).
    + by apply (two_saves_reply _ "alice" _ "bob").
    + exists db', cleaned_count. split; [exact Hrun | exact Hstate].
Defined.

End PersistenceExtras.

(** * Personality generation: the anchor vector of a generated seed *)
Module GenerationExtras.
Import Generation.

Lemma generated_core_lookup big5_scores session_core :
  big5_scores ≠ ∅ →
  let core := generated_core big5_scores session_core in
  core !! "Fear" = Some (1.0 - default 0.5 (big5_scores !! "neuroticism_volatility")) ∧
  core !! "Safety" = Some (default 0.5 (big5_scores !! "agreeableness_compassion")) ∧
  core !! "Time" = Some (default 0.5 (big5_scores !! "conscientiousness_industriousness")) ∧
  core !! "Choice" = Some (default 0.5 (big5_scores !! "openness_intellect")) ∧
  ∀ key, key ∉ Mixer.core_keys → core !! key = None.
Proof.
  intros Hne core. subst core. unfold generated_core. rewrite decide_False by done.
  cbv zeta. split_and!.
  - by rewrite lookup_insert_eq.
  - rewrite lookup_insert_ne by done. by rewrite lookup_insert_eq.
  - rewrite !lookup_insert_ne by done. by rewrite lookup_insert_eq.
  - rewrite !lookup_insert_ne by done. by rewrite lookup_singleton_eq.
  - intros key Hkey. unfold Mixer.core_keys in Hkey.
    rewrite !not_elem_of_cons in Hkey. destruct Hkey as (H1 & H2 & H3 & H4 & _).
    rewrite !lookup_insert_ne by done. by rewrite lookup_singleton_ne.
Qed.

(** X30. With scores given, the anchor vector of a generated seed has the
    four dimensions, ignores the session's own vector and every facet
    but four, and stays between 0 and 1 when the scores do. The
    industriousness facet is read under the name
    ["conscientiousness_industriousness"]: a trait vector with the
    mixer's facet names, such as one blended by [mix_personalities],
    gets Time 0.5 whatever its industriousness. *)
Theorem generated_core_reads_four_facets big5_scores session_core :
  big5_scores ≠ ∅ →
  let core := generated_core big5_scores session_core in
  (∀ key, is_Some (core !! key) ↔ key ∈ Mixer.core_keys) ∧
  (∀ other_core, generated_core big5_scores other_core = core) ∧
  (∀ other_scores, other_scores ≠ ∅ →
     (∀ key, key ∈ ["neuroticism_volatility"; "agreeableness_compassion";
                    "conscientiousness_industriousness"; "openness_intellect"] →
             other_scores !! key = big5_scores !! key) →
     generated_core other_scores session_core = core) ∧
  ((∀ key value, big5_scores !! key = Some value → 0 <= value <= 1) →
   ∀ key value, core !! key = Some value → 0 <= value <= 1) ∧
  ((∀ key, is_Some (big5_scores !! key) → key ∈ Mixer.personality_keys) →
   core !! "Time" = Some 0.5) ∧
  (∀ base list_of_set uuid4 now_iso combinations custom_goal m,
     Mixer.mix_personalities base list_of_set uuid4 now_iso combinations custom_goal = inr m →
     generated_core (list_to_map (Mixer.mixed_personality_vector m)) session_core !! "Time"
     = Some 0.5).
Proof.
  intros Hne core.
  destruct (generated_core_lookup big5_scores session_core Hne)
    as (Hfear & Hsafety & Htime & Hchoice & Hother).
  fold core in Hfear, Hsafety, Htime, Hchoice, Hother.
  assert (Hmissing : ∀ scores : gmap string Q,
            (∀ key, is_Some (scores !! key) → key ∈ Mixer.personality_keys) →
            scores !! "conscientiousness_industriousness" = None).
  { intros scores Hkeys.
    destruct (scores !! "conscientiousness_industriousness") as [v|] eqn:E; [|done].
    exfalso. specialize (Hkeys "conscientiousness_industriousness").
    rewrite E in Hkeys. specialize (Hkeys ltac:(by eexists)).
    revert Hkeys. apply (bool_decide_unpack _). by vm_compute. }
  split_and!.
  - intros key. split.
    + intros Hsome. destruct (decide (key ∈ Mixer.core_keys)) as [|Hnot]; [done|].
      rewrite (Hother key Hnot) in Hsome. by destruct Hsome.
    + unfold Mixer.core_keys. rewrite !elem_of_cons, elem_of_nil.
      intros [->|[->|[->|[->|[]]]]]; by eexists.
  - intros other_core. subst core. unfold generated_core. by rewrite !decide_False by done.
  - intros other_scores Hne' Hagree. subst core. unfold generated_core.
    rewrite !decide_False by done. cbv zeta.
    rewrite !Hagree; [done|..]; rewrite !elem_of_cons; tauto.
  - intros Hrange key value Hlookup.
    assert (Hdefault : ∀ k, 0 <= default 0.5 (big5_scores !! k) <= 1).
    { intros k. destruct (big5_scores !! k) as [v|] eqn:E; simpl.
      - by apply (Hrange k).
      - split; by apply Qle_bool_imp_le. }
    destruct (decide (key ∈ Mixer.core_keys)) as [Hkey|Hnot].
    2:{ by rewrite (Hother key Hnot) in Hlookup. }
    unfold Mixer.core_keys in Hkey. rewrite !elem_of_cons, elem_of_nil in Hkey.
    destruct Hkey as [->|[->|[->|[->|[]]]]].
    + rewrite Hfear in Hlookup. injection Hlookup as <-.
      destruct (Hdefault "neuroticism_volatility").
      set (v := default 0.5 (big5_scores !! "neuroticism_volatility")) in *. lra.
    + rewrite Hsafety in Hlookup. injection Hlookup as <-. apply Hdefault.
    + rewrite Htime in Hlookup. injection Hlookup as <-. apply Hdefault.
    + rewrite Hchoice in Hlookup. injection Hlookup as <-. apply Hdefault.
  - intros Hkeys. by rewrite Htime, (Hmissing big5_scores Hkeys).
  - intros base list_of_set uuid4 now_iso combinations custom_goal m Hmix.
    destruct (MixerProofs.mix_blends _ _ _ _ _ _ _ Hmix) as (_ & Hpers & _).
    assert (Hnonempty : list_to_map (M := gmap string Q) (Mixer.mixed_personality_vector m) ≠ ∅).
    { destruct (Mixer.mixed_personality_vector m) as [|[k v] l]; [done|].
      cbn [list_to_map foldr]. apply insert_non_empty. }
    destruct (generated_core_lookup _ session_core Hnonempty) as (_ & _ & -> & _).
    rewrite Hmissing; [done|]. intros key [v Hv].
    apply elem_of_list_to_map_2 in Hv. rewrite <- Hpers.
    apply list_elem_of_fmap. by exists (key, v).
Qed.

(** A low volatility gives a high Fear component. *)
Lemma generated_core_reads_four_facets_witness :
  generated_core {[ "neuroticism_volatility" := 0.2 ]} ∅ !! "Time" = Some 0.5 ∧
  generated_core {[ "neuroticism_volatility" := 0.2 ]}
                 {[ "Time" := 0.9 ]} !! "Time" = Some 0.5.
Proof.
  destruct (generated_core_reads_four_facets {[ "neuroticism_volatility" := 0.2 ]} ∅)
    as (_ & Hsession & _ & _ & Htime & _).
  - apply insert_non_empty.
  - cbv zeta in Hsession, Htime. split; [|etrans; [exact (f_equal (.!! "Time") (Hsession _))|]]; apply Htime.
    all: intros key [v Hv]; apply lookup_singleton_Some in Hv as [<- _];
      apply (bool_decide_unpack _); by vm_compute.
Defined.

End GenerationExtras.
